(** * QuickConvert client-side converters: a shallow embedding

    This development models the JavaScript converters of
    [assets/js/converters/] (SVG rasterisation, images <-> PDF, HEIC and
    WebP re-encoding) and proves properties of them.

    Conventions of the embedding:
    - Where a property depends on it (the sizes computed by the SVG
      converter), a JavaScript number is an IEEE 754 binary64 value
      [double]: a finite value [Dbl q] with [q] a dyadic rational in
      reduced form, [+-Infinity] or [NaN]; a string is converted by
      computing its exact value and rounding it to nearest, ties to even.
      Elsewhere numbers are exact rationals [Q] or integers [Z], and
      [NaN] and the infinities, where the code can meet them, are explicit
      cases.
    - Strings are [String.string]; "whitespace" is ASCII whitespace.
    - The DOM is modelled by the part of it the code reads and writes: the
      attributes of the parsed [<svg>] element, and a record [ui] of the
      widgets a converter page updates.
    - Asynchronous handlers are run to completion, one at a time; an
      [await] that rejects is a thrown exception of a small state and
      exception monad [M]. *)

From Stdlib Require Import QArith Qpower Qminmax Qround Lqa ZArith String Ascii List Bool Lia.
Import ListNotations.
Open Scope string_scope.

(* ================================================================= *)
(** ** Character and string helpers (JavaScript builtins)            *)
(* ================================================================= *)

Module JS.

(** The ASCII part of the class [\s] of JavaScript regular expressions,
    also the characters removed by [String.prototype.trim]. *)
Definition is_space (c : ascii) : bool :=
  match nat_of_ascii c with
  | 32%nat | 9%nat | 10%nat | 11%nat | 12%nat | 13%nat => true
  | _ => false
  end.

Definition is_digit (c : ascii) : bool :=
  let n := nat_of_ascii c in (48 <=? n)%nat && (n <=? 57)%nat.

Definition digit_val (c : ascii) : Z := Z.of_nat (nat_of_ascii c - 48).

Fixpoint trim_start (s : string) : string :=
  match s with
  | EmptyString => EmptyString
  | String c s' => if is_space c then trim_start s' else s
  end.

Fixpoint rev_string (s : string) (acc : string) : string :=
  match s with
  | EmptyString => acc
  | String c s' => rev_string s' (String c acc)
  end.

(** [String.prototype.trim]. *)
Definition trim (s : string) : string :=
  rev_string (trim_start (rev_string (trim_start s) EmptyString)) EmptyString.

(** The longest prefix of decimal digits, and the rest. *)
Fixpoint span_digits (s : string) : string * string :=
  match s with
  | String c s' =>
      if is_digit c then let '(d, r) := span_digits s' in (String c d, r)
      else (EmptyString, s)
  | EmptyString => (EmptyString, EmptyString)
  end.

(** Value of a string of decimal digits (the empty string gives 0). *)
Fixpoint digits_acc (s : string) (acc : Z) : Z :=
  match s with
  | EmptyString => acc
  | String c s' => digits_acc s' (acc * 10 + digit_val c)%Z
  end.

Definition digits_value (s : string) : Z := digits_acc s 0.

(** The number written [int.frac] in decimal. *)
Definition decimal_value (int frac : string) : Q :=
  Qmake (digits_value (int ++ frac)) (Z.to_pos (10 ^ Z.of_nat (String.length frac))).

(** The result of [Number(s)]: a finite value, or [NaN]/[+-Infinity],
    which [Number.isFinite] rejects. *)
Inductive number := Finite (q : Q) | NonFinite.

Definition is_hex_digit (c : ascii) : bool :=
  let n := nat_of_ascii c in
  is_digit c || ((97 <=? n)%nat && (n <=? 102)%nat) || ((65 <=? n)%nat && (n <=? 70)%nat).

Definition hex_val (c : ascii) : Z :=
  let n := nat_of_ascii c in
  if is_digit c then Z.of_nat (n - 48)
  else if (97 <=? n)%nat then Z.of_nat (n - 87) else Z.of_nat (n - 55).

(** Digits of a [0x]/[0o]/[0b] literal: [None] when a character is not a
    digit of the radix or there is no digit. *)
Fixpoint radix_digits (radix : Z) (s : string) (acc : Z) (seen : bool) : option Z :=
  match s with
  | EmptyString => if seen then Some acc else None
  | String c s' =>
      if is_hex_digit c && (hex_val c <? radix)%Z
      then radix_digits radix s' (acc * radix + hex_val c)%Z true
      else None
  end.

(** [10 ^ e] for an integer exponent. *)
Definition pow10 (e : Z) : Q :=
  if (0 <=? e)%Z then inject_Z (10 ^ e) else (/ inject_Z (10 ^ (- e)))%Q.

(** IEEE 754 binary64 values.  A finite value [Dbl q] is kept with [q] in
    reduced form; the sign of a zero is not represented. *)
Inductive double := Dbl (q : Q) | PosInf | NegInf | NaN.

Definition pow2 (e : Z) : Q := ((2 # 1) ^ e)%Q.

(** The exponent [floor (log2 x)] of a positive rational. *)
Definition ilog2 (x : Q) : Z :=
  let a := (Z.log2 (Qnum x) - Z.log2 (Zpos (Qden x)))%Z in
  if Qle_bool (pow2 a) x then a else (a - 1)%Z.

(** The integer nearest to [y], ties to the even one. *)
Definition round_even (y : Q) : Z :=
  let f := Qfloor y in
  match Qcompare (y - inject_Z f) (1 # 2) with
  | Lt => f
  | Gt => (f + 1)%Z
  | Eq => if Z.even f then f else (f + 1)%Z
  end.

(** Rounding of a positive rational to binary64, to nearest with ties to
    even: 53 significant bits, the quantum [2 ^ -1074] of the subnormals
    at the bottom, [Infinity] from [2 ^ 1024] up. *)
Definition round_pos (x : Q) : double :=
  let e := Z.max (-1074) (ilog2 x - 52) in
  let v := (inject_Z (round_even (x / pow2 e)) * pow2 e)%Q in
  if Qle_bool (pow2 1024) v then PosInf else Dbl (Qred v).

(** The binary64 value nearest to an exact value (RoundMVResult of
    StringToNumber, and the result of an arithmetic operation). *)
Definition to_double (x : Q) : double :=
  let x := Qred x in
  match Qcompare x 0 with
  | Eq => Dbl 0
  | Gt => round_pos x
  | Lt => match round_pos (- x) with
          | Dbl q => Dbl (- q)
          | PosInf => NegInf
          | d => d
          end
  end.

(** The exact value of a StrUnsignedDecimalLiteral. *)
Inductive literal := LitInfinity | LitValue (q : Q).

(** The unsigned part of a StrDecimalLiteral: [Infinity], or digits with
    an optional fraction and an optional exponent. *)
Definition unsigned_decimal (s : string) : option literal :=
  if String.eqb s "Infinity" then Some LitInfinity else
  let '(int, r) := span_digits s in
  let '(frac, r, has_dot) :=
    match r with
    | String "." r' => let '(f, r'') := span_digits r' in (f, r'', true)
    | _ => (EmptyString, r, false)
    end in
  if (String.length int =? 0)%nat && (String.length frac =? 0)%nat then None else
  let v := decimal_value int frac in
  match r with
  | EmptyString => Some (LitValue v)
  | String e r' =>
      if (e =? "e")%char || (e =? "E")%char then
        let '(sgn, r'') :=
          match r' with
          | String "-" t => ((-1)%Z, t)
          | String "+" t => (1%Z, t)
          | _ => (1%Z, r')
          end in
        let '(ed, rest) := span_digits r'' in
        if (String.length ed =? 0)%nat then None
        else match rest with
             | EmptyString => Some (LitValue (v * pow10 (sgn * digits_value ed))%Q)
             | _ => None
             end
      else None
  end.

(** A signed decimal literal as a number: its exact value rounded, [NaN]
    when the string is not a literal. *)
Definition of_literal (negative : bool) (l : option literal) : double :=
  match l with
  | Some LitInfinity => if negative then NegInf else PosInf
  | Some (LitValue q) => to_double (if negative then - q else q)%Q
  | None => NaN
  end.

(** [Number(s)] (StringToNumber): surrounding whitespace is ignored, the
    empty string is 0, [0x]/[0o]/[0b] literals are unsigned, a decimal
    literal may carry a sign. *)
Definition js_Number (s0 : string) : double :=
  let s := trim s0 in
  match s with
  | EmptyString => Dbl 0%Q
  | String "0" (String x r) =>
      let radix :=
        if (x =? "x")%char || (x =? "X")%char then 16%Z
        else if (x =? "o")%char || (x =? "O")%char then 8%Z
        else if (x =? "b")%char || (x =? "B")%char then 2%Z else 0%Z in
      if (radix =? 0)%Z then of_literal false (unsigned_decimal s)
      else match radix_digits radix r 0 false with
           | Some z => to_double (inject_Z z)
           | None => NaN
           end
  | String "-" r => of_literal true (unsigned_decimal r)
  | String "+" r => of_literal false (unsigned_decimal r)
  | _ => of_literal false (unsigned_decimal s)
  end.

(** [s.split(/[\s,]+/)]: every maximal run of separators splits, a leading
    or trailing run gives an empty first or last piece. *)
Definition is_vb_sep (c : ascii) : bool := is_space c || (c =? ",")%char.

Fixpoint split_sep (s : string) (cur : string) (in_sep : bool) : list string :=
  match s with
  | EmptyString => [rev_string cur EmptyString]
  | String c s' =>
      if is_vb_sep c then
        if in_sep then split_sep s' cur true
        else rev_string cur EmptyString :: split_sep s' EmptyString true
      else split_sep s' (String c cur) false
  end.

Definition split_ws_comma (s : string) : list string := split_sep s EmptyString false.

(** [.map(Number).filter(Number.isFinite)]: the finite values. *)
Fixpoint finite_numbers (l : list string) : list Q :=
  match l with
  | [] => []
  | x :: l' =>
      match js_Number x with
      | Dbl q => q :: finite_numbers l'
      | _ => finite_numbers l'
      end
  end.

(** The comparison [x < y] on numbers. *)
Definition Qlt_bool (x y : Q) : bool := negb (Qle_bool y x).

(** [Math.round] on a finite value: the nearest integer, halves rounded
    up. *)
Definition round (x : Q) : Z := Qfloor (x + (1 # 2))%Q.

(** [Math.round] on a number; every integer it can yield from a finite
    value is a binary64 value. *)
Definition Math_round (x : double) : double :=
  match x with
  | Dbl q => Dbl (inject_Z (round q))
  | d => d
  end.

(** [Math.min(x, y)] and [Math.max(x, y)]. *)
Definition Math_min (x y : double) : double :=
  match x, y with
  | NaN, _ | _, NaN => NaN
  | NegInf, _ | _, NegInf => NegInf
  | PosInf, d | d, PosInf => d
  | Dbl a, Dbl b => Dbl (Qmin a b)
  end.

Definition Math_max (x y : double) : double :=
  match x, y with
  | NaN, _ | _, NaN => NaN
  | PosInf, _ | _, PosInf => PosInf
  | NegInf, d | d, NegInf => d
  | Dbl a, Dbl b => Dbl (Qmax a b)
  end.

Definition is_negative (x : double) : bool :=
  match x with
  | Dbl q => Qlt_bool q 0
  | NegInf => true
  | _ => false
  end.

(** [x * y]: the exact product rounded; an infinity times 0 is [NaN]. *)
Definition js_mul (x y : double) : double :=
  match x, y with
  | NaN, _ | _, NaN => NaN
  | Dbl a, Dbl b => to_double (a * b)%Q
  | Dbl a, _ | _, Dbl a =>
      if Qeq_bool a 0 then NaN
      else if xorb (is_negative x) (is_negative y) then NegInf else PosInf
  | _, _ => if xorb (is_negative x) (is_negative y) then NegInf else PosInf
  end.

(** Truthiness of a number-or-null: [null], [0] and [NaN] are falsy. *)
Definition truthy (v : option double) : bool :=
  match v with
  | Some (Dbl q) => negb (Qeq_bool q 0%Q)
  | Some NaN => false
  | Some _ => true
  | None => false
  end.

(** [a || b] on a number-or-null with a number default. *)
Definition or_default (v : option double) (d : double) : double :=
  match v with
  | Some x => if truthy v then x else d
  | None => d
  end.

End JS.

(* ================================================================= *)
(** ** converter-svg.js: intrinsic size of an SVG                     *)
(* ================================================================= *)

Module Svg.
Import JS.
Local Open Scope Q_scope.

(** The [<svg>] element found by [doc.querySelector("svg")], through the
    attributes [parseSvgSize] reads ([getAttribute] gives [null] for a
    missing attribute). *)
Record svg_element := {
  attr_width : option string;
  attr_height : option string;
  attr_viewBox : option string
}.

(** [parseLen]: [null] for a falsy value, otherwise [Number(m[1])] for the
    text [m[1]] matched by [/^([0-9]*\.?[0-9]+)/] at the start of the
    trimmed value: the leading digits, followed by a dot and the next
    digits when a digit follows the dot. *)
Definition parseLen (v : option string) : option double :=
  match v with
  | None => None
  | Some EmptyString => None
  | Some v =>
      let '(int, r) := span_digits (trim v) in
      match r with
      | String "." r' =>
          let '(frac, _) := span_digits r' in
          if (String.length frac =? 0)%nat then
            if (String.length int =? 0)%nat then None else Some (js_Number int)
          else Some (js_Number (int ++ "." ++ frac))
      | _ => if (String.length int =? 0)%nat then None else Some (js_Number int)
      end
  end.

(** [vbAttr.trim().split(/[\s,]+/).map(Number).filter(Number.isFinite)],
    computed only when [vbAttr] is truthy. *)
Definition viewBox_parts (vb : string) : list Q :=
  finite_numbers (split_ws_comma (trim vb)).

(** [Math.max(1, Math.min(x, 20000))]. *)
Definition clamp_dim (x : double) : double := Math_max (Dbl 1) (Math_min x (Dbl 20000)).

(** [parseSvgSize(svgText)], from the parsed document on. *)
Definition parseSvgSize (doc : option svg_element) : double * double :=
  match doc with
  | None => (Dbl 512, Dbl 512)
  | Some svg =>
      let width := parseLen (attr_width svg) in
      let height := parseLen (attr_height svg) in
      let '(width, height) :=
        match attr_viewBox svg with
        | Some vbAttr =>
            if (negb (truthy width) || negb (truthy height)) && negb (String.eqb vbAttr "")
            then
              let parts := viewBox_parts vbAttr in
              if (List.length parts =? 4)%nat then
                (if truthy width then width else Some (Dbl (nth 2 parts 0)),
                 if truthy height then height else Some (Dbl (nth 3 parts 0)))
              else (width, height)
            else (width, height)
        | None => (width, height)
        end in
      let width := or_default width (Dbl 512) in
      let height := or_default height (Dbl 512) in
      (clamp_dim width, clamp_dim height)
  end.

(** The canvas size set by [renderAndExport] from [svgIntrinsic] and
    [scale = Number(scaleRange.value) || 1]:
    [Math.max(1, Math.round(svgIntrinsic.width * scale))]. *)
Definition output_canvas_size (intrinsic : double * double) (scale : double) : double * double :=
  (Math_max (Dbl 1) (Math_round (js_mul (fst intrinsic) scale)),
   Math_max (Dbl 1) (Math_round (js_mul (snd intrinsic) scale))).

(** [Number(scaleRange.value) || 1]. *)
Definition svg_scale (value : string) : double := or_default (Some (js_Number value)) (Dbl 1).

(** The size [handleFile] stores in [svgIntrinsic] and [renderAndExport]
    gives the canvas. *)
Definition svg_canvas_size (doc : option svg_element) (scale : double) : double * double :=
  output_canvas_size (parseSvgSize doc) scale.

(** The per-dimension fallback of the spec: the first nonzero of the
    attribute and the viewBox dimension, else 512. *)
Definition viewBox_dim (vb : option string) (i : nat) : option double :=
  match vb with
  | Some vbAttr =>
      if negb (String.eqb vbAttr "") then
        let parts := viewBox_parts vbAttr in
        if (List.length parts =? 4)%nat then Some (Dbl (nth i parts 0)) else None
      else None
  | None => None
  end.

Definition first_nonzero (a b : option double) : double :=
  if truthy a then or_default a (Dbl 512) else or_default b (Dbl 512).

End Svg.

(* ================================================================= *)
(** ** converter-image-pdf.js: images -> PDF page geometry             *)
(* ================================================================= *)

(** The file holds two converters: a module-level one with lazy loading of
    jsPDF ([convertImagesToPdf(files)], lines 239-339, called [v1] here)
    and one set up on [DOMContentLoaded] ([convertImagesToPdf(files,
    quality)], lines 875-943, called [v2]).  Images are given by their
    decoded pixel size [img.width] x [img.height]; a document is the list
    of its pages and the list of rectangles passed to [addImage]. *)
Module ImagePdf.
Import JS.
Local Open Scope Q_scope.

Inductive orientation := Portrait | Landscape.

Record image := { img_w : Z; img_h : Z }.

Record page := { page_w : Q; page_h : Q; page_orientation : orientation }.

Record placement := { draw_x : Q; draw_y : Q; draw_w : Q; draw_h : Q }.

Definition doc := (list page * list placement)%type.

(** jsPDF (vendor library, not part of this repository) turns a format
    [[w, h]] and an orientation into a page: a portrait page with [w > h]
    and a landscape page with [h > w] get their sides swapped. *)
Definition jspdf_page (w h : Q) (o : orientation) : page :=
  match o with
  | Portrait =>
      if Qlt_bool h w then {| page_w := h; page_h := w; page_orientation := o |}
      else {| page_w := w; page_h := h; page_orientation := o |}
  | Landscape =>
      if Qlt_bool w h then {| page_w := h; page_h := w; page_orientation := o |}
      else {| page_w := w; page_h := h; page_orientation := o |}
  end.

(** jsPDF's named formats, in points. *)
Definition jspdf_format (name : string) : Q * Q :=
  if String.eqb name "letter" then (612, 792) else (595.28, 841.89).

(** *** [v1]: module-level [convertImagesToPdf(files)] *)

(** [const sizes = { a4: [595.28, 841.89], letter: [612, 792] }] and
    [sizes[pageSizeKey] || sizes.a4]. *)
Definition sizes_v1 (key : string) : Q * Q :=
  if String.eqb key "letter" then (612, 792) else (595.28, 841.89).

(** Lines 309-321: margin 20, the image is first scaled to the full inner
    width and then, if too tall, to the inner height. *)
Definition layout_v1 (pageWidth pageHeight : Q) (img : image) : placement :=
  let margin := 20 in
  let maxWidth := pageWidth - margin * 2 in
  let maxHeight := pageHeight - margin * 2 in
  let iw := inject_Z (img_w img) in
  let ih := inject_Z (img_h img) in
  let drawWidth := maxWidth in
  let drawHeight := ih * maxWidth / iw in
  let '(drawWidth, drawHeight) :=
    if Qlt_bool maxHeight drawHeight then (iw * maxHeight / ih, maxHeight)
    else (drawWidth, drawHeight) in
  {| draw_x := (pageWidth - drawWidth) / 2;
     draw_y := (pageHeight - drawHeight) / 2;
     draw_w := drawWidth; draw_h := drawHeight |}.

(** Lines 284-307: page size, orientation and the page jsPDF creates. *)
Definition page_v1 (key : string) (img : image) : Q * Q * page :=
  if String.eqb key "fit-image" then
    let pageWidth := inject_Z (img_w img) in
    let pageHeight := inject_Z (img_h img) in
    let orientation := if (img_h img <=? img_w img)%Z then Landscape else Portrait in
    (pageWidth, pageHeight, jspdf_page pageWidth pageHeight orientation)
  else
    let '(w, h) := sizes_v1 key in
    let orientation := if Qle_bool h w then Landscape else Portrait in
    let '(fw, fh) := jspdf_format key in
    (w, h, jspdf_page fw fh orientation).

(** The loop of lines 267-326 ([pdf] is [undefined] before the first
    image). *)
Fixpoint images_to_pdf_v1_loop (key : string) (pdf : option doc) (index : nat)
    (imgs : list image) : option doc :=
  match imgs with
  | [] => pdf
  | img :: rest =>
      let '(pageWidth, pageHeight, pg) := page_v1 key img in
      let pdf :=
        match pdf with
        | None => ([pg], [])
        | Some (pages, draws) =>
            if (0 <? index)%nat then ((pages ++ [pg])%list, draws) else (pages, draws)
        end in
      let '(pages, draws) := pdf in
      images_to_pdf_v1_loop key (Some (pages, (draws ++ [layout_v1 pageWidth pageHeight img])%list))
        (S index) rest
  end.

(** [convertImagesToPdf(files)] on the image files, up to [pdf.output]:
    [None] is the error "No images found in selection.". *)
Definition images_to_pdf_v1 (key : string) (imgs : list image) : option doc :=
  match imgs with
  | [] => None
  | _ => images_to_pdf_v1_loop key None 0 imgs
  end.

(** *** [v2]: [convertImagesToPdf(files, quality)] in the [DOMContentLoaded] handler *)

Definition page_size_v2 (raw : string) : string :=
  if String.eqb raw "fit-JPG/PNG" then "fit-image" else raw.

(** Lines 919-929: margin 40, scale factor [Math.min(maxW / width,
    maxH / height, 1)]; no scaling on fit-image pages. *)
Definition layout_v2 (pageSize : string) (pageWidth pageHeight : Q) (img : image) : placement :=
  let width := inject_Z (img_w img) in
  let height := inject_Z (img_h img) in
  let '(renderWidth, renderHeight) :=
    if negb (String.eqb pageSize "fit-image") then
      let margin := 40 in
      let maxW := pageWidth - margin * 2 in
      let maxH := pageHeight - margin * 2 in
      let ratio := Qmin (Qmin (maxW / width) (maxH / height)) 1 in
      (width * ratio, height * ratio)
    else (width, height) in
  {| draw_x := (pageWidth - renderWidth) / 2;
     draw_y := (pageHeight - renderHeight) / 2;
     draw_w := renderWidth; draw_h := renderHeight |}.

Definition orientation_v2 (img : image) : orientation :=
  if (img_h img <? img_w img)%Z then Landscape else Portrait.

(** The first page: [new jsPDF({orientation, unit: "pt", format: [width,
    height]})] or [new jsPDF("p", "pt", format)]. *)
Definition first_page_v2 (pageSize : string) (img : image) : page :=
  if String.eqb pageSize "fit-image" then
    jspdf_page (inject_Z (img_w img)) (inject_Z (img_h img)) (orientation_v2 img)
  else
    let format := if String.eqb pageSize "letter" then "letter" else "a4" in
    let '(fw, fh) := jspdf_format format in
    jspdf_page fw fh Portrait.

(** A later page: [pdf.addPage([width, height], ...)], or [pdf.addPage()],
    which repeats the format and orientation of the first page. *)
Definition next_page_v2 (pageSize : string) (first : page) (img : image) : page :=
  if String.eqb pageSize "fit-image" then
    jspdf_page (inject_Z (img_w img)) (inject_Z (img_h img)) (orientation_v2 img)
  else first.

Fixpoint images_to_pdf_v2_loop (pageSize : string) (pdf : option doc) (imgs : list image)
    : option doc :=
  match imgs with
  | [] => pdf
  | img :: rest =>
      let '(pages, draws) :=
        match pdf with
        | None => ([first_page_v2 pageSize img], [])
        | Some (pages, draws) =>
            ((pages ++ [next_page_v2 pageSize (hd (first_page_v2 pageSize img) pages) img])%list, draws)
        end in
      (* [pdf.internal.pageSize] is the size of the current (last) page *)
      let cur := last pages (first_page_v2 pageSize img) in
      images_to_pdf_v2_loop pageSize
        (Some (pages, (draws ++ [layout_v2 pageSize (page_w cur) (page_h cur) img])%list)) rest
  end.

(** [convertImagesToPdf(files, quality)] up to [pdf.output]: [None] is
    the error "No valid images to convert.". *)
Definition images_to_pdf_v2 (pageSizeRaw : string) (imgs : list image) : option doc :=
  images_to_pdf_v2_loop (page_size_v2 pageSizeRaw) None imgs.

(** The pages the spec expects on fit-image: the pixel size of each image,
    with the orientation each variant asks for. *)
Definition fit_page_v1 (img : image) : page :=
  {| page_w := inject_Z (img_w img); page_h := inject_Z (img_h img);
     page_orientation := if (img_h img <=? img_w img)%Z then Landscape else Portrait |}.

Definition fit_page_v2 (img : image) : page :=
  {| page_w := inject_Z (img_w img); page_h := inject_Z (img_h img);
     page_orientation := orientation_v2 img |}.

End ImagePdf.

(* ================================================================= *)
(** ** Converter pages: widgets, object URLs and module state          *)
(* ================================================================= *)

(** The state a converter page mutates: the widgets its handlers write
    (status line, toasts, download link, convert button, spinner,
    progress bar), the object URLs alive in the document, and the module
    variables ([currentFile] or [selectedFile], [selectedFiles],
    [currentObjectUrl], the mode select).  Each handler below runs on the
    page of its own converter, so one record serves them all. *)
Module Page.

Record file := { fname : string; ftype : string; fsize : Z }.

(** A [Blob]; its bytes play no role in the properties. *)
Definition blob := nat.

(** The page as the handlers see it.  [status_class] is the class among
    [text-success], [text-danger], [text-warning], [text-secondary] that
    [setStatus] keeps on the status element; [status_timers] are the
    restores scheduled by [setTemporaryStatus] that have not run yet;
    [btn_label] is the text of the convert button's label and
    [btn_original] its [dataset.originalText] ([None] while unset).  The
    [has_*] fields say whether the elements the shared helpers guard
    against exist: the status element, the progress wrapper and the
    convert button (looked up once when the page is set up) and
    [document.body]; no handler changes them. *)
Record st := {
  status_text : string;
  status_class : string;
  toasts : list (string * string);
  link_visible : bool;
  link_href : option nat;
  btn_disabled : bool;
  spinner_visible : bool;
  progress_visible : bool;
  next_url : nat;
  live_urls : list nat;
  current_object_url : option nat;
  current_file : option file;
  selected_files : list file;
  mode_select : string;
  status_timers : list (string * string);
  btn_label : string;
  btn_original : option string;
  has_status_el : bool;
  has_progress_el : bool;
  has_btn_el : bool;
  has_body : bool
}.

Definition set_status_text (v : string) (s : st) : st :=
  {| status_text := v; status_class := status_class s; toasts := toasts s; link_visible := link_visible s; link_href := link_href s; btn_disabled := btn_disabled s; spinner_visible := spinner_visible s; progress_visible := progress_visible s; next_url := next_url s; live_urls := live_urls s; current_object_url := current_object_url s; current_file := current_file s; selected_files := selected_files s; mode_select := mode_select s; status_timers := status_timers s; btn_label := btn_label s; btn_original := btn_original s; has_status_el := has_status_el s; has_progress_el := has_progress_el s; has_btn_el := has_btn_el s; has_body := has_body s |}.

Definition set_status_class (v : string) (s : st) : st :=
  {| status_text := status_text s; status_class := v; toasts := toasts s; link_visible := link_visible s; link_href := link_href s; btn_disabled := btn_disabled s; spinner_visible := spinner_visible s; progress_visible := progress_visible s; next_url := next_url s; live_urls := live_urls s; current_object_url := current_object_url s; current_file := current_file s; selected_files := selected_files s; mode_select := mode_select s; status_timers := status_timers s; btn_label := btn_label s; btn_original := btn_original s; has_status_el := has_status_el s; has_progress_el := has_progress_el s; has_btn_el := has_btn_el s; has_body := has_body s |}.

Definition set_toasts (v : list (string * string)) (s : st) : st :=
  {| status_text := status_text s; status_class := status_class s; toasts := v; link_visible := link_visible s; link_href := link_href s; btn_disabled := btn_disabled s; spinner_visible := spinner_visible s; progress_visible := progress_visible s; next_url := next_url s; live_urls := live_urls s; current_object_url := current_object_url s; current_file := current_file s; selected_files := selected_files s; mode_select := mode_select s; status_timers := status_timers s; btn_label := btn_label s; btn_original := btn_original s; has_status_el := has_status_el s; has_progress_el := has_progress_el s; has_btn_el := has_btn_el s; has_body := has_body s |}.

Definition set_link_visible (v : bool) (s : st) : st :=
  {| status_text := status_text s; status_class := status_class s; toasts := toasts s; link_visible := v; link_href := link_href s; btn_disabled := btn_disabled s; spinner_visible := spinner_visible s; progress_visible := progress_visible s; next_url := next_url s; live_urls := live_urls s; current_object_url := current_object_url s; current_file := current_file s; selected_files := selected_files s; mode_select := mode_select s; status_timers := status_timers s; btn_label := btn_label s; btn_original := btn_original s; has_status_el := has_status_el s; has_progress_el := has_progress_el s; has_btn_el := has_btn_el s; has_body := has_body s |}.

Definition set_link_href (v : option nat) (s : st) : st :=
  {| status_text := status_text s; status_class := status_class s; toasts := toasts s; link_visible := link_visible s; link_href := v; btn_disabled := btn_disabled s; spinner_visible := spinner_visible s; progress_visible := progress_visible s; next_url := next_url s; live_urls := live_urls s; current_object_url := current_object_url s; current_file := current_file s; selected_files := selected_files s; mode_select := mode_select s; status_timers := status_timers s; btn_label := btn_label s; btn_original := btn_original s; has_status_el := has_status_el s; has_progress_el := has_progress_el s; has_btn_el := has_btn_el s; has_body := has_body s |}.

Definition set_btn_disabled (v : bool) (s : st) : st :=
  {| status_text := status_text s; status_class := status_class s; toasts := toasts s; link_visible := link_visible s; link_href := link_href s; btn_disabled := v; spinner_visible := spinner_visible s; progress_visible := progress_visible s; next_url := next_url s; live_urls := live_urls s; current_object_url := current_object_url s; current_file := current_file s; selected_files := selected_files s; mode_select := mode_select s; status_timers := status_timers s; btn_label := btn_label s; btn_original := btn_original s; has_status_el := has_status_el s; has_progress_el := has_progress_el s; has_btn_el := has_btn_el s; has_body := has_body s |}.

Definition set_spinner_visible (v : bool) (s : st) : st :=
  {| status_text := status_text s; status_class := status_class s; toasts := toasts s; link_visible := link_visible s; link_href := link_href s; btn_disabled := btn_disabled s; spinner_visible := v; progress_visible := progress_visible s; next_url := next_url s; live_urls := live_urls s; current_object_url := current_object_url s; current_file := current_file s; selected_files := selected_files s; mode_select := mode_select s; status_timers := status_timers s; btn_label := btn_label s; btn_original := btn_original s; has_status_el := has_status_el s; has_progress_el := has_progress_el s; has_btn_el := has_btn_el s; has_body := has_body s |}.

Definition set_progress_visible (v : bool) (s : st) : st :=
  {| status_text := status_text s; status_class := status_class s; toasts := toasts s; link_visible := link_visible s; link_href := link_href s; btn_disabled := btn_disabled s; spinner_visible := spinner_visible s; progress_visible := v; next_url := next_url s; live_urls := live_urls s; current_object_url := current_object_url s; current_file := current_file s; selected_files := selected_files s; mode_select := mode_select s; status_timers := status_timers s; btn_label := btn_label s; btn_original := btn_original s; has_status_el := has_status_el s; has_progress_el := has_progress_el s; has_btn_el := has_btn_el s; has_body := has_body s |}.

Definition set_next_url (v : nat) (s : st) : st :=
  {| status_text := status_text s; status_class := status_class s; toasts := toasts s; link_visible := link_visible s; link_href := link_href s; btn_disabled := btn_disabled s; spinner_visible := spinner_visible s; progress_visible := progress_visible s; next_url := v; live_urls := live_urls s; current_object_url := current_object_url s; current_file := current_file s; selected_files := selected_files s; mode_select := mode_select s; status_timers := status_timers s; btn_label := btn_label s; btn_original := btn_original s; has_status_el := has_status_el s; has_progress_el := has_progress_el s; has_btn_el := has_btn_el s; has_body := has_body s |}.

Definition set_live_urls (v : list nat) (s : st) : st :=
  {| status_text := status_text s; status_class := status_class s; toasts := toasts s; link_visible := link_visible s; link_href := link_href s; btn_disabled := btn_disabled s; spinner_visible := spinner_visible s; progress_visible := progress_visible s; next_url := next_url s; live_urls := v; current_object_url := current_object_url s; current_file := current_file s; selected_files := selected_files s; mode_select := mode_select s; status_timers := status_timers s; btn_label := btn_label s; btn_original := btn_original s; has_status_el := has_status_el s; has_progress_el := has_progress_el s; has_btn_el := has_btn_el s; has_body := has_body s |}.

Definition set_current_object_url (v : option nat) (s : st) : st :=
  {| status_text := status_text s; status_class := status_class s; toasts := toasts s; link_visible := link_visible s; link_href := link_href s; btn_disabled := btn_disabled s; spinner_visible := spinner_visible s; progress_visible := progress_visible s; next_url := next_url s; live_urls := live_urls s; current_object_url := v; current_file := current_file s; selected_files := selected_files s; mode_select := mode_select s; status_timers := status_timers s; btn_label := btn_label s; btn_original := btn_original s; has_status_el := has_status_el s; has_progress_el := has_progress_el s; has_btn_el := has_btn_el s; has_body := has_body s |}.

Definition set_current_file (v : option file) (s : st) : st :=
  {| status_text := status_text s; status_class := status_class s; toasts := toasts s; link_visible := link_visible s; link_href := link_href s; btn_disabled := btn_disabled s; spinner_visible := spinner_visible s; progress_visible := progress_visible s; next_url := next_url s; live_urls := live_urls s; current_object_url := current_object_url s; current_file := v; selected_files := selected_files s; mode_select := mode_select s; status_timers := status_timers s; btn_label := btn_label s; btn_original := btn_original s; has_status_el := has_status_el s; has_progress_el := has_progress_el s; has_btn_el := has_btn_el s; has_body := has_body s |}.

Definition set_selected_files (v : list file) (s : st) : st :=
  {| status_text := status_text s; status_class := status_class s; toasts := toasts s; link_visible := link_visible s; link_href := link_href s; btn_disabled := btn_disabled s; spinner_visible := spinner_visible s; progress_visible := progress_visible s; next_url := next_url s; live_urls := live_urls s; current_object_url := current_object_url s; current_file := current_file s; selected_files := v; mode_select := mode_select s; status_timers := status_timers s; btn_label := btn_label s; btn_original := btn_original s; has_status_el := has_status_el s; has_progress_el := has_progress_el s; has_btn_el := has_btn_el s; has_body := has_body s |}.

Definition set_mode_select (v : string) (s : st) : st :=
  {| status_text := status_text s; status_class := status_class s; toasts := toasts s; link_visible := link_visible s; link_href := link_href s; btn_disabled := btn_disabled s; spinner_visible := spinner_visible s; progress_visible := progress_visible s; next_url := next_url s; live_urls := live_urls s; current_object_url := current_object_url s; current_file := current_file s; selected_files := selected_files s; mode_select := v; status_timers := status_timers s; btn_label := btn_label s; btn_original := btn_original s; has_status_el := has_status_el s; has_progress_el := has_progress_el s; has_btn_el := has_btn_el s; has_body := has_body s |}.

Definition set_status_timers (v : list (string * string)) (s : st) : st :=
  {| status_text := status_text s; status_class := status_class s; toasts := toasts s; link_visible := link_visible s; link_href := link_href s; btn_disabled := btn_disabled s; spinner_visible := spinner_visible s; progress_visible := progress_visible s; next_url := next_url s; live_urls := live_urls s; current_object_url := current_object_url s; current_file := current_file s; selected_files := selected_files s; mode_select := mode_select s; status_timers := v; btn_label := btn_label s; btn_original := btn_original s; has_status_el := has_status_el s; has_progress_el := has_progress_el s; has_btn_el := has_btn_el s; has_body := has_body s |}.

Definition set_btn_label (v : string) (s : st) : st :=
  {| status_text := status_text s; status_class := status_class s; toasts := toasts s; link_visible := link_visible s; link_href := link_href s; btn_disabled := btn_disabled s; spinner_visible := spinner_visible s; progress_visible := progress_visible s; next_url := next_url s; live_urls := live_urls s; current_object_url := current_object_url s; current_file := current_file s; selected_files := selected_files s; mode_select := mode_select s; status_timers := status_timers s; btn_label := v; btn_original := btn_original s; has_status_el := has_status_el s; has_progress_el := has_progress_el s; has_btn_el := has_btn_el s; has_body := has_body s |}.

Definition set_btn_original (v : option string) (s : st) : st :=
  {| status_text := status_text s; status_class := status_class s; toasts := toasts s; link_visible := link_visible s; link_href := link_href s; btn_disabled := btn_disabled s; spinner_visible := spinner_visible s; progress_visible := progress_visible s; next_url := next_url s; live_urls := live_urls s; current_object_url := current_object_url s; current_file := current_file s; selected_files := selected_files s; mode_select := mode_select s; status_timers := status_timers s; btn_label := btn_label s; btn_original := v; has_status_el := has_status_el s; has_progress_el := has_progress_el s; has_btn_el := has_btn_el s; has_body := has_body s |}.

Definition set_has_status_el (v : bool) (s : st) : st :=
  {| status_text := status_text s; status_class := status_class s; toasts := toasts s; link_visible := link_visible s; link_href := link_href s; btn_disabled := btn_disabled s; spinner_visible := spinner_visible s; progress_visible := progress_visible s; next_url := next_url s; live_urls := live_urls s; current_object_url := current_object_url s; current_file := current_file s; selected_files := selected_files s; mode_select := mode_select s; status_timers := status_timers s; btn_label := btn_label s; btn_original := btn_original s; has_status_el := v; has_progress_el := has_progress_el s; has_btn_el := has_btn_el s; has_body := has_body s |}.

Definition set_has_progress_el (v : bool) (s : st) : st :=
  {| status_text := status_text s; status_class := status_class s; toasts := toasts s; link_visible := link_visible s; link_href := link_href s; btn_disabled := btn_disabled s; spinner_visible := spinner_visible s; progress_visible := progress_visible s; next_url := next_url s; live_urls := live_urls s; current_object_url := current_object_url s; current_file := current_file s; selected_files := selected_files s; mode_select := mode_select s; status_timers := status_timers s; btn_label := btn_label s; btn_original := btn_original s; has_status_el := has_status_el s; has_progress_el := v; has_btn_el := has_btn_el s; has_body := has_body s |}.

Definition set_has_btn_el (v : bool) (s : st) : st :=
  {| status_text := status_text s; status_class := status_class s; toasts := toasts s; link_visible := link_visible s; link_href := link_href s; btn_disabled := btn_disabled s; spinner_visible := spinner_visible s; progress_visible := progress_visible s; next_url := next_url s; live_urls := live_urls s; current_object_url := current_object_url s; current_file := current_file s; selected_files := selected_files s; mode_select := mode_select s; status_timers := status_timers s; btn_label := btn_label s; btn_original := btn_original s; has_status_el := has_status_el s; has_progress_el := has_progress_el s; has_btn_el := v; has_body := has_body s |}.

Definition set_has_body (v : bool) (s : st) : st :=
  {| status_text := status_text s; status_class := status_class s; toasts := toasts s; link_visible := link_visible s; link_href := link_href s; btn_disabled := btn_disabled s; spinner_visible := spinner_visible s; progress_visible := progress_visible s; next_url := next_url s; live_urls := live_urls s; current_object_url := current_object_url s; current_file := current_file s; selected_files := selected_files s; mode_select := mode_select s; status_timers := status_timers s; btn_label := btn_label s; btn_original := btn_original s; has_status_el := has_status_el s; has_progress_el := has_progress_el s; has_btn_el := has_btn_el s; has_body := v |}.


(** *** A state and exception monad *)

(** A thrown [Error]: its [message]. *)
Inductive result (A : Type) := Ok (a : A) | Thrown (message : string).
Arguments Ok {A} a.
Arguments Thrown {A} message.

Definition M (A : Type) := st -> st * result A.

Definition ret {A} (a : A) : M A := fun s => (s, Ok a).

Definition bind {A B} (m : M A) (k : A -> M B) : M B :=
  fun s => let '(s1, r) := m s in
           match r with Ok a => k a s1 | Thrown e => (s1, Thrown e) end.

Definition throw {A} (message : string) : M A := fun s => (s, Thrown message).

Definition modify (f : st -> st) : M unit := fun s => (f s, Ok tt).

Definition gets {A} (f : st -> A) : M A := fun s => (s, Ok (f s)).

Notation "x <- m ;; k" := (bind m (fun x => k)) (at level 61, m at next level, right associativity).
Notation "m ;; k" := (bind m (fun _ => k)) (at level 61, right associativity).

(** [try { body } catch (err) { handler(err.message) }]. *)
Definition try_catch {A} (body : M A) (handler : string -> M A) : M A :=
  fun s => let '(s1, r) := body s in
           match r with Ok a => (s1, Ok a) | Thrown e => handler e s1 end.

(** [try { body } finally { fin }]: [fin] runs on both paths; an exception
    of [fin] replaces the outcome of [body]. *)
Definition try_finally {A} (body : M A) (fin : M unit) : M A :=
  fun s => let '(s1, r) := body s in
           let '(s2, r2) := fin s1 in
           match r2 with Thrown e => (s2, Thrown e) | Ok _ => (s2, r) end.

(** [err && err.message ? err.message : fallback]. *)
Definition message_or (message fallback : string) : string :=
  if String.eqb message "" then fallback else message.

(** *** Browser object URLs *)

(** [URL.createObjectURL(blob)]: a fresh URL, alive until revoked. *)
Definition createObjectURL (b : blob) : M nat :=
  fun s => let u := next_url s in
           (set_live_urls (u :: live_urls s) (set_next_url (S u) s), Ok u).

(** [URL.revokeObjectURL(url)]. *)
Definition revokeObjectURL (u : nat) : M unit :=
  modify (fun s => set_live_urls (List.remove Nat.eq_dec u (live_urls s)) s).

(** *** Shared UI helpers of [app-common-ui.js] *)

(** [app-common-ui.js] is kept in [assets/js/app-nav.js], lines 228-452.
    The WebP converter and the [DOMContentLoaded] HEIC and image/PDF
    converters call these helpers on their status element, progress
    wrapper and convert button. *)

(** The class [setStatus] adds for a variant. *)
Definition status_class_of (variant : string) : string :=
  if String.eqb variant "success" then "text-success"
  else if String.eqb variant "error" then "text-danger"
  else if String.eqb variant "warning" then "text-warning"
  else "text-secondary".

(** [setStatus(el, message, variant)] (lines 243-263): nothing without the
    element; otherwise the text becomes [message || ""] ([message] itself
    for a string) and the status class the one of [variant]. *)
Definition setStatus (message variant : string) : M unit :=
  modify (fun s => if has_status_el s
                   then set_status_class (status_class_of variant) (set_status_text message s)
                   else s).

(** The variant [setTemporaryStatus] reads back from the classes. *)
Definition variant_of_class (c : string) : string :=
  if String.eqb c "text-success" then "success"
  else if String.eqb c "text-danger" then "error"
  else if String.eqb c "text-warning" then "warning"
  else "muted".

(** [setTemporaryStatus(el, message, variant, durationMs)] (lines
    273-292): with a positive duration, the text and variant shown before
    are put back by a timer, recorded in [status_timers] until it fires. *)
Definition setTemporaryStatus (message variant : string) (durationMs : Z) : M unit :=
  has <- gets has_status_el ;;
  if negb has then ret tt
  else if (durationMs <=? 0)%Z then setStatus message variant
  else
    prevText <- gets status_text ;;
    prevVariant <- gets (fun s => variant_of_class (status_class s)) ;;
    setStatus message variant ;;
    modify (fun s => set_status_timers (status_timers s ++ [(prevText, prevVariant)])%list s).

(** The [i]-th pending timer of [setTemporaryStatus] fires:
    [setStatus(el, prevText, prevVariant)]. *)
Definition fire_status_timer (i : nat) : M unit :=
  timers <- gets status_timers ;;
  match nth_error timers i with
  | None => ret tt
  | Some (prevText, prevVariant) =>
      modify (set_status_timers (firstn i timers ++ skipn (S i) timers)%list) ;;
      setStatus prevText prevVariant
  end.

(** [toggleProgress(wrapper, show)] (lines 299-306). *)
Definition toggleProgress (show : bool) : M unit :=
  modify (fun s => if has_progress_el s then set_progress_visible show s else s).

(** [setButtonLoading(btn, isLoading, loadingText)] (lines 316-333): the
    button is disabled and labelled [loadingText], its first label kept in
    [dataset.originalText]; it is enabled again, and the kept label put
    back, when not loading.  It has no spinner. *)
Definition setButtonLoading (isLoading : bool) (loadingText : string) : M unit :=
  modify (fun s =>
    if negb (has_btn_el s) then s
    else if isLoading then
      let s := match btn_original s with
               | None | Some EmptyString => set_btn_original (Some (btn_label s)) s
               | Some _ => s
               end in
      set_btn_label loadingText (set_btn_disabled true s)
    else
      let s := set_btn_disabled false s in
      match btn_original s with
      | Some t => set_btn_label t s
      | None => s
      end).

(** [showToast(message, type)] (lines 374-441): nothing for an empty
    message or without [document.body]; otherwise a toast is added to the
    container.  [toasts] lists the toasts shown, in order; their removal
    after [durationMs] or on the close button is not recorded. *)
Definition showToast (message type : string) : M unit :=
  modify (fun s => if String.eqb message "" || negb (has_body s) then s
                   else set_toasts (toasts s ++ [(message, type)])%list s).

(** *** Helpers local to the module-level converters and to converter-svg.js *)

(** [setStatus(message)] of converter-svg.js and of the module-level
    image/PDF and HEIC converters: only the text changes. *)
Definition setStatusText (msg : string) : M unit := modify (set_status_text msg).

(** [toggleLoading(isLoading)] (module-level image/PDF and HEIC) and
    [setWorking(isWorking)] (SVG) on the convert button, its spinner and
    the progress bar. *)
Definition toggleLoading (loading : bool) : M unit :=
  modify (fun s => set_progress_visible loading
                     (set_btn_disabled loading (set_spinner_visible loading s))).

Definition setWorking (working : bool) : M unit := toggleLoading working.

(** [downloadLink.classList.add("d-none")] (and [removeAttribute("href")]
    where the code does it). *)
Definition hideLink : M unit := modify (set_link_visible false).

Definition hideDownload : M unit := modify (fun s => set_link_href None (set_link_visible false s)).

(** [downloadLink.href = url; downloadLink.classList.remove("d-none")]. *)
Definition showLink (u : nat) : M unit :=
  modify (fun s => set_link_visible true (set_link_href (Some u) s)).

End Page.

(** ** The converters' handlers

    Each handler below is one event handler of the sources, written in the
    monad of [Page].  The codec adapters (canvas export, heic2any, jsPDF,
    pdf.js) are parameters of the handlers: any computation of [M], which
    may succeed, fail with an exception, or change the page on its way.
    Purely cosmetic DOM writes (file name, size, labels, progress-bar width,
    [console.error]) are left out. *)
Module Handlers.
Import JS Page.
Local Open Scope Q_scope.

Definition dq : string := String (Ascii.ascii_of_nat 34) EmptyString.

Definition when (b : bool) (m : M unit) : M unit := if b then m else ret tt.

(** [MAX_SIZE = 20 * 1024 * 1024]. *)
Definition MAX_SIZE : Z := 20 * 1024 * 1024.

(** *** converter-svg.js *)

Definition svg_showDownload (b : blob) : M unit :=
  url <- createObjectURL b ;; showLink url.

(** [svgToImage]: the temporary URL is revoked after a successful load;
    a failed load rejects before the revoke. *)
Definition svg_svgToImage (loads : bool) : M unit :=
  url <- createObjectURL 0%nat ;;
  if loads then revokeObjectURL url
  else throw "Failed to load SVG as image (maybe unsupported external assets).".

(** [renderAndExport]: [currentSvgText] is the text read by [handleFile],
    [loads] whether the browser loads the sanitized SVG as an image, and
    [exported] the result of [canvas.toBlob]. *)
Definition svg_renderAndExport (currentSvgText : string) (loads : bool)
    (exported : option blob) : M unit :=
  cf <- gets current_file ;;
  match cf with
  | None => setStatusText "Please select an SVG file first."
  | Some _ =>
    if String.eqb currentSvgText "" then setStatusText "Please select an SVG file first." else
    hideDownload ;;
    setWorking true ;;
    try_finally
      (try_catch
         (setStatusText "Preparing SVG…" ;;
          setStatusText "Rendering…" ;;
          svg_svgToImage loads ;;
          setStatusText "Exporting…" ;;
          match exported with
          | None => throw "Export failed: Canvas could not produce output."
          | Some b =>
            svg_showDownload b ;;
            setStatusText "Done. Your file is ready to download."
          end)
         (fun message => setStatusText ("Error: " ++ message_or message "Unknown error")))
      (setWorking false)
  end.

(** *** converter-webp.js *)

Definition webp_allowedTypes := ["image/webp"; "image/png"; "image/jpeg"; "image/gif"].

Definition webp_handleFileSelect (f : file) : M unit :=
  if negb (existsb (String.eqb (ftype f)) webp_allowedTypes) then
    showToast "Please select a WebP, PNG, JPG or GIF image." "warning" ;;
    setStatus "Unsupported file type." "error"
  else if (MAX_SIZE <? fsize f)%Z then
    showToast "Selected file is too large (max 20 MB)." "warning" ;;
    setStatus "File size exceeds 20 MB limit." "error"
  else
    modify (set_current_file (Some f)) ;;
    hideDownload ;;
    setStatus "File selected. Ready to convert." "muted" ;;
    when (String.eqb (ftype f) "image/webp" || String.eqb (ftype f) "image/gif")
      (setTemporaryStatus "Note: animated images will be converted to a single static frame." "warning" 4000).

(** [rawQuality] is [parseInt(qualityRange.value, 10)], [None] for NaN;
    [compressChecked] is [compressSwitch.checked]. *)
Definition webp_quality (rawQuality : option Z) (compressChecked : bool) : Q :=
  let quality := match rawQuality with None => 85 # 100 | Some r => inject_Z r / 100 end in
  if negb compressChecked then Qmax quality (9 # 10) else quality.

(** The submit handler; [convertImage quality] is the codec call. *)
Definition webp_submit (canEncodeWebP : bool) (toFormat : string)
    (rawQuality : option Z) (compressChecked : bool)
    (convertImage : Q -> M (option blob)) : M unit :=
  cf <- gets current_file ;;
  match cf with
  | None => showToast "Please select a file first." "warning"
  | Some _ =>
    if String.eqb toFormat "webp" && negb canEncodeWebP then
      let msg := "This browser does not support WebP encoding via Canvas. " ++
                 "Try using JPG or PNG as the target format." in
      showToast msg "error" ;; setStatus msg "error"
    else
    let quality := webp_quality rawQuality compressChecked in
    setButtonLoading true "Converting..." ;;
    toggleProgress true ;;
    setStatus "Converting image..." "muted" ;;
    try_finally
      (try_catch
         (r <- convertImage quality ;;
          match r with
          | None => throw "Conversion failed."
          | Some b =>
            cur <- gets current_object_url ;;
            (match cur with Some u => revokeObjectURL u | None => ret tt end) ;;
            url <- createObjectURL b ;;
            modify (set_current_object_url (Some url)) ;;
            showLink url ;;
            setStatus "Conversion successful!" "success" ;;
            showToast "Image converted successfully." "success"
          end)
         (fun message =>
            setStatus (message_or message "Error during conversion.") "error" ;;
            showToast "Conversion failed." "error"))
      (toggleProgress false ;; setButtonLoading false "Working...")
  end.

(** *** converter-heic.js, the [DOMContentLoaded] converter *)

Definition heic1_allowedTypes := ["image/heic"; "image/heif"; "image/jpeg"; "image/png"].

Definition heic1_handleFileSelect (hasHeic2Any : bool) (f : file) : M unit :=
  if negb (existsb (String.eqb (ftype f)) heic1_allowedTypes) then
    showToast "Please select a HEIC, HEIF, JPG or PNG file." "warning" ;;
    setStatus "Unsupported file type." "error"
  else if (MAX_SIZE <? fsize f)%Z then
    showToast "Selected file is too large (max 20 MB)." "warning" ;;
    setStatus "File size exceeds 20 MB limit." "error"
  else
    modify (set_current_file (Some f)) ;;
    setStatus "File selected. Ready to convert." "muted" ;;
    when (negb hasHeic2Any && (String.eqb (ftype f) "image/heic" || String.eqb (ftype f) "image/heif"))
      (setTemporaryStatus
         "HEIC library (heic2any) is not loaded. HEIC conversion will not work until you include it."
         "warning" 5000).

Definition heic1_quality (rawQuality : option Z) (compressChecked : bool) : Q :=
  let quality := match rawQuality with None => 9 # 10 | Some r => inject_Z r / 100 end in
  if negb compressChecked then Qmax quality (95 # 100) else quality.

Definition heic1_submit (fromValue toValue : string) (rawQuality : option Z)
    (compressChecked : bool) (convertHeicOrImage : Q -> M (option blob)) : M unit :=
  cf <- gets current_file ;;
  match cf with
  | None => showToast "Please select a file first." "warning"
  | Some _ =>
    if (String.eqb fromValue "jpg" || String.eqb fromValue "png") && String.eqb toValue "heic" then
      let msg := "JPG/PNG → HEIC is not supported in this frontend demo. " ++
                 "You can implement it later on a backend service." in
      showToast msg "warning" ;; setStatus msg "warning"
    else
    let quality := heic1_quality rawQuality compressChecked in
    setButtonLoading true "Converting..." ;;
    toggleProgress true ;;
    setStatus "Converting file..." "muted" ;;
    try_finally
      (try_catch
         (r <- convertHeicOrImage quality ;;
          match r with
          | None => throw "Conversion failed."
          | Some b =>
            cur <- gets current_object_url ;;
            (match cur with Some u => revokeObjectURL u | None => ret tt end) ;;
            url <- createObjectURL b ;;
            modify (set_current_object_url (Some url)) ;;
            showLink url ;;
            setStatus "Conversion successful!" "success" ;;
            showToast "File converted successfully." "success"
          end)
         (fun message =>
            setStatus (message_or message "Error during conversion.") "error" ;;
            showToast "Conversion failed." "error"))
      (toggleProgress false ;; setButtonLoading false "Working...")
  end.

(** *** converter-heic.js, the module-level converter *)

(** [handleFile(file)]: [selectedFile = file || null], kept in
    [current_file]. *)
Definition heic2_handleFile (f : option file) : M unit :=
  modify (set_current_file f) ;;
  match f with
  | None => setStatusText "No file selected yet." ;; hideLink
  | Some _ => setStatusText "Ready to convert." ;; hideLink
  end.

(** [parseInt(qualityRange.value, 10) / 100], overridden by [1] when the
    compress switch is off; [NonFinite] stands for NaN. *)
Definition heic2_quality (rawQuality : option Z) (compressChecked : bool) : number :=
  if negb compressChecked then Finite 1
  else match rawQuality with None => NonFinite | Some r => Finite (inject_Z r / 100) end.

(** [convertHeicWithLib]: [options.quality] is set only for a JPEG
    target. *)
Definition heic2any_quality (targetMime : string) (quality : number) : option number :=
  if String.eqb targetMime "image/jpeg" then Some quality else None.

(** [runConversion]; [isHeic] is [isHeicFile(selectedFile)], [heic2any]
    receives the options' quality (if any), [viaCanvas] the quality. *)
Definition heic2_runConversion (toFormatValue : string) (rawQuality : option Z)
    (compressChecked isHeic : bool)
    (heic2any : string -> option number -> M (option blob))
    (viaCanvas : string -> number -> M (option blob)) : M unit :=
  sel <- gets current_file ;;
  match sel with
  | None => throw "Please select a file first."
  | Some _ =>
    let targetFormat := if String.eqb toFormatValue "png" then "png" else "jpg" in
    let targetMime := if String.eqb targetFormat "png" then "image/png" else "image/jpeg" in
    let quality := heic2_quality rawQuality compressChecked in
    setStatusText "Converting..." ;;
    outputBlob <- (if isHeic then heic2any targetMime (heic2any_quality targetMime quality)
                   else viaCanvas targetMime quality) ;;
    match outputBlob with
    | None => throw "Conversion did not produce a result."
    | Some b =>
      url <- createObjectURL b ;;
      showLink url ;;
      setStatusText "Done. Click “Download result” to save."
    end
  end.

Definition heic2_submit (toFormatValue : string) (rawQuality : option Z)
    (compressChecked isHeic : bool)
    (heic2any : string -> option number -> M (option blob))
    (viaCanvas : string -> number -> M (option blob)) : M unit :=
  sel <- gets current_file ;;
  match sel with
  | None => setStatusText "Please select a file first."
  | Some _ =>
    toggleLoading true ;;
    setStatusText "Preparing conversion..." ;;
    try_finally
      (try_catch
         (heic2_runConversion toFormatValue rawQuality compressChecked isHeic heic2any viaCanvas)
         (fun message =>
            setStatusText ("Error: " ++ message_or message "conversion failed.") ;;
            hideLink))
      (toggleLoading false)
  end.

(** *** converter-image-pdf.js, the module-level converter *)

(** [handleFiles(files)]: keeps the non-empty files. *)
Definition imagepdf1_handleFiles (files : list file) : M unit :=
  let selected := filter (fun f => (0 <? fsize f)%Z) files in
  modify (set_selected_files selected) ;;
  match selected with
  | [] => setStatusText "No files selected yet." ;; hideLink
  | _ => setStatusText "Ready to convert." ;; hideLink
  end.

Definition lower_ascii (c : ascii) : ascii :=
  let n := nat_of_ascii c in
  if (65 <=? n)%nat && (n <=? 90)%nat then ascii_of_nat (n + 32) else c.

Fixpoint toLowerCase (s : string) : string :=
  match s with
  | EmptyString => EmptyString
  | String c r => String (lower_ascii c) (toLowerCase r)
  end.

Definition endsWith (s suffix : string) : bool :=
  let n := String.length s in
  let k := String.length suffix in
  (k <=? n)%nat && String.eqb (substring (n - k) k s) suffix.

Definition detectMode (files : list file) : string :=
  if existsb (fun f => String.eqb (ftype f) "application/pdf" ||
                       endsWith (toLowerCase (fname f)) ".pdf") files
  then "pdf-to-image" else "image-to-pdf".

(** The submit handler; [modeValue] is [conversionModeSelect.value]. *)
Definition imagepdf1_submit (modeValue : string)
    (convertImagesToPdf convertPdfToImages : list file -> M unit) : M unit :=
  files <- gets selected_files ;;
  match files with
  | [] => setStatusText "Please select at least one file first."
  | _ =>
    let mode := if String.eqb modeValue "auto" then detectMode files else modeValue in
    toggleLoading true ;;
    setStatusText "Preparing conversion..." ;;
    try_finally
      (try_catch
         (if String.eqb mode "image-to-pdf" then convertImagesToPdf files
          else if String.eqb mode "pdf-to-image" then convertPdfToImages files
          else throw "Unsupported mode.")
         (fun message =>
            setStatusText ("Error: " ++ message_or message "conversion failed.") ;;
            hideLink))
      (toggleLoading false)
  end.

(** *** converter-image-pdf.js, the [DOMContentLoaded] converter *)

Definition isPdfToImagesMode (v : string) : bool := String.eqb v "PDF-to-JPG/PNG".

(** The [for (const f of files)] loop of [handleFileSelection], returning
    [(images, pdfs)]. *)
Fixpoint imagepdf2_scan (files images pdfs : list file) : M (list file * list file) :=
  match files with
  | [] => ret (images, pdfs)
  | f :: rest =>
    if (MAX_SIZE <? fsize f)%Z then
      showToast ("File " ++ dq ++ fname f ++ dq ++ " is larger than 20 MB and will be ignored.") "warning" ;;
      imagepdf2_scan rest images pdfs
    else if String.eqb (ftype f) "application/pdf" then
      imagepdf2_scan rest images (pdfs ++ [f])%list
    else if negb (String.eqb (ftype f) "") && String.prefix "image/" (ftype f) then
      imagepdf2_scan rest (images ++ [f])%list pdfs
    else
      showToast ("Unsupported file type: " ++ fname f) "warning" ;;
      imagepdf2_scan rest images pdfs
  end.

(** The end of [handleFileSelection] once [selectedFiles] is set. *)
Definition imagepdf2_selected : M unit :=
  hideLink ;; setStatus "Files selected. Ready to convert." "muted".

Definition imagepdf2_handleFileSelection (files : list file) : M unit :=
  scanned <- imagepdf2_scan files [] [] ;;
  let '(images, pdfs) := scanned in
  match images, pdfs with
  | [], [] => setStatus "No supported files selected." "error"
  | _, _ =>
    mode <- gets mode_select ;;
    if String.eqb mode "Detect_automatically" then
      match images, pdfs with
      | [], p :: _ =>
        modify (set_mode_select "PDF-to-JPG/PNG") ;;
        modify (set_selected_files [p]) ;;
        imagepdf2_selected
      | firstImg :: _, [] =>
        modify (set_mode_select (if String.eqb (ftype firstImg) "image/png"
                                 then "PNG-to-PDF" else "JPG/JPEG_to-PDF")) ;;
        modify (set_selected_files images) ;;
        imagepdf2_selected
      | _, _ =>
        showToast "Mixed PDF and images are not supported in auto mode. Please select only images or only a PDF." "warning" ;;
        setStatus "Mixed content detected. Use only images or only a PDF." "error"
      end
    else if isPdfToImagesMode mode then
      match pdfs with
      | [] =>
        showToast "PDF → images mode requires a PDF file. Please select a PDF or change mode." "warning" ;;
        setStatus "Please select a PDF file." "error"
      | p :: more =>
        when (negb (Nat.eqb (List.length more) 0))
          (showToast "Multiple PDFs selected. Only the first one will be used." "info") ;;
        modify (set_selected_files [p]) ;;
        imagepdf2_selected
      end
    else
      match images with
      | [] =>
        showToast "Images → PDF mode requires at least one image. Please select images or change mode." "warning" ;;
        setStatus "Please select at least one image (JPG, PNG, WebP, GIF, BMP)." "error"
      | _ =>
        modify (set_selected_files images) ;;
        imagepdf2_selected
      end
  end.

(** [applyDownloadBlob(blob, fallbackName)] (the download link exists on
    the converter page). *)
Definition applyDownloadBlob (b : blob) : M unit :=
  cur <- gets current_object_url ;;
  (match cur with Some u => revokeObjectURL u | None => ret tt end) ;;
  url <- createObjectURL b ;;
  modify (set_current_object_url (Some url)) ;;
  showLink url.

(** The submit handler; the codec adapters are [convertImagesToPdf(files,
    quality)] and [convertPdfToImage(pdfFile, targetFormat, quality)]. *)
Definition imagepdf2_submit (targetFormat : string) (qualityVal : option Z)
    (convertImagesToPdf : list file -> Q -> M blob)
    (convertPdfToImage : file -> string -> Q -> M blob) : M unit :=
  files <- gets selected_files ;;
  match files with
  | [] => showToast "Please select some files first." "warning"
  | first :: _ =>
    modeVal <- gets mode_select ;;
    let pdfToImages := isPdfToImagesMode modeVal in
    let quality := match qualityVal with None => 9 # 10 | Some v => inject_Z v / 100 end in
    setButtonLoading true "Converting..." ;;
    toggleProgress true ;;
    try_finally
      (try_catch
         (if negb pdfToImages then
            (if negb (String.eqb targetFormat "pdf") then
               let msg := "Images → PDF mode can only produce a PDF file. Target format adjusted to PDF." in
               showToast msg "info" ;; setStatus msg "warning"
             else setStatus "Converting images to a multi-page PDF..." "muted") ;;
            pdfBlob <- convertImagesToPdf files quality ;;
            applyDownloadBlob pdfBlob ;;
            setStatus "PDF generated successfully!" "success" ;;
            showToast "PDF generated successfully." "success"
          else if String.eqb targetFormat "pdf" then
            (* [return] inside [try]: the [finally] block still runs *)
            let msg := "PDF → images mode requires JPG or PNG as target format." in
            showToast msg "warning" ;; setStatus msg "warning"
          else
            setStatus "Converting first PDF page to image..." "muted" ;;
            imgBlob <- convertPdfToImage first targetFormat quality ;;
            applyDownloadBlob imgBlob ;;
            showToast "PDF page exported as image." "success" ;;
            setStatus "Image generated successfully!" "success")
         (fun message =>
            setStatus (message_or message "Conversion failed.") "error" ;;
            showToast "Conversion failed." "error"))
      (toggleProgress false ;; setButtonLoading false "Working...")
  end.

End Handlers.

(** ** Predicates and sample pages for the handler properties *)
Module PageSpec.
Import JS Page Handlers.

(** No control is left busy: the convert button is enabled, its spinner
    and the progress bar hidden. *)
Definition idle (s : st) : Prop :=
  btn_disabled s = false /\ spinner_visible s = false /\ progress_visible s = false.

(** The controls driven by [setButtonLoading] and [toggleProgress] are
    released: the convert button, when there is one, is enabled, and the
    progress wrapper, when there is one, hidden. *)
Definition ui_released (s : st) : Prop :=
  (has_btn_el s = true -> btn_disabled s = false) /\
  (has_progress_el s = true -> progress_visible s = false).

(** The files refused by the validation of [handleFileSelect] (WebP and
    HEIC) and by the loop of [handleFileSelection] (image/PDF). *)
Definition webp_rejected (f : file) : bool :=
  negb (existsb (String.eqb (ftype f)) webp_allowedTypes) || (MAX_SIZE <? fsize f)%Z.

Definition heic1_rejected (f : file) : bool :=
  negb (existsb (String.eqb (ftype f)) heic1_allowedTypes) || (MAX_SIZE <? fsize f)%Z.

Definition imagepdf2_rejected (f : file) : bool :=
  (MAX_SIZE <? fsize f)%Z ||
  negb (String.eqb (ftype f) "application/pdf") &&
  negb (negb (String.eqb (ftype f) "") && String.prefix "image/" (ftype f)).

(** A freshly loaded converter page. *)
Definition st0 : st :=
  {| status_text := "No file selected yet."; status_class := "text-secondary"; toasts := [];
     link_visible := false; link_href := None;
     btn_disabled := false; spinner_visible := false; progress_visible := false;
     next_url := 1; live_urls := []; current_object_url := None;
     current_file := None; selected_files := []; mode_select := "Detect_automatically";
     status_timers := []; btn_label := "Convert"; btn_original := None;
     has_status_el := true; has_progress_el := true; has_btn_el := true; has_body := true |}.

Definition drawing_svg : file := {| fname := "drawing.svg"; ftype := "image/svg+xml"; fsize := 2048 |}.
Definition photo_png : file := {| fname := "photo.png"; ftype := "image/png"; fsize := 500000 |}.
Definition notes_txt : file := {| fname := "notes.txt"; ftype := "text/plain"; fsize := 1200 |}.
(** 25 MB. *)
Definition big_heic : file := {| fname := "big.heic"; ftype := "image/heic"; fsize := 26214400 |}.
Definition big_png : file := {| fname := "big.png"; ftype := "image/png"; fsize := 26214400 |}.

(** The page with one file selected. *)
Definition with_file (f : file) : st := set_current_file (Some f) st0.
Definition with_files (fs : list file) : st := set_selected_files fs st0.

End PageSpec.

(** ** File-name, markup and number helpers *)
Module Names.

(** *** The regular expression [/\.[^/.]+$/] of [stripExtension] and
    [generateDownloadName] *)

Definition is_dot_or_slash (c : ascii) : bool := (c =? ".")%char || (c =? "/")%char.

(** [[^/.]*$]: no dot and no slash up to the end. *)
Fixpoint ext_chars (s : string) : bool :=
  match s with
  | EmptyString => true
  | String c r => negb (is_dot_or_slash c) && ext_chars r
  end.

(** The pattern matches at the start of [s]. *)
Definition ext_at (s : string) : bool :=
  match s with
  | String c r => (c =? ".")%char && negb (String.eqb r "") && ext_chars r
  | EmptyString => false
  end.

(** [s.replace(/\.[^/.]+$/, "")]: the leftmost match, which runs to the
    end of the string, is removed. *)
Fixpoint replace_ext (s : string) : string :=
  match s with
  | EmptyString => EmptyString
  | String c r => if ext_at s then EmptyString else String c (replace_ext r)
  end.

(** [stripExtension(name)] of the [DOMContentLoaded] image/PDF converter. *)
Definition stripExtension (name : string) : string :=
  if String.eqb name "" then "" else replace_ext name.

(** [generateDownloadName(original, newExt)] of the WebP and HEIC
    converters. *)
Definition generateDownloadName (original newExt : string) : string :=
  replace_ext original ++ "-converted." ++ newExt.

(** [filename.lastIndexOf(".")], [None] for [-1]. *)
Fixpoint lastIndexOf_dot (s : string) : option nat :=
  match s with
  | EmptyString => None
  | String c r =>
    match lastIndexOf_dot r with
    | Some i => Some (S i)
    | None => if (c =? ".")%char then Some 0%nat else None
    end
  end.

(** [getBaseName(filename)] of the module-level HEIC and image/PDF
    converters. *)
Definition getBaseName (filename : string) : string :=
  match lastIndexOf_dot filename with
  | None => filename
  | Some dotIdx => substring 0 dotIdx filename
  end.

(** *** [escapeHtml] *)

(** [s.replace(/c/g, rep)] for a one-character pattern. *)
Fixpoint replace_char (c : ascii) (rep : string) (s : string) : string :=
  match s with
  | EmptyString => EmptyString
  | String c' r => if (c' =? c)%char then rep ++ replace_char c rep r
                   else String c' (replace_char c rep r)
  end.

Definition escapeHtml (str : string) : string :=
  replace_char ">" "&gt;" (replace_char "<" "&lt;" (replace_char "&" "&amp;" str)).

(** Carriage return, line feed and NUL. *)
Definition CR : ascii := "013"%char.
Definition LF : ascii := "010"%char.
Definition NUL : ascii := "000"%char.

(** The preprocessing of the HTML input stream: every CR LF pair and
    every CR left alone become one LF ([after_cr] says whether the
    previous character was a CR). *)
Fixpoint html_preprocess_from (after_cr : bool) (s : string) : string :=
  match s with
  | EmptyString => EmptyString
  | String c r =>
    if (c =? CR)%char then String LF (html_preprocess_from true r)
    else if (c =? LF)%char && after_cr then html_preprocess_from false r
    else String c (html_preprocess_from false r)
  end.

Definition html_preprocess (s : string) : string := html_preprocess_from false s.

(** How the HTML parser turns the preprocessed text of an element of
    [<body>] into the text of the DOM: the data state of the tokenizer
    decodes the character references [&amp;], [&lt;] and [&gt;], and the
    tree builder ignores a NUL character token.  Other references are
    left as written here; the text [escapeHtml] produces has none. *)
Fixpoint html_text (s : string) : string :=
  match s with
  | EmptyString => EmptyString
  | String c r =>
    if (c =? "&")%char then
      match r with
      | String c1 (String c2 (String c3 r3)) =>
        if (c1 =? "l")%char && (c2 =? "t")%char && (c3 =? ";")%char then String "<" (html_text r3)
        else if (c1 =? "g")%char && (c2 =? "t")%char && (c3 =? ";")%char then String ">" (html_text r3)
        else match r3 with
             | String c4 r4 =>
               if (c1 =? "a")%char && (c2 =? "m")%char && (c3 =? "p")%char && (c4 =? ";")%char
               then String "&" (html_text r4)
               else String c (html_text r)
             | EmptyString => String c (html_text r)
             end
      | _ => String c (html_text r)
      end
    else if (c =? NUL)%char then html_text r
    else String c (html_text r)
  end.

(** The text of the DOM for the markup [s] of [innerHTML]: the reading
    of the [innerHTML] that [renderFileSummary] builds with [escapeHtml]. *)
Definition html_parse_text (s : string) : string := html_text (html_preprocess s).

(** [s] without its NUL characters. *)
Fixpoint drop_nul (s : string) : string :=
  match s with
  | EmptyString => EmptyString
  | String c r => if (c =? NUL)%char then drop_nul r else String c (drop_nul r)
  end.

(** [s] has no CR and no NUL. *)
Definition html_plain (s : string) : bool :=
  forallb (fun c => negb (c =? CR)%char && negb (c =? NUL)%char) (list_ascii_of_string s).

(** *** [Number.prototype.toString] and [toFixed] on the byte counts *)

(** The decimal digits of [n >= 0], most significant first. *)
Fixpoint dec_digits (fuel : nat) (n : Z) (acc : string) : string :=
  match fuel with
  | O => acc
  | S f =>
    let acc' := String (ascii_of_nat (48 + Z.to_nat (n mod 10))) acc in
    if (n <? 10)%Z then acc' else dec_digits f (n / 10)%Z acc'
  end.

Definition Z_to_dec (n : Z) : string := dec_digits (S (Z.to_nat (Z.log2 n))) n "".

Fixpoint zeros (k : nat) : string :=
  match k with O => "" | S k' => String "0" (zeros k') end.

(** [x.toFixed(f)] for [|x| < 10^21]: [n] is the integer nearest to
    [x * 10^f], the larger one on a tie. *)
Definition toFixed_nonneg (x : Q) (f : nat) : string :=
  let n := Qfloor (x * inject_Z (10 ^ Z.of_nat f) + (1 # 2)) in
  let m := Z_to_dec n in
  if Nat.eqb f 0 then m else
  let m := if (String.length m <=? f)%nat then zeros (f + 1 - String.length m) ++ m else m in
  let k := String.length m in
  substring 0 (k - f) m ++ "." ++ substring (k - f) f m.

Definition toFixed (x : Q) (f : nat) : string :=
  if JS.Qlt_bool x 0 then "-" ++ toFixed_nonneg (- x) f else toFixed_nonneg x f.

End Names.

(** ** Mode and format switches *)
Module Switches.
Import JS Page Handlers.

(** *** converter-image-pdf.js, the module-level converter *)

(** The [swapModeBtn] handler on [(conversionModeSelect.value,
    toFormatSelect.value)]. *)
Definition imagepdf1_swap (mode target : string) : string * string :=
  if String.eqb mode "image-to-pdf" && String.eqb target "pdf" then ("pdf-to-image", "jpg")
  else if String.eqb mode "pdf-to-image" then ("image-to-pdf", "pdf")
  else ("image-to-pdf", "pdf").

(** *** converter-image-pdf.js, the [DOMContentLoaded] converter *)

(** The target-format [<select>]: its value and which of its options
    [pdf], [jpg], [png] are disabled. *)
Record format_select := {
  to_value : string;
  pdf_disabled : bool;
  jpg_disabled : bool;
  png_disabled : bool
}.

(** [updateModeUI()]; the mode is [modeSelect.value] ([mode_select]). *)
Definition imagepdf2_updateModeUI (fs : format_select) : M format_select :=
  mode <- gets mode_select ;;
  if isPdfToImagesMode mode then
    setStatus "Mode: PDF → images (JPG/PNG)." "muted" ;;
    ret {| to_value := if String.eqb (to_value fs) "pdf" then "jpg" else to_value fs;
           pdf_disabled := true; jpg_disabled := false; png_disabled := false |}
  else
    setStatus "Mode: images → PDF document." "muted" ;;
    ret {| to_value := "pdf"; pdf_disabled := false; jpg_disabled := true; png_disabled := true |}.

(** The [swapBtn] handler. *)
Definition imagepdf2_swap (fs : format_select) : M format_select :=
  mode <- gets mode_select ;;
  modify (set_mode_select (if isPdfToImagesMode mode then "JPG/JPEG_to-PDF" else "PDF-to-JPG/PNG")) ;;
  fs' <- imagepdf2_updateModeUI fs ;;
  setTemporaryStatus "Modes swapped." "muted" 1500 ;;
  ret fs'.

(** *** converter-webp.js *)

Definition webp_mimeToFormat (mime : string) : option string :=
  if String.eqb mime "" then None
  else if String.eqb mime "image/webp" then Some "webp"
  else if String.eqb mime "image/jpeg" then Some "jpg"
  else if String.eqb mime "image/png" then Some "png"
  else if String.eqb mime "image/gif" then Some "gif"
  else None.

(** The [swapBtn] handler on [(fromSelect.value, toSelect.value)];
    returns the new pair. *)
Definition webp_swap (prevFrom prevTo : string) : M (string * string) :=
  cf <- gets current_file ;;
  let newFrom := prevTo in
  let fallback := if String.eqb newFrom "webp" then "jpg"
                  else if String.eqb newFrom "jpg" then "webp" else "webp" in
  let detected := match cf with
                  | Some f => if String.eqb (ftype f) "" then None else webp_mimeToFormat (ftype f)
                  | None => None
                  end in
  let newTo :=
    if String.eqb prevFrom "auto" then
      match detected with
      | Some d => if String.eqb d "webp" || String.eqb d "jpg" || String.eqb d "png"
                  then d else fallback
      | None => fallback
      end
    else prevFrom in
  setTemporaryStatus "Formats swapped." "muted" 1500 ;;
  ret (newFrom, newTo).

(** *** converter-heic.js, the [DOMContentLoaded] converter *)

Definition heic1_mimeToFormat (mime : string) : option string :=
  if String.eqb mime "" then None
  else if String.eqb mime "image/heic" || String.eqb mime "image/heif" then Some "heic"
  else if String.eqb mime "image/jpeg" then Some "jpg"
  else if String.eqb mime "image/png" then Some "png"
  else None.

(** What [convertHeicOrImage(file, fromFormat, toFormat, quality)] does
    before any decoding: it rejects, or calls [heic2any] with [toType],
    or [convertViaCanvas], whose [canvas.toBlob] gets [mimeType]. *)
Inductive heic1_call :=
  | Heic2anyCall (toType : string)
  | CanvasCall (mimeType : string)
  | Rejected (message : string).

(** [convertViaCanvas]'s [mimeType]. *)
Definition convertViaCanvas_mime (toFormat : string) : string :=
  if String.eqb toFormat "png" then "image/png" else "image/jpeg".

(** [hasHeic2Any] is the flag computed at start-up, [windowHeic2any]
    whether [window.heic2any] is set now. *)
Definition heic1_convertHeicOrImage (hasHeic2Any windowHeic2any : bool) (f : file)
    (fromFormat toFormat : string) : heic1_call :=
  let detected := heic1_mimeToFormat (ftype f) in
  let effectiveFrom := if String.eqb fromFormat "auto" then detected else Some fromFormat in
  match effectiveFrom with
  | None => Rejected "Unsupported or unknown source format."
  | Some e =>
    if String.eqb e "" then Rejected "Unsupported or unknown source format."
    else if String.eqb e "heic" then
      if negb hasHeic2Any || negb windowHeic2any then
        Rejected "HEIC library (heic2any) is not available. Include it or handle HEIC on the backend."
      else Heic2anyCall (if String.eqb toFormat "png" then "image/png" else "image/jpeg")
    else CanvasCall (convertViaCanvas_mime toFormat)
  end.

(** The extension of the download name in the submit handler. *)
Definition heic1_ext (toValue : string) : string :=
  if String.eqb toValue "png" then "png" else "jpg".

End Switches.

(** ** Further handlers of the converters *)
Module Handlers2.
Import JS Page Handlers Switches.
Local Open Scope Q_scope.

(** *** converter-svg.js *)

(** The module variables [currentSvgText] and [svgIntrinsic]. *)
Record svg_vars := { currentSvgText : string; svgIntrinsic : double * double }.

(** The file-type test of [handleFile]: [/\.svg$/i] on the name, with
    ASCII case folding. *)
Definition svg_isSvg (f : file) : bool :=
  String.eqb (ftype f) "image/svg+xml" || endsWith (toLowerCase (fname f)) ".svg".

(** [handleFile(file)]; [text] is [file.text()], [parse text] the [<svg>]
    element that [DOMParser] finds in [text] ([None] when there is none or
    the parser throws). *)
Definition svg_handleFile (f : option file) (text : M string)
    (parse : string -> option Svg.svg_element) (v : svg_vars) : M svg_vars :=
  match f with
  | None => ret v
  | Some f =>
    if negb (svg_isSvg f) then setStatusText "Please upload an SVG file (.svg)." ;; ret v
    else
    modify (set_current_file (Some f)) ;;
    let v := {| currentSvgText := ""; svgIntrinsic := svgIntrinsic v |} in
    hideDownload ;;
    setWorking true ;;
    setStatusText "Reading SVG…" ;;
    try_finally
      (try_catch
         (t <- text ;;
          let v := {| currentSvgText := t; svgIntrinsic := Svg.parseSvgSize (parse t) |} in
          setStatusText "SVG loaded. Choose output format and click Convert." ;;
          ret v)
         (fun _ => setStatusText "Failed to read the SVG file." ;; ret v))
      (setWorking false)
  end.

(** [resetAll()] (the form controls it resets are not part of the state). *)
Definition svg_resetAll : M svg_vars :=
  modify (set_current_file None) ;;
  hideDownload ;;
  setStatusText "No file selected yet." ;;
  ret {| currentSvgText := ""; svgIntrinsic := (JS.Dbl 512, JS.Dbl 512) |}.

(** The [while] loop of [formatBytes]: [i < units.length - 1] allows at
    most three divisions. *)
Fixpoint formatBytes_loop (fuel : nat) (v : Q) (i : nat) : Q * nat :=
  match fuel with
  | O => (v, i)
  | S f => if Qle_bool 1024 v then formatBytes_loop f (v / 1024) (S i) else (v, i)
  end.

Definition svg_units : list string := ["B"; "KB"; "MB"; "GB"].

(** [formatBytes(bytes)] of converter-svg.js, on a byte count
    ([Number.isFinite] holds of it). *)
Definition svg_formatBytes (bytes : Z) : string :=
  let '(v, i) := formatBytes_loop 3 (inject_Z bytes) 0 in
  Names.toFixed v (if Nat.eqb i 0 then 0 else 2) ++ " " ++ nth i svg_units "".

(** *** converter-webp.js and converter-heic.js ([DOMContentLoaded]) *)

(** [resetFileState()] of converter-webp.js. *)
Definition webp_resetFileState : M unit :=
  cur <- gets current_object_url ;;
  (match cur with
   | Some u => revokeObjectURL u ;; modify (set_current_object_url None)
   | None => ret tt
   end) ;;
  modify (set_current_file None) ;;
  hideDownload ;;
  setStatus "No file selected yet." "muted".

(** The [resetBtn] handler of converter-webp.js (the select, range and
    switch values it resets are parameters of the other handlers). *)
Definition webp_reset : M unit :=
  webp_resetFileState ;; setTemporaryStatus "Form reset." "muted" 2000.

(** [resetFileState()] of converter-heic.js: the link is hidden, its
    [href] kept. *)
Definition heic1_resetFileState : M unit :=
  cur <- gets current_object_url ;;
  (match cur with
   | Some u => revokeObjectURL u ;; modify (set_current_object_url None)
   | None => ret tt
   end) ;;
  modify (set_current_file None) ;;
  hideLink ;;
  setStatus "No file selected yet." "muted".

Definition heic1_reset : M unit :=
  heic1_resetFileState ;; setTemporaryStatus "Form reset." "muted" 2000.

(** *** converter-image-pdf.js, the [DOMContentLoaded] converter *)

(** [resetFiles()]. *)
Definition imagepdf2_resetFiles : M unit :=
  cur <- gets current_object_url ;;
  (match cur with
   | Some u => revokeObjectURL u ;; modify (set_current_object_url None)
   | None => ret tt
   end) ;;
  modify (set_selected_files []) ;;
  hideDownload ;;
  setStatus "No files selected yet." "muted".

(** The [resetBtn] handler. *)
Definition imagepdf2_reset (fs : format_select) : M format_select :=
  imagepdf2_resetFiles ;;
  modify (set_mode_select "Detect_automatically") ;;
  fs' <- imagepdf2_updateModeUI {| to_value := "pdf"; pdf_disabled := pdf_disabled fs;
                                   jpg_disabled := jpg_disabled fs; png_disabled := png_disabled fs |} ;;
  setTemporaryStatus "Form reset." "muted" 2000 ;;
  ret fs'.

(** *** converter-image-pdf.js, the module-level converter *)

(** [files.find(f => f.type === "application/pdf" ||
    f.name.toLowerCase().endsWith(".pdf"))]. *)
Definition find_pdf (files : list file) : option file :=
  find (fun f => String.eqb (ftype f) "application/pdf" ||
                 endsWith (toLowerCase (fname f)) ".pdf") files.

(** The [for] loop of [convertPdfToImages], pages [pageNum] to
    [pageNum + fuel - 1]: each page's blob gets a URL, is downloaded
    through a temporary link, and its URL is revoked.  [render n] is
    [pdf.getPage(n)], [page.render] and [canvas.toBlob]; a [null] blob makes
    [URL.createObjectURL] throw [nullBlobError].  The names of the downloads
    are returned. *)
Fixpoint pdf_pages_loop (render : nat -> M (option blob)) (nullBlobError base targetFormat : string)
    (pageNum fuel : nat) : M (list string) :=
  match fuel with
  | O => ret []
  | S fuel' =>
    r <- render pageNum ;;
    match r with
    | None => throw nullBlobError
    | Some b =>
      let filename := base ++ "-page-" ++ Names.Z_to_dec (Z.of_nat pageNum) ++ "." ++ targetFormat in
      url <- createObjectURL b ;;
      revokeObjectURL url ;;
      rest <- pdf_pages_loop render nullBlobError base targetFormat (S pageNum) fuel' ;;
      ret (filename :: rest)
    end
  end.

(** [convertPdfToImages(files)]; [toFormatValue] is
    [toFormatSelect.value], [openPdf pdfFile] is [ensurePdfJs()],
    [arrayBuffer()] and [getDocument], giving [numPages]. *)
Definition imagepdf1_convertPdfToImages (toFormatValue : string)
    (openPdf : file -> M nat) (render : nat -> M (option blob)) (nullBlobError : string)
    (files : list file) : M (list string) :=
  match find_pdf files with
  | None => throw "No PDF file found in selection."
  | Some pdfFile =>
    numPages <- openPdf pdfFile ;;
    let targetFormat := if String.eqb toFormatValue "png" then "png" else "jpg" in
    setStatusText ("Rendering " ++ Names.Z_to_dec (Z.of_nat numPages) ++ " page(s) to " ++
                   (if String.eqb targetFormat "png" then "PNG" else "JPG") ++ "...") ;;
    hideLink ;;
    names <- pdf_pages_loop render nullBlobError (Names.getBaseName (fname pdfFile)) targetFormat 1 numPages ;;
    setStatusText "All pages exported as images (downloaded one by one)." ;;
    ret names
  end.


(** *** A page session: the handlers run one after another

    An exception that escapes a handler does not stop the page; the next
    event is handled in the state the handler left. *)
Fixpoint run_session {E : Type} (handle : E -> M unit) (events : list E) (s : st) : st :=
  match events with
  | [] => s
  | e :: rest => run_session handle rest (fst (handle e s))
  end.

(** The events of the WebP page: its handlers, and the timers of
    [setTemporaryStatus] ([WebpTimer i] fires the [i]-th pending one). *)
Inductive webp_event :=
  | WebpSelect (f : file)
  | WebpSubmit (canEncodeWebP : bool) (toFormat : string) (rawQuality : option Z) (compressChecked : bool)
  | WebpSwap (prevFrom prevTo : string)
  | WebpReset
  | WebpTimer (i : nat).

Definition webp_handle (convertImage : Q -> M (option blob)) (e : webp_event) : M unit :=
  match e with
  | WebpSelect f => webp_handleFileSelect f
  | WebpSubmit can toFormat raw compress => webp_submit can toFormat raw compress convertImage
  | WebpSwap prevFrom prevTo => _ <- webp_swap prevFrom prevTo ;; ret tt
  | WebpReset => webp_reset
  | WebpTimer i => fire_status_timer i
  end.

(** The events of the HEIC page ([DOMContentLoaded] converter), with the
    timers of [setTemporaryStatus]. *)
Inductive heic1_event :=
  | HeicSelect (f : file)
  | HeicSubmit (fromValue toValue : string) (rawQuality : option Z) (compressChecked : bool)
  | HeicReset
  | HeicTimer (i : nat).

Definition heic1_handle (hasHeic2Any : bool) (convertHeicOrImage : Q -> M (option blob))
    (e : heic1_event) : M unit :=
  match e with
  | HeicSelect f => heic1_handleFileSelect hasHeic2Any f
  | HeicSubmit fromValue toValue raw compress =>
    heic1_submit fromValue toValue raw compress convertHeicOrImage
  | HeicReset => heic1_reset
  | HeicTimer i => fire_status_timer i
  end.

(** The events of the image/PDF page ([DOMContentLoaded] converter), with
    the timers of [setTemporaryStatus]. *)
Inductive imagepdf2_event :=
  | PdfSelect (files : list file)
  | PdfSubmit (targetFormat : string) (qualityVal : option Z)
  | PdfSwap (fs : format_select)
  | PdfReset (fs : format_select)
  | PdfTimer (i : nat).

Definition imagepdf2_handle (convertImagesToPdf : list file -> Q -> M blob)
    (convertPdfToImage : file -> string -> Q -> M blob) (e : imagepdf2_event) : M unit :=
  match e with
  | PdfSelect files => imagepdf2_handleFileSelection files
  | PdfSubmit targetFormat q => imagepdf2_submit targetFormat q convertImagesToPdf convertPdfToImage
  | PdfSwap fs => _ <- imagepdf2_swap fs ;; ret tt
  | PdfReset fs => _ <- imagepdf2_reset fs ;; ret tt
  | PdfTimer i => fire_status_timer i
  end.

(** The two branches of the loop of [handleFileSelection] that keep a
    file: [pdfs.push(f)] and [images.push(f)]. *)
Definition imagepdf2_keeps_pdf (f : file) : bool :=
  negb (MAX_SIZE <? fsize f)%Z && String.eqb (ftype f) "application/pdf".

Definition imagepdf2_keeps_image (f : file) : bool :=
  negb (MAX_SIZE <? fsize f)%Z && negb (String.eqb (ftype f) "application/pdf") &&
  (negb (String.eqb (ftype f) "") && String.prefix "image/" (ftype f)).

End Handlers2.

(** ** [loadScriptOnce(src)] of the module-level HEIC and image/PDF converters *)
Module Scripts.

(** A [<script>] element of the document: its [src] and its
    [dataset.loaded] ([None] when the attribute is absent). *)
Record script := { script_src : string; script_loaded : option string }.

(** How the returned promise settles: at once, or on the [load] (or
    [error]) event of the script. *)
Inductive load_wait := ResolvedNow | WaitsForLoad.

(** [document.querySelector(`script[src="${src}"]`)] finds the first
    script with that [src]; a new script is appended.  [scripts] are the
    document's script elements; their order matters only for that first
    match. *)
Definition loadScriptOnce (src : string) (scripts : list script) : list script * load_wait :=
  match find (fun sc => String.eqb (script_src sc) src) scripts with
  | Some existing =>
    (scripts,
     match script_loaded existing with
     | Some v => if String.eqb v "true" then ResolvedNow else WaitsForLoad
     | None => WaitsForLoad
     end)
  | None => ((scripts ++ [{| script_src := src; script_loaded := Some "false" |}])%list, WaitsForLoad)
  end.

(** The [load] listener that [loadScriptOnce] puts on the script it
    creates: [script.dataset.loaded = "true"]. *)
Definition script_loaded_event (src : string) (scripts : list script) : list script :=
  map (fun sc => if String.eqb (script_src sc) src then
                   match script_loaded sc with
                   | Some v => if String.eqb v "false" then {| script_src := src; script_loaded := Some "true" |} else sc
                   | None => sc
                   end
                 else sc) scripts.

(** A sequence of calls and [load] events. *)
Inductive script_event := LoadScript (src : string) | ScriptLoaded (src : string).

Fixpoint run_scripts (events : list script_event) (scripts : list script) : list script :=
  match events with
  | [] => scripts
  | LoadScript src :: rest => run_scripts rest (fst (loadScriptOnce src scripts))
  | ScriptLoaded src :: rest => run_scripts rest (script_loaded_event src scripts)
  end.

End Scripts.

(* ================================================================= *)
(** * Properties                                                      *)
(* ================================================================= *)

Module DoubleFacts.
Import JS.
Local Open Scope Q_scope.

Lemma pow2_pos e : 0 < pow2 e.
Proof. unfold pow2. apply Qpower_0_lt. reflexivity. Qed.

Lemma pow2_plus a b : pow2 (a + b) == pow2 a * pow2 b.
Proof. unfold pow2. apply Qpower_plus. discriminate. Qed.

Lemma pow2_lt a b : (a < b)%Z -> pow2 a < pow2 b.
Proof. intros H. unfold pow2. apply Qpower_lt_compat_l; [exact H|reflexivity]. Qed.

Lemma pow2_le a b : (a <= b)%Z -> pow2 a <= pow2 b.
Proof. intros H. unfold pow2. apply Qpower_le_compat_l; [exact H|discriminate]. Qed.

Lemma pow2_lt_inv a b : pow2 a < pow2 b -> (a < b)%Z.
Proof. intros H. unfold pow2 in H. apply Qpower_lt_compat_l_inv with (q := 2 # 1); [exact H|reflexivity]. Qed.

Lemma pow2_le_inv a b : pow2 a <= pow2 b -> (a <= b)%Z.
Proof. intros H. unfold pow2 in H. apply Qpower_le_compat_l_inv with (q := 2 # 1); [exact H|reflexivity]. Qed.

Lemma pow2_Z n : (0 <= n)%Z -> pow2 n == inject_Z (2 ^ n).
Proof. intros H. unfold pow2. rewrite Zpower_Qpower by exact H. reflexivity. Qed.

Lemma ilog2_spec x : 0 < x -> pow2 (ilog2 x) <= x /\ x < pow2 (ilog2 x + 1).
Proof.
  destruct x as [n d]. intros Hx.
  assert (Hn : (0 < n)%Z).
  { unfold Qlt in Hx. cbn in Hx. lia. }
  unfold ilog2. cbn [Qnum Qden].
  set (ln := Z.log2 n). set (ld := Z.log2 (Z.pos d)).
  destruct (Z.log2_spec n Hn) as [N1 N2]. fold ln in N1, N2.
  destruct (Z.log2_spec (Z.pos d) eq_refl) as [D1 D2]. fold ld in D1, D2.
  assert (Hln : (0 <= ln)%Z) by apply Z.log2_nonneg.
  assert (Hld : (0 <= ld)%Z) by apply Z.log2_nonneg.
  rewrite Zle_Qle, <- pow2_Z in N1, D1 by lia.
  rewrite Zlt_Qlt, <- pow2_Z in N2, D2 by lia.
  unfold Z.succ in N2, D2.
  assert (Ex : n # d == inject_Z n / inject_Z (Z.pos d)).
  { unfold Qdiv, Qeq. cbn. lia. }
  (* bounds 2^(a-1) < x < 2^(a+1) *)
  assert (Lo : pow2 (ln - ld - 1) < n # d).
  { rewrite Ex.
    assert (E : pow2 (ln - ld - 1) * pow2 (ld + 1) == pow2 ln).
    { rewrite <- pow2_plus. f_equiv. ring. }
    pose proof (pow2_pos (ln - ld - 1)). pose proof (pow2_pos ld).
    apply Qlt_shift_div_l; [lra|]. nra. }
  assert (Hi : n # d < pow2 (ln - ld + 1)).
  { rewrite Ex.
    assert (E : pow2 (ln - ld + 1) * pow2 ld == pow2 (ln + 1)).
    { rewrite <- pow2_plus. f_equiv. ring. }
    pose proof (pow2_pos (ln - ld + 1)). pose proof (pow2_pos ld).
    apply Qlt_shift_div_r; [lra|]. nra. }
  destruct (Qle_bool (pow2 (ln - ld)) (n # d)) eqn:B.
  - apply Qle_bool_iff in B. split; [exact B|exact Hi].
  - assert (B' : n # d < pow2 (ln - ld)).
    { apply Qnot_le_lt. intros C. apply Qle_bool_iff in C. congruence. }
    split; [apply Qlt_le_weak; exact Lo|].
    replace (ln - ld - 1 + 1)%Z with (ln - ld)%Z by ring. exact B'.
Qed.

Lemma ilog2_unique x k : pow2 k <= x -> x < pow2 (k + 1) -> ilog2 x = k.
Proof.
  intros H1 H2.
  assert (Hx : 0 < x) by (pose proof (pow2_pos k); lra).
  destruct (ilog2_spec x Hx) as [S1 S2].
  assert (A : (ilog2 x < k + 1)%Z) by (apply pow2_lt_inv; lra).
  assert (B : (k < ilog2 x + 1)%Z) by (apply pow2_lt_inv; lra).
  lia.
Qed.

Lemma ilog2_compat x y : 0 < x -> x == y -> ilog2 x = ilog2 y.
Proof.
  intros Hx E. destruct (ilog2_spec x Hx) as [S1 S2].
  symmetry. apply ilog2_unique; rewrite <- E; assumption.
Qed.

Lemma round_even_compat y y' : y == y' -> round_even y = round_even y'.
Proof.
  intros E. unfold round_even. rewrite (Qfloor_comp y y' E).
  assert (C : (y - inject_Z (Qfloor y') ?= 1 # 2) = (y' - inject_Z (Qfloor y') ?= 1 # 2)).
  { apply Qcompare_comp; [rewrite E; reflexivity|reflexivity]. }
  rewrite C. reflexivity.
Qed.

Lemma round_even_Z z : round_even (inject_Z z) = z.
Proof.
  unfold round_even. rewrite Qfloor_Z.
  assert (C : (inject_Z z - inject_Z z ?= 1 # 2) = Lt).
  { apply (proj1 (Qlt_alt _ _)). lra. }
  rewrite C. reflexivity.
Qed.

Lemma round_even_ge y K : inject_Z K <= y -> (K <= round_even y)%Z.
Proof.
  intros H. unfold round_even.
  pose proof (Qfloor_resp_le _ _ H) as F. rewrite Qfloor_Z in F.
  destruct (_ ?= _); [destruct (Z.even _)|..]; lia.
Qed.

Lemma round_even_le y K : y <= inject_Z K -> (round_even y <= K)%Z.
Proof.
  intros H. unfold round_even.
  pose proof (Qfloor_resp_le _ _ H) as F. rewrite Qfloor_Z in F.
  pose proof (Qfloor_le y) as F1.
  destruct (Z.eq_dec (Qfloor y) K) as [E|E].
  - assert (C : (y - inject_Z (Qfloor y) ?= 1 # 2) = Lt).
    { apply (proj1 (Qlt_alt _ _)). rewrite E. rewrite E in F1. lra. }
    rewrite C. lia.
  - destruct (_ ?= _); [destruct (Z.even _)|..]; lia.
Qed.

Lemma round_even_nonneg y : 0 <= y -> (0 <= round_even y)%Z.
Proof. intros H. apply round_even_ge. exact H. Qed.

Lemma Qred_idem q : Qred (Qred q) = Qred q.
Proof. apply Qred_complete, Qred_correct. Qed.

Lemma inject_Z_2pow n : (0 <= n)%Z -> inject_Z (2 ^ n) == pow2 n.
Proof. intros H. symmetry. apply pow2_Z, H. Qed.

Lemma round_pos_exact q M E :
  q == inject_Z M * pow2 E -> (0 < M)%Z -> (M < 2 ^ 53)%Z -> (-1074 <= E <= 971)%Z ->
  round_pos q = Dbl (Qred q).
Proof.
  intros Hq HM1 HM2 HE.
  assert (PE := pow2_pos E).
  assert (HMq : 1 <= inject_Z M) by (change 1 with (inject_Z 1); rewrite <- Zle_Qle; lia).
  assert (HM53 : inject_Z M < pow2 53).
  { rewrite <- inject_Z_2pow by lia. rewrite <- Zlt_Qlt. exact HM2. }
  assert (Hpos : 0 < q) by (rewrite Hq; apply Qmult_lt_0_compat; lra).
  destruct (ilog2_spec q Hpos) as [S1 S2].
  assert (Hup : q < pow2 (E + 53)).
  { rewrite pow2_plus, Hq, (Qmult_comm (pow2 E)). apply Qmult_lt_r; assumption. }
  assert (HL : (ilog2 q < E + 53)%Z) by (apply pow2_lt_inv; lra).
  unfold round_pos.
  set (e := Z.max (-1074) (ilog2 q - 52)).
  assert (He : (-1074 <= e <= E)%Z) by (subst e; lia).
  assert (Pe := pow2_pos e).
  assert (Ediv : q / pow2 e == inject_Z (M * 2 ^ (E - e))).
  { rewrite inject_Z_mult, inject_Z_2pow by lia.
    assert (X : pow2 E == pow2 (E - e) * pow2 e) by (rewrite <- pow2_plus; f_equiv; ring).
    rewrite Hq, X. field. lra. }
  rewrite (round_even_compat _ _ Ediv), round_even_Z.
  assert (Ev : inject_Z (M * 2 ^ (E - e)) * pow2 e == q).
  { rewrite <- Ediv. field. lra. }
  assert (B : Qle_bool (pow2 1024) (inject_Z (M * 2 ^ (E - e)) * pow2 e) = false).
  { apply not_true_iff_false. intros C. apply Qle_bool_iff in C. rewrite Ev in C.
    assert (pow2 (E + 53) <= pow2 1024) by (apply pow2_le; lia). lra. }
  rewrite B. f_equal. apply Qred_complete. exact Ev.
Qed.

Lemma round_pos_repr x p : 0 < x -> round_pos x = Dbl p ->
  Qred p = p /\
  exists M E, p == inject_Z M * pow2 E /\ (0 <= M < 2 ^ 53)%Z /\ (-1074 <= E <= 971)%Z.
Proof.
  intros Hx H. unfold round_pos in H.
  destruct (ilog2_spec x Hx) as [S1 S2].
  set (L := ilog2 x) in *.
  set (e := Z.max (-1074) (L - 52)) in *.
  set (m := round_even (x / pow2 e)) in *.
  destruct (Qle_bool (pow2 1024) (inject_Z m * pow2 e)) eqn:B; [discriminate|].
  assert (Hp : p = Qred (inject_Z m * pow2 e)) by congruence. subst p.
  split; [apply Qred_idem|].
  assert (Pe := pow2_pos e).
  assert (Hv : inject_Z m * pow2 e < pow2 1024).
  { apply Qnot_le_lt. intros C. apply Qle_bool_iff in C. congruence. }
  assert (Hy0 : 0 <= x / pow2 e).
  { apply Qle_shift_div_l; [exact Pe|]. lra. }
  assert (Hy : x / pow2 e <= inject_Z (2 ^ 53)).
  { rewrite inject_Z_2pow by lia. apply Qlt_le_weak, Qlt_shift_div_r; [exact Pe|].
    rewrite <- pow2_plus. apply Qlt_le_trans with (pow2 (L + 1)); [exact S2|].
    apply pow2_le. subst e. lia. }
  assert (Hm0 : (0 <= m)%Z) by (apply round_even_nonneg; exact Hy0).
  assert (Hm53 : (m <= 2 ^ 53)%Z) by (apply round_even_le; exact Hy).
  destruct (Z.eq_dec m (2 ^ 53)) as [Em|Em].
  - exists (2 ^ 52)%Z, (e + 1)%Z.
    assert (Ev : inject_Z m * pow2 e == pow2 (53 + e)).
    { rewrite Em, inject_Z_2pow, pow2_plus by lia. reflexivity. }
    split.
    + rewrite Qred_correct, Ev, inject_Z_2pow, !pow2_plus by lia.
      change (pow2 53) with (pow2 (52 + 1)). rewrite pow2_plus. ring.
    + split; [lia|]. rewrite Ev in Hv. apply pow2_lt_inv in Hv. subst e. lia.
  - exists m, e. split; [apply Qred_correct|]. split; [lia|].
    split; [subst e; lia|].
    destruct (Z.max_spec (-1074) (L - 52)) as [[_ Ee]|[_ Ee]]; fold e in Ee.
    + assert (Hy52 : inject_Z (2 ^ 52) <= x / pow2 e).
      { rewrite inject_Z_2pow by lia. apply Qle_shift_div_l; [exact Pe|].
        rewrite <- pow2_plus. replace (52 + e)%Z with L by lia. exact S1. }
      apply round_even_ge in Hy52. fold m in Hy52.
      assert (Hv' : pow2 (52 + e) <= inject_Z m * pow2 e).
      { rewrite pow2_plus, <- inject_Z_2pow by lia.
        apply Qmult_le_compat_r; [rewrite <- Zle_Qle; exact Hy52|lra]. }
      assert (Hl : pow2 (52 + e) < pow2 1024) by lra.
      apply pow2_lt_inv in Hl. lia.
    + lia.
Qed.

Definition repr (q : Q) : Prop :=
  exists M E, q == inject_Z M * pow2 E /\ (0 <= M < 2 ^ 53)%Z /\ (-1074 <= E <= 971)%Z.

Lemma repr_nonneg q : repr q -> 0 <= q.
Proof.
  intros (M & E & Hq & HM & _). rewrite Hq.
  apply Qmult_le_0_compat; [|apply Qlt_le_weak, pow2_pos].
  change 0 with (inject_Z 0). rewrite <- Zle_Qle. lia.
Qed.

Lemma repr_round_pos q y : Qred q = q -> repr q -> 0 < q -> y == q -> round_pos y = Dbl q.
Proof.
  intros Hr (M & E & Hq & HM & HE) Hpos Hy.
  assert (HM0 : (0 < M)%Z).
  { destruct (Z.eq_dec M 0) as [->|]; [|lia].
    assert (Hz : q == 0) by (rewrite Hq; ring). lra. }
  rewrite (round_pos_exact y M E); [|rewrite Hy; exact Hq|lia|lia|lia].
  f_equal. rewrite <- Hr. apply Qred_complete. exact Hy.
Qed.

Lemma Qred_zero q : Qred q = q -> q == 0 -> q = 0.
Proof. intros Hr Hq. rewrite <- Hr. apply (Qred_complete q 0) in Hq. exact Hq. Qed.

Lemma to_double_idem x p : to_double x = Dbl p -> to_double p = Dbl p.
Proof.
  unfold to_double at 1. destruct (Qcompare (Qred x) 0) eqn:C.
  - intros H. assert (p = 0) by congruence. subst p. reflexivity.
  - destruct (round_pos (- Qred x)) as [q| | |] eqn:R; try discriminate.
    intros H. assert (p = - q) by congruence. subst p.
    assert (Hx : 0 < - Qred x).
    { apply Qlt_alt in C. lra. }
    destruct (round_pos_repr _ _ Hx R) as [Hr Hrep].
    destruct (Qle_lt_or_eq 0 q (repr_nonneg q Hrep)) as [Hq|Hq].
    + unfold to_double. rewrite Qred_opp, Hr.
      assert (Cq : Qcompare (- q) 0 = Lt) by (apply (proj1 (Qlt_alt _ _)); lra).
      rewrite Cq. rewrite (repr_round_pos q); [reflexivity|exact Hr|exact Hrep|exact Hq|].
      ring.
    + symmetry in Hq. rewrite (Qred_zero q Hr Hq). reflexivity.
  - intros H. assert (Hx : 0 < Qred x) by (apply (proj2 (Qgt_alt (Qred x) 0)); exact C).
    destruct (round_pos_repr _ _ Hx H) as [Hr Hrep].
    destruct (Qle_lt_or_eq 0 p (repr_nonneg p Hrep)) as [Hq|Hq].
    + unfold to_double. rewrite Hr.
      assert (Cq : Qcompare p 0 = Gt) by (apply (proj1 (Qgt_alt _ _)); lra).
      rewrite Cq. apply (repr_round_pos p); [exact Hr|exact Hrep|exact Hq|reflexivity].
    + symmetry in Hq. rewrite (Qred_zero p Hr Hq). reflexivity.
Qed.

Lemma to_double_compat x y : x == y -> to_double x = to_double y.
Proof. intros H. unfold to_double. rewrite (Qred_complete x y H). reflexivity. Qed.

(** A number that is a binary64 value: a finite value is its own
    rounding. *)
Definition is_double (x : double) : Prop :=
  match x with
  | Dbl q => to_double q = Dbl q
  | _ => True
  end.

Definition opt_double (v : option double) : Prop :=
  match v with
  | Some x => is_double x
  | None => True
  end.

Lemma to_double_double x : is_double (to_double x).
Proof.
  destruct (to_double x) as [q| | |] eqn:E; simpl; try exact I.
  exact (to_double_idem x q E).
Qed.

Lemma of_literal_double b l : is_double (of_literal b l).
Proof.
  destruct l as [[|q]|]; simpl; [destruct b; exact I| apply to_double_double | exact I].
Qed.

Ltac split_matches :=
  repeat match goal with
  | |- context [match ?x with _ => _ end] =>
      first [ is_var x; destruct x
            | lazymatch type of x with
              | bool => destruct x eqn:?
              | prod _ _ => destruct x eqn:?
              | option _ => destruct x eqn:?
              end ]
  end.

Lemma js_Number_double s : is_double (js_Number s).
Proof.
  unfold js_Number. cbv zeta. set (t := trim s). clearbody t.
  split_matches;
    first [ apply of_literal_double | apply to_double_double | exact I | reflexivity ].
Qed.

Lemma parseLen_double v : opt_double (Svg.parseLen v).
Proof.
  unfold Svg.parseLen. destruct v as [s|]; [|exact I].
  destruct s as [|c s]; [exact I|].
  set (t := trim (String c s)). clearbody t.
  split_matches; first [ apply js_Number_double | exact I ].
Qed.

Lemma finite_numbers_double l i : to_double (nth i (finite_numbers l) 0) = Dbl (nth i (finite_numbers l) 0).
Proof.
  revert i; induction l as [|x l IH]; intros i; simpl.
  - destruct i; reflexivity.
  - pose proof (js_Number_double x) as D.
    destruct (js_Number x) as [q| | |]; try apply IH.
    destruct i; [exact D|apply IH].
Qed.

Lemma viewBox_dim_double vb i : opt_double (Svg.viewBox_dim vb i).
Proof.
  unfold Svg.viewBox_dim. destruct vb as [vb|]; [|exact I].
  destruct (negb (String.eqb vb "")); [|exact I].
  destruct (List.length (Svg.viewBox_parts vb) =? 4)%nat; [|exact I].
  apply finite_numbers_double.
Qed.

Lemma or_default_double v d :
  opt_double v -> is_double d -> d <> NaN ->
  is_double (or_default v d) /\ or_default v d <> NaN.
Proof.
  intros Hv Hd Hn. destruct v as [x|]; [|split; assumption].
  unfold or_default. destruct (truthy (Some x)) eqn:T; [|split; assumption].
  split; [exact Hv|]. intros ->. simpl in T. discriminate T.
Qed.

Lemma first_nonzero_double a b :
  opt_double a -> opt_double b ->
  is_double (Svg.first_nonzero a b) /\ Svg.first_nonzero a b <> NaN.
Proof.
  intros Ha Hb. unfold Svg.first_nonzero.
  destruct (truthy a); apply or_default_double;
    first [assumption | reflexivity | discriminate].
Qed.

Lemma Qmin_cases a b : (Qmin a b = a /\ a <= b) \/ (Qmin a b = b /\ b <= a).
Proof.
  unfold Qmin, GenericMinMax.gmin. destruct (a ?= b) eqn:E.
  - left. split; [reflexivity|]. apply Qeq_alt in E. rewrite E. apply Qle_refl.
  - left. split; [reflexivity|]. apply Qlt_le_weak, (proj2 (Qlt_alt a b)), E.
  - right. split; [reflexivity|]. apply Qlt_le_weak, (proj2 (Qgt_alt a b)), E.
Qed.

Lemma Qmax_cases a b : (Qmax a b = a /\ b <= a) \/ (Qmax a b = b /\ a <= b).
Proof.
  unfold Qmax, GenericMinMax.gmax. destruct (a ?= b) eqn:E.
  - left. split; [reflexivity|]. apply Qeq_alt in E. rewrite E. apply Qle_refl.
  - right. split; [reflexivity|]. apply Qlt_le_weak, (proj2 (Qlt_alt a b)), E.
  - left. split; [reflexivity|]. apply Qlt_le_weak, (proj2 (Qgt_alt a b)), E.
Qed.

Lemma clamp_dim_shape x :
  is_double x -> x <> NaN ->
  exists q, Svg.clamp_dim x = Dbl q /\ 1 <= q /\ q <= 20000 /\ to_double q = Dbl q.
Proof.
  intros D N. unfold Svg.clamp_dim.
  destruct x as [q| | |]; simpl.
  - destruct (Qmin_cases q 20000) as [[E1 L1]|[E1 L1]]; rewrite E1;
      destruct (Qmax_cases 1 (Qmin q 20000)) as [[E2 L2]|[E2 L2]]; rewrite E1 in E2, L2; rewrite E2.
    + exists 1. split; [reflexivity|]. split; [lra|]. split; [lra|reflexivity].
    + exists q. split; [reflexivity|]. split; [lra|]. split; [lra|exact D].
    + exists 1. split; [reflexivity|]. split; [lra|]. split; [lra|reflexivity].
    + exists 20000. split; [reflexivity|]. split; [lra|]. split; [lra|reflexivity].
  - exists 20000. split; [reflexivity|]. split; [lra|]. split; [lra|reflexivity].
  - exists 1. split; [reflexivity|]. split; [lra|]. split; [lra|reflexivity].
  - congruence.
Qed.

End DoubleFacts.

Module SvgFacts.
Import JS Svg DoubleFacts.
Local Open Scope Q_scope.

Lemma or_default_falsy (v : option double) (d : double) :
  truthy v = false -> or_default v d = d.
Proof.
  intros H. destruct v as [x|]; [|reflexivity].
  unfold or_default. rewrite H. reflexivity.
Qed.

Lemma round_inject_Z (z : Z) : round (inject_Z z) = z.
Proof.
  unfold round.
  pose proof (Qfloor_le (inject_Z z + (1 # 2))) as H1.
  pose proof (Qlt_floor (inject_Z z + (1 # 2))) as H2.
  set (f := Qfloor (inject_Z z + (1 # 2))) in *. clearbody f.
  rewrite inject_Z_plus in H2. change (inject_Z 1) with 1 in H2.
  assert (A : (f < z + 1)%Z).
  { rewrite Zlt_Qlt, inject_Z_plus. change (inject_Z 1) with 1. lra. }
  assert (B : (z < f + 1)%Z).
  { rewrite Zlt_Qlt, inject_Z_plus. change (inject_Z 1) with 1. lra. }
  lia.
Qed.

Lemma round_ge_1 (x : Q) : 1 <= x -> (1 <= round x)%Z.
Proof.
  intro H; unfold round.
  apply Z.le_trans with (Qfloor (inject_Z 1)).
  - rewrite Qfloor_Z. lia.
  - apply Qfloor_resp_le. unfold inject_Z. lra.
Qed.

Lemma round_comp (x y : Q) : x == y -> round x = round y.
Proof. intro H; unfold round; apply Qfloor_comp; rewrite H; reflexivity. Qed.

(** The joint test [(!width || !height) && vbAttr] of [parseSvgSize]
    amounts to a fallback taken dimension by dimension. *)
Lemma parseSvgSize_fallback (svg : svg_element) :
  parseSvgSize (Some svg) =
  (clamp_dim (first_nonzero (parseLen (attr_width svg)) (viewBox_dim (attr_viewBox svg) 2)),
   clamp_dim (first_nonzero (parseLen (attr_height svg)) (viewBox_dim (attr_viewBox svg) 3))).
Proof.
  destruct svg as [aw ah avb]; simpl.
  generalize (parseLen aw) (parseLen ah); intros a b.
  unfold first_nonzero.
  destruct avb as [vb|]; simpl;
    destruct (truthy a) eqn:Ha; destruct (truthy b) eqn:Hb; simpl;
    rewrite ?(or_default_falsy a (Dbl 512) Ha), ?(or_default_falsy b (Dbl 512) Hb); try reflexivity;
    destruct (String.eqb vb "") eqn:Hvb; simpl; try reflexivity;
    destruct (List.length (viewBox_parts vb) =? 4)%nat; simpl; try reflexivity.
  all: rewrite ?(or_default_falsy a (Dbl 512) Ha), ?(or_default_falsy b (Dbl 512) Hb); reflexivity.
Qed.

(** One dimension of the canvas at scale 1. *)
Lemma canvas_dim_scale_1 (q : Q) :
  1 <= q -> to_double q = Dbl q ->
  Math_max (Dbl 1) (Math_round (js_mul (Dbl q) (Dbl 1))) = Dbl (inject_Z (round q)).
Proof.
  intros H1 D. unfold js_mul.
  rewrite (to_double_compat (q * 1) q) by ring. rewrite D. simpl.
  pose proof (round_ge_1 q H1) as R.
  destruct (Qmax_cases 1 (inject_Z (round q))) as [[E L]|[E L]]; rewrite E; [|reflexivity].
  assert (R1 : round q = 1%Z).
  { change 1 with (inject_Z 1) in L. rewrite <- Zle_Qle in L. lia. }
  rewrite R1. reflexivity.
Qed.

End SvgFacts.

Module SvgClaims.
Import JS Svg DoubleFacts SvgFacts.
Local Open Scope Q_scope.

(** Claim C1 (amended).  Each dimension is [Number] of the leading
    unsigned decimal of the [width]/[height] attribute; when that is
    missing, unparseable or 0, the corresponding viewBox number is taken
    if the viewBox splits into exactly four finite numbers; a dimension
    still missing or 0 is 512; each dimension is clamped to [1, 20000].
    Each dimension is then a finite binary64 value [q], and at scale 1
    the output canvas has each dimension rounded by [Math.round], which is
    the dimension itself when it is a whole number.  Without an [<svg>]
    element the size is 512 x 512. *)
Theorem svg_canvas_size_scale_1 :
  parseSvgSize None = (Dbl 512, Dbl 512) /\
  forall svg : svg_element,
  let '(w, h) := parseSvgSize (Some svg) in
  w = clamp_dim (first_nonzero (parseLen (attr_width svg)) (viewBox_dim (attr_viewBox svg) 2)) /\
  h = clamp_dim (first_nonzero (parseLen (attr_height svg)) (viewBox_dim (attr_viewBox svg) 3)) /\
  exists qw qh : Q,
  w = Dbl qw /\ h = Dbl qh /\
  (1 <= qw /\ qw <= 20000) /\ (1 <= qh /\ qh <= 20000) /\
  svg_canvas_size (Some svg) (Dbl 1) = (Dbl (inject_Z (round qw)), Dbl (inject_Z (round qh))) /\
  (forall zw zh : Z, qw == inject_Z zw -> qh == inject_Z zh ->
     svg_canvas_size (Some svg) (Dbl 1) = (Dbl (inject_Z zw), Dbl (inject_Z zh))).
Proof.
  split; [reflexivity|].
  intro svg.
  pose proof (parseSvgSize_fallback svg) as E.
  unfold svg_canvas_size, output_canvas_size. rewrite E. cbn [fst snd].
  destruct (first_nonzero_double _ _ (parseLen_double (attr_width svg))
              (viewBox_dim_double (attr_viewBox svg) 2)) as [Dw Nw].
  destruct (first_nonzero_double _ _ (parseLen_double (attr_height svg))
              (viewBox_dim_double (attr_viewBox svg) 3)) as [Dh Nh].
  destruct (clamp_dim_shape _ Dw Nw) as (qw & Ew & Hw1 & Hw2 & Tw).
  destruct (clamp_dim_shape _ Dh Nh) as (qh & Eh & Hh1 & Hh2 & Th).
  rewrite Ew, Eh.
  split; [reflexivity|]. split; [reflexivity|].
  exists qw, qh.
  rewrite (canvas_dim_scale_1 qw Hw1 Tw), (canvas_dim_scale_1 qh Hh1 Th).
  repeat split; try reflexivity; try assumption.
  intros zw zh Ew' Eh'.
  rewrite (round_comp _ _ Ew'), (round_comp _ _ Eh'), !round_inject_Z. reflexivity.
Qed.

Definition svg_300x200 : svg_element :=
  {| attr_width := Some "300"; attr_height := Some "200"; attr_viewBox := None |}.
Definition svg_viewBox_only : svg_element :=
  {| attr_width := None; attr_height := None; attr_viewBox := Some "0 0 100 50" |}.
Definition svg_no_size : svg_element :=
  {| attr_width := None; attr_height := None; attr_viewBox := None |}.
Definition svg_huge : svg_element :=
  {| attr_width := Some "30000px"; attr_height := Some "12.5"; attr_viewBox := None |}.
Definition svg_fractional : svg_element :=
  {| attr_width := Some "300.5"; attr_height := Some "200"; attr_viewBox := None |}.

Example svg_examples :
  svg_canvas_size (Some svg_300x200) (Dbl 1) = (Dbl 300, Dbl 200) /\
  svg_canvas_size (Some svg_viewBox_only) (Dbl 1) = (Dbl 100, Dbl 50) /\
  svg_canvas_size (Some svg_no_size) (Dbl 1) = (Dbl 512, Dbl 512) /\
  svg_canvas_size (Some svg_huge) (Dbl 1) = (Dbl 20000, Dbl 13).
Proof. vm_compute. repeat split. Qed.

(** Numbers that an exact reading would get wrong: an overflowing viewBox
    width is not finite and the viewBox is dropped, a width with more
    digits than a double holds is rounded to 100.5 before [Math.round],
    and an underflowing viewBox width is 0 and falls back to 512. *)
Example svg_double_examples :
  parseSvgSize (Some {| attr_width := None; attr_height := None;
                        attr_viewBox := Some "0 0 1e400 50" |}) = (Dbl 512, Dbl 512) /\
  svg_canvas_size (Some {| attr_width := Some "100.49999999999999999"; attr_height := Some "10";
                           attr_viewBox := None |}) (Dbl 1) = (Dbl 101, Dbl 10) /\
  parseSvgSize (Some {| attr_width := None; attr_height := None;
                        attr_viewBox := Some "0 0 1e-400 50" |}) = (Dbl 512, Dbl 50).
Proof. vm_compute. repeat split. Qed.

(** Witness of C1: the theorem at [width="300" height="200"]. *)
Lemma svg_canvas_size_scale_1_witness :
  parseSvgSize (Some svg_300x200) = (Dbl 300, Dbl 200) /\
  svg_canvas_size (Some svg_300x200) (Dbl 1) = (Dbl (inject_Z 300), Dbl (inject_Z 200)).
Proof.
  assert (P : parseSvgSize (Some svg_300x200) = (Dbl 300, Dbl 200)) by (vm_compute; reflexivity).
  split; [exact P|].
  pose proof (proj2 svg_canvas_size_scale_1 svg_300x200) as T.
  rewrite P in T. cbv beta iota zeta in T.
  destruct T as (_ & _ & qw & qh & Ew & Eh & _ & _ & _ & T).
  injection Ew as <-. injection Eh as <-.
  apply T; reflexivity.
Defined.

(** Counterexample to C1 as stated: for [width="300.5" height="200"] the
    clamped width is 300.5 but the canvas at scale 1 is 301 wide. *)
Lemma svg_canvas_size_counterexample :
  fst (parseSvgSize (Some svg_fractional)) = Dbl (601 # 2) /\
  svg_canvas_size (Some svg_fractional) (Dbl 1) = (Dbl 301, Dbl 200) /\
  fst (svg_canvas_size (Some svg_fractional) (Dbl 1)) <> fst (parseSvgSize (Some svg_fractional)).
Proof.
  split; [vm_compute; reflexivity|]. split; [vm_compute; reflexivity|].
  vm_compute. discriminate.
Qed.

End SvgClaims.

Module SvgZeroClaims.
Import JS Svg SvgFacts.
Local Open Scope Q_scope.

Lemma truthy_zero (v : string) (q : Q) :
  parseLen (Some v) = Some (Dbl q) -> q == 0 -> truthy (parseLen (Some v)) = false.
Proof.
  intros E Z. rewrite E. simpl.
  destruct (Qeq_bool q 0) eqn:B; [reflexivity|].
  apply Qeq_bool_iff in Z. congruence.
Qed.

(** Claim C10 (amended).  A [width] (or [height]) attribute that parses to
    0 is treated exactly as if the attribute were absent: [parseSvgSize]
    gives the same size as for the element without it, that is the
    viewBox dimension when the viewBox splits into exactly four finite
    numbers and that number is nonzero, 512 otherwise, clamped to
    [1, 20000].  The dimension can thus still be 1, when that viewBox
    number is at most 1.  An attribute parses to 0 also when its digits
    denote a positive number below the smallest double. *)
Theorem parseSvgSize_zero_attribute_is_absent :
  (forall (wv : string) (q : Q) (h vb : option string),
     parseLen (Some wv) = Some (Dbl q) -> q == 0 ->
     parseSvgSize (Some {| attr_width := Some wv; attr_height := h; attr_viewBox := vb |}) =
     parseSvgSize (Some {| attr_width := None; attr_height := h; attr_viewBox := vb |}) /\
     fst (parseSvgSize (Some {| attr_width := Some wv; attr_height := h; attr_viewBox := vb |})) =
     clamp_dim (or_default (viewBox_dim vb 2) (Dbl 512))) /\
  (forall (hv : string) (q : Q) (w vb : option string),
     parseLen (Some hv) = Some (Dbl q) -> q == 0 ->
     parseSvgSize (Some {| attr_width := w; attr_height := Some hv; attr_viewBox := vb |}) =
     parseSvgSize (Some {| attr_width := w; attr_height := None; attr_viewBox := vb |}) /\
     snd (parseSvgSize (Some {| attr_width := w; attr_height := Some hv; attr_viewBox := vb |})) =
     clamp_dim (or_default (viewBox_dim vb 3) (Dbl 512))).
Proof.
  split.
  - intros wv q h vb E Z.
    pose proof (truthy_zero wv q E Z) as T.
    rewrite !parseSvgSize_fallback. cbn [attr_width attr_height attr_viewBox fst snd].
    unfold first_nonzero. rewrite T. cbn [truthy]. split; reflexivity.
  - intros hv q w vb E Z.
    pose proof (truthy_zero hv q E Z) as T.
    rewrite !parseSvgSize_fallback. cbn [attr_width attr_height attr_viewBox fst snd].
    unfold first_nonzero. rewrite T. cbn [truthy]. split; reflexivity.
Qed.

(** Witness of C10: [width="0"] with the viewBox [0 0 100 50]. *)
Lemma parseSvgSize_zero_attribute_is_absent_witness :
  parseLen (Some "0") = Some (Dbl 0) /\
  parseSvgSize (Some {| attr_width := Some "0"; attr_height := None; attr_viewBox := Some "0 0 100 50" |}) =
  parseSvgSize (Some {| attr_width := None; attr_height := None; attr_viewBox := Some "0 0 100 50" |}).
Proof.
  split; [vm_compute; reflexivity|].
  apply (proj1 parseSvgSize_zero_attribute_is_absent "0" 0 None (Some "0 0 100 50")); [vm_compute; reflexivity|reflexivity].
Defined.

Fixpoint zeros (n : nat) : string :=
  match n with
  | O => EmptyString
  | S n => String "0" (zeros n)
  end.

(** The width [0.000...01] with 400 zeros denotes a positive number, but
    [Number] rounds it to 0: the width falls back to the viewBox. *)
Example svg_underflow_width :
  parseLen (Some ("0." ++ zeros 400 ++ "1")) = Some (Dbl 0) /\
  parseSvgSize (Some {| attr_width := Some ("0." ++ zeros 400 ++ "1"); attr_height := None;
                        attr_viewBox := Some "0 0 100 50" |}) = (Dbl 100, Dbl 50).
Proof. vm_compute. split; reflexivity. Qed.

(** Counterexample to C10 as stated: [width="0"] with the viewBox
    [0 0 0.5 50] yields an output width of 1. *)
Lemma parseSvgSize_zero_attribute_counterexample :
  let svg := {| attr_width := Some "0"; attr_height := Some "10"; attr_viewBox := Some "0 0 0.5 50" |} in
  parseLen (attr_width svg) = Some (Dbl 0) /\
  fst (parseSvgSize (Some svg)) = Dbl 1 /\
  fst (svg_canvas_size (Some svg) (Dbl 1)) = Dbl 1.
Proof. vm_compute. repeat split; reflexivity. Qed.

End SvgZeroClaims.

Module ImagePdfFacts.
Import JS ImagePdf.
Local Open Scope Q_scope.

Lemma Qle_bool_inject_Z (a b : Z) : Qle_bool (inject_Z a) (inject_Z b) = (a <=? b)%Z.
Proof. unfold Qle_bool, inject_Z. simpl. rewrite !Z.mul_1_r. reflexivity. Qed.

Lemma Qlt_bool_inject_Z (a b : Z) : Qlt_bool (inject_Z a) (inject_Z b) = (a <? b)%Z.
Proof. unfold Qlt_bool. rewrite Qle_bool_inject_Z, Z.ltb_antisym. reflexivity. Qed.

(** The page jsPDF creates for the format [[w, h]] of an image keeps its
    sides when the orientation is chosen as [v1] or [v2] chooses it. *)
Lemma jspdf_page_fit_v1 (img : image) :
  jspdf_page (inject_Z (img_w img)) (inject_Z (img_h img))
    (if (img_h img <=? img_w img)%Z then Landscape else Portrait) =
  {| page_w := inject_Z (img_w img); page_h := inject_Z (img_h img);
     page_orientation := if (img_h img <=? img_w img)%Z then Landscape else Portrait |}.
Proof.
  destruct (img_h img <=? img_w img)%Z eqn:E; simpl;
    rewrite Qlt_bool_inject_Z.
  - replace (img_w img <? img_h img)%Z with false; [reflexivity|].
    symmetry. apply Z.ltb_ge. apply Z.leb_le. exact E.
  - replace (img_h img <? img_w img)%Z with false; [reflexivity|].
    symmetry. apply Z.ltb_ge. apply Z.leb_gt in E. lia.
Qed.

Lemma jspdf_page_fit_v2 (img : image) :
  jspdf_page (inject_Z (img_w img)) (inject_Z (img_h img)) (orientation_v2 img) =
  {| page_w := inject_Z (img_w img); page_h := inject_Z (img_h img);
     page_orientation := orientation_v2 img |}.
Proof.
  unfold orientation_v2.
  destruct (img_h img <? img_w img)%Z eqn:E; simpl;
    rewrite Qlt_bool_inject_Z.
  - replace (img_w img <? img_h img)%Z with false; [reflexivity|].
    symmetry. apply Z.ltb_ge. apply Z.ltb_lt in E. lia.
  - rewrite E. reflexivity.
Qed.

Lemma page_v1_fit (img : image) :
  page_v1 "fit-image" img = (inject_Z (img_w img), inject_Z (img_h img), fit_page_v1 img).
Proof. unfold page_v1. simpl. rewrite jspdf_page_fit_v1. reflexivity. Qed.

Lemma v1_loop_fit (imgs : list image) : forall pages draws index,
  (0 < index)%nat ->
  exists draws', images_to_pdf_v1_loop "fit-image" (Some (pages, draws)) index imgs =
                 Some ((pages ++ map fit_page_v1 imgs)%list, draws').
Proof.
  induction imgs as [|img rest IH]; intros pages draws index Hi.
  - exists draws. simpl. rewrite app_nil_r. reflexivity.
  - cbn [images_to_pdf_v1_loop]. rewrite page_v1_fit.
    replace (0 <? index)%nat with true by (symmetry; apply Nat.ltb_lt; exact Hi).
    destruct (IH (pages ++ [fit_page_v1 img])%list
                (draws ++ [layout_v1 (inject_Z (img_w img)) (inject_Z (img_h img)) img])%list
                (S index) ltac:(lia)) as [d' E].
    exists d'. rewrite E, <- app_assoc. reflexivity.
Qed.

Lemma v2_loop_fit (imgs : list image) : forall pages draws,
  exists draws', images_to_pdf_v2_loop "fit-image" (Some (pages, draws)) imgs =
                 Some ((pages ++ map fit_page_v2 imgs)%list, draws').
Proof.
  induction imgs as [|img rest IH]; intros pages draws.
  - exists draws. simpl. rewrite app_nil_r. reflexivity.
  - cbn [images_to_pdf_v2_loop]. unfold next_page_v2. cbn [String.eqb Ascii.eqb Bool.eqb].
    rewrite jspdf_page_fit_v2.
    edestruct IH as [d' E]. exists d'. rewrite E, <- app_assoc. reflexivity.
Qed.

End ImagePdfFacts.

Module ImagePdfClaims.
Import JS ImagePdf ImagePdfFacts.
Local Open Scope Q_scope.

(** Claim C5 (amended).  With page size fit-image, converting a non-empty
    list of images gives one page per image, in input order, whose
    declared width and height are the image's pixel width and height.
    The orientation passed to jsPDF is landscape when width >= height in
    the module-level converter ([v1]) and when width > height in the
    [DOMContentLoaded] converter ([v2]), portrait otherwise; a square
    image gets the same page either way. *)
Theorem images_to_pdf_fit_image_pages (imgs : list image) :
  imgs <> [] ->
  (exists draws, images_to_pdf_v1 "fit-image" imgs = Some (map fit_page_v1 imgs, draws)) /\
  (forall raw, raw = "fit-image" \/ raw = "fit-JPG/PNG" ->
     exists draws, images_to_pdf_v2 raw imgs = Some (map fit_page_v2 imgs, draws)).
Proof.
  intro Hne. destruct imgs as [|img rest]; [contradiction|].
  split.
  - unfold images_to_pdf_v1. cbn [images_to_pdf_v1_loop]. rewrite page_v1_fit.
    destruct (v1_loop_fit rest [fit_page_v1 img]
                [layout_v1 (inject_Z (img_w img)) (inject_Z (img_h img)) img] 1 ltac:(lia))
      as [d E].
    exists d. exact E.
  - intros raw Hraw.
    assert (P : page_size_v2 raw = "fit-image") by (destruct Hraw; subst; reflexivity).
    unfold images_to_pdf_v2. rewrite P. cbn [images_to_pdf_v2_loop].
    unfold first_page_v2. cbn [String.eqb Ascii.eqb Bool.eqb].
    rewrite jspdf_page_fit_v2.
    edestruct v2_loop_fit as [d E]. exists d. exact E.
Qed.

Definition square_100 : image := {| img_w := 100; img_h := 100 |}.

(** Witness of C5: three images of different shapes. *)
Lemma images_to_pdf_fit_image_pages_witness :
  exists draws,
    images_to_pdf_v2 "fit-JPG/PNG" [square_100; {| img_w := 2000; img_h := 1000 |}; {| img_w := 3; img_h := 5 |}] =
    Some (map fit_page_v2 [square_100; {| img_w := 2000; img_h := 1000 |}; {| img_w := 3; img_h := 5 |}], draws).
Proof.
  refine (proj2 (images_to_pdf_fit_image_pages
                   [square_100; {| img_w := 2000; img_h := 1000 |}; {| img_w := 3; img_h := 5 |}] _)
                "fit-JPG/PNG" _).
  - discriminate.
  - right. reflexivity.
Defined.

(** Counterexample to C5 as stated: [v2] asks jsPDF for a portrait page
    for a square image, where the claim says landscape. *)
Lemma images_to_pdf_square_orientation_counterexample :
  match images_to_pdf_v2 "fit-image" [square_100] with
  | Some ([pg], _) => page_orientation pg = Portrait /\ page_w pg == 100 /\ page_h pg == 100
  | _ => False
  end.
Proof. vm_compute. split; [reflexivity | split; reflexivity]. Qed.

End ImagePdfClaims.

Module ImagePdfLayout.
Import JS ImagePdf ImagePdfFacts.
Local Open Scope Q_scope.

Lemma half_le (a b : Q) : a <= b -> a / 2 <= b / 2.
Proof. intro H. unfold Qdiv. change (/ 2) with (1 # 2). lra. Qed.

(** [v2] on a fixed page size: the image is never enlarged, keeps its
    aspect ratio, and is centred inside the margin of 40 points. *)
Lemma layout_v2_fixed (pageSize : string) (pw ph : Q) (img : image) :
  String.eqb pageSize "fit-image" = false ->
  80 < pw -> 80 < ph -> (0 < img_w img)%Z -> (0 < img_h img)%Z ->
  let d := layout_v2 pageSize pw ph img in
  draw_w d <= inject_Z (img_w img) /\ draw_h d <= inject_Z (img_h img) /\
  draw_w d * inject_Z (img_h img) == draw_h d * inject_Z (img_w img) /\
  40 <= draw_x d /\ 40 <= draw_y d /\
  draw_x d * 2 + draw_w d == pw /\ draw_y d * 2 + draw_h d == ph.
Proof.
  intros Hfit Hpw Hph Hw Hh. unfold layout_v2. rewrite Hfit. cbn [negb].
  set (w := inject_Z (img_w img)). set (h := inject_Z (img_h img)).
  assert (Pw : 0 < w) by (change 0 with (inject_Z 0); unfold w; rewrite <- Zlt_Qlt; exact Hw).
  assert (Ph : 0 < h) by (change 0 with (inject_Z 0); unfold h; rewrite <- Zlt_Qlt; exact Hh).
  set (r := Qmin (Qmin ((pw - 40 * 2) / w) ((ph - 40 * 2) / h)) 1).
  assert (R1 : r <= 1) by apply Q.le_min_r.
  assert (Ra : r <= (pw - 40 * 2) / w)
    by (eapply Qle_trans; [apply Q.le_min_l | apply Q.le_min_l]).
  assert (Rb : r <= (ph - 40 * 2) / h)
    by (eapply Qle_trans; [apply Q.le_min_l | apply Q.le_min_r]).
  assert (Wr1 : w * r <= w) by
    (setoid_replace w with (w * 1) at 2 by ring; apply Qmult_le_l; lra).
  assert (Hr1 : h * r <= h) by
    (setoid_replace h with (h * 1) at 2 by ring; apply Qmult_le_l; lra).
  assert (Wra : w * r <= pw - 80).
  { setoid_replace (pw - 80) with (w * ((pw - 40 * 2) / w)) by (field; lra).
    apply Qmult_le_l; lra. }
  assert (Hrb : h * r <= ph - 80).
  { setoid_replace (ph - 80) with (h * ((ph - 40 * 2) / h)) by (field; lra).
    apply Qmult_le_l; lra. }
  cbn [draw_x draw_y draw_w draw_h].
  repeat split; try assumption.
  - ring.
  - setoid_replace 40 with ((pw - (pw - 80)) / 2) by (field; lra).
    apply half_le. lra.
  - setoid_replace 40 with ((ph - (ph - 80)) / 2) by (field; lra).
    apply half_le. lra.
  - field.
  - field.
Qed.

(** jsPDF's A4 page ([pdf.internal.pageSize] of [v2]). *)
Lemma layout_v2_a4 (img : image) :
  (0 < img_w img)%Z -> (0 < img_h img)%Z ->
  let d := layout_v2 "a4" 595.28 841.89 img in
  draw_w d <= inject_Z (img_w img) /\ draw_h d <= inject_Z (img_h img) /\
  draw_w d * inject_Z (img_h img) == draw_h d * inject_Z (img_w img) /\
  40 <= draw_x d /\ 40 <= draw_y d /\
  draw_x d * 2 + draw_w d == 595.28 /\ draw_y d * 2 + draw_h d == 841.89.
Proof.
  intros Hw Hh. apply layout_v2_fixed; try reflexivity; try assumption;
    unfold Qlt; simpl; lia.
Qed.

Definition img_100 : image := {| img_w := 100; img_h := 100 |}.

(** Claim C2 (code bug).  In the module-level converter ([v1], lines
    309-321) a 100 x 100 image on an A4 page is drawn 555.28 x 555.28
    points: it is enlarged to the inner width of the page, while the
    [DOMContentLoaded] converter ([v2], [Math.min(..., 1)] at line 926)
    draws the same image at 100 x 100. *)
Theorem images_to_pdf_v1_enlarges_small_image :
  match images_to_pdf_v1 "a4" [img_100], images_to_pdf_v2 "a4" [img_100] with
  | Some (_, [d1]), Some (_, [d2]) =>
      draw_w d1 == 555.28 /\ draw_h d1 == 555.28 /\
      inject_Z (img_w img_100) < draw_w d1 /\
      draw_w d2 == 100 /\ draw_h d2 == 100
  | _, _ => False
  end.
Proof. vm_compute. repeat split; reflexivity. Qed.

End ImagePdfLayout.

(** ** Properties of the event handlers *)

Module PageFacts.
Import JS Page Handlers PageSpec.



(** The [finally] block [toggleProgress(progressWrapper, false);
    setButtonLoading(convertBtn, false)] releases the controls, whatever
    the [try] block left behind. *)
Lemma try_finally_released {A} (body : M A) s :
  ui_released (fst (try_finally body (toggleProgress false ;; setButtonLoading false "Working...") s)).
Proof.
  unfold try_finally. destruct (body s) as [s1 r]. cbn.
  destruct (has_progress_el s1) eqn:Hp; cbn; rewrite ?Hp;
    destruct (has_btn_el s1) eqn:Hb; cbn; rewrite ?Hb;
    destruct (btn_original s1); split; cbn; intros; first [reflexivity | congruence].
Qed.

(** The [finally] blocks of the SVG and module-level converters end with
    every control idle. *)
Lemma try_finally_idle_loading {A} (body : M A) s :
  idle (fst (try_finally body (toggleLoading false) s)).
Proof. unfold try_finally. destruct (body s) as [s1 r]. cbn. repeat split; reflexivity. Qed.

(** [setTemporaryStatus] returns normally. *)
Lemma setTemporaryStatus_ok m v d s :
  setTemporaryStatus m v d s = (fst (setTemporaryStatus m v d s), Ok tt).
Proof.
  unfold setTemporaryStatus, setStatus, bind, gets, modify, ret.
  destruct (has_status_el s), (d <=? 0)%Z; reflexivity.
Qed.

Lemma set_toasts_twice a b s : set_toasts a (set_toasts b s) = set_toasts a s.
Proof. destruct s; reflexivity. Qed.

(** [showToast] with a message that is not empty. *)
Lemma showToast_nonempty m ty s :
  String.eqb m "" = false ->
  showToast m ty s = (if has_body s then set_toasts (toasts s ++ [(m, ty)])%list s else s, Ok tt).
Proof. intros Hm. unfold showToast, modify. rewrite Hm. destruct (has_body s); reflexivity. Qed.

Lemma has_body_set_toasts v s : has_body (set_toasts v s) = has_body s.
Proof. reflexivity. Qed.

Lemma toasts_set_toasts v s : toasts (set_toasts v s) = v.
Proof. reflexivity. Qed.

Lemma imagepdf2_scan_rejected files :
  forallb imagepdf2_rejected files = true ->
  forall images pdfs s, exists ts,
    imagepdf2_scan files images pdfs s = (set_toasts (toasts s ++ ts)%list s, Ok (images, pdfs)) /\
    (has_body s = true -> List.length ts = List.length files) /\
    Forall (fun t => snd t = "warning") ts.
Proof.
  induction files as [|f fs IH]; intros Hr images pdfs s.
  - exists []. rewrite app_nil_r. split; [destruct s; reflexivity | split; [reflexivity | constructor]].
  - cbn in Hr. apply andb_prop in Hr as [Hf Hfs].
    unfold imagepdf2_rejected in Hf. cbn [imagepdf2_scan].
    assert (Step : forall m, String.eqb m "" = false ->
      exists ts, (showToast m "warning" ;; imagepdf2_scan fs images pdfs) s =
        (set_toasts (toasts s ++ ts)%list s, Ok (images, pdfs)) /\
        (has_body s = true -> List.length ts = S (List.length fs)) /\
        Forall (fun t => snd t = "warning") ts).
    { intros m Hm. unfold bind at 1. cbv beta. rewrite showToast_nonempty by exact Hm.
      cbv iota beta. destruct (has_body s) eqn:Hb.
      - destruct (IH Hfs images pdfs (set_toasts (toasts s ++ [(m, "warning")])%list s))
          as (ts & Hrun & Hlen & Hw).
        rewrite Hrun. exists ((m, "warning") :: ts). split; [| split].
        + rewrite set_toasts_twice, toasts_set_toasts, <- app_assoc. reflexivity.
        + intros _. cbn. rewrite Hlen; [reflexivity | rewrite has_body_set_toasts; exact Hb].
        + constructor; [reflexivity | exact Hw].
      - destruct (IH Hfs images pdfs s) as (ts & Hrun & Hlen & Hw).
        exists ts. split; [exact Hrun | split; [congruence | exact Hw]]. }
    destruct (MAX_SIZE <? fsize f)%Z eqn:Hsize.
    + apply Step. reflexivity.
    + cbn in Hf. apply andb_prop in Hf as [Hpdf Himg].
      apply negb_true_iff in Hpdf, Himg. rewrite Hpdf, Himg.
      apply Step. reflexivity.
Qed.
End PageFacts.

Module CleanupClaims.
Import JS Page Handlers PageSpec PageFacts.

(** C8: every submission that gets past its preliminary checks (a file is
    selected, the target is supported) and so disables the convert button
    and shows the progress bar ends, whatever the codec adapter does
    (result, [null], exception), with the controls released.  The SVG
    converter and the module-level HEIC and image/PDF converters end idle:
    button enabled, spinner and progress bar hidden.  The WebP converter
    and the [DOMContentLoaded] HEIC and image/PDF converters, which have no
    spinner, end with the convert button enabled and the progress wrapper
    hidden (each when the page has it, as [setButtonLoading] and
    [toggleProgress] do nothing without their element). *)
Theorem submit_cleanup_always_runs :
  (forall text loads exported s,
      current_file s <> None -> text <> "" ->
      idle (fst (svg_renderAndExport text loads exported s))) /\
  (forall canEncodeWebP toFormat rawQuality compressChecked convertImage s,
      current_file s <> None ->
      (String.eqb toFormat "webp" && negb canEncodeWebP) = false ->
      ui_released (fst (webp_submit canEncodeWebP toFormat rawQuality compressChecked convertImage s))) /\
  (forall fromValue toValue rawQuality compressChecked convert s,
      current_file s <> None ->
      ((String.eqb fromValue "jpg" || String.eqb fromValue "png") && String.eqb toValue "heic") = false ->
      ui_released (fst (heic1_submit fromValue toValue rawQuality compressChecked convert s))) /\
  (forall toFormatValue rawQuality compressChecked isHeic heic2any viaCanvas s,
      current_file s <> None ->
      idle (fst (heic2_submit toFormatValue rawQuality compressChecked isHeic heic2any viaCanvas s))) /\
  (forall modeValue convertImagesToPdf convertPdfToImages s,
      selected_files s <> [] ->
      idle (fst (imagepdf1_submit modeValue convertImagesToPdf convertPdfToImages s))) /\
  (forall targetFormat qualityVal convertImagesToPdf convertPdfToImage s,
      selected_files s <> [] ->
      ui_released (fst (imagepdf2_submit targetFormat qualityVal convertImagesToPdf convertPdfToImage s))).
Proof.
  split; [| split; [| split; [| split; [| split]]]].
  - intros text loads exported s Hf Ht. unfold svg_renderAndExport, bind at 1, gets at 1. destruct (current_file s) as [f|]; [|congruence].
    apply String.eqb_neq in Ht. rewrite Ht.
    cbn - [try_finally try_catch]. apply try_finally_idle_loading.
  - intros can toFormat raw checked conv s Hf Hg. unfold webp_submit, bind at 1, gets at 1.
    destruct (current_file s) as [f|]; [|congruence]. rewrite Hg.
    cbn - [try_finally try_catch]. apply try_finally_released.
  - intros from to raw checked conv s Hf Hg. unfold heic1_submit, bind at 1, gets at 1. destruct (current_file s) as [f|]; [|congruence]. rewrite Hg.
    cbn - [try_finally try_catch]. apply try_finally_released.
  - intros to raw checked isHeic h v s Hf. unfold heic2_submit, bind at 1, gets at 1.
    destruct (current_file s) as [f|]; [|congruence].
    cbn - [try_finally try_catch]. apply try_finally_idle_loading.
  - intros mode c1 c2 s Hf. unfold imagepdf1_submit, bind at 1, gets at 1.
    destruct (selected_files s) as [|f fs]; [congruence|].
    cbn - [try_finally try_catch]. apply try_finally_idle_loading.
  - intros target q c1 c2 s Hf. unfold imagepdf2_submit, bind at 1, gets at 1.
    destruct (selected_files s) as [|f fs]; [congruence|].
    cbn - [try_finally try_catch]. apply try_finally_released.
Qed.

(** Witness of C8: the six handlers on concrete pages, with a codec that
    throws or an SVG that fails to load. *)
Lemma submit_cleanup_always_runs_witness :
  idle (fst (svg_renderAndExport "<svg/>" false (Some 1%nat) (with_file drawing_svg))) /\
  ui_released (fst (webp_submit true "png" (Some 80%Z) true (fun _ => throw "boom") (with_file photo_png))) /\
  ui_released (fst (heic1_submit "heic" "jpg" (Some 90%Z) false (fun _ => throw "boom") (with_file big_heic))) /\
  idle (fst (heic2_submit "jpg" (Some 90%Z) true true (fun _ _ => throw "boom") (fun _ _ => ret None) (with_file big_heic))) /\
  idle (fst (imagepdf1_submit "auto" (fun _ => throw "boom") (fun _ => ret tt) (with_files [photo_png]))) /\
  ui_released (fst (imagepdf2_submit "pdf" (Some 90%Z) (fun _ _ => throw "boom") (fun _ _ _ => ret 1%nat) (with_files [photo_png]))).
Proof.
  destruct submit_cleanup_always_runs as (H1 & H2 & H3 & H4 & H5 & H6).
  split; [apply H1; [discriminate | discriminate] |].
  split; [apply H2; [discriminate | reflexivity] |].
  split; [apply H3; [discriminate | reflexivity] |].
  split; [apply H4; discriminate |].
  split; [apply H5; discriminate |].
  apply H6; discriminate.
Defined.
End CleanupClaims.

Module FailureClaims.
Import JS Page Handlers PageSpec PageFacts.



End FailureClaims.

Module SelectionClaims.
Import JS Page Handlers PageSpec PageFacts.

(** C4: a selection whose files are all refused does not clear the working
    set: the WebP and [DOMContentLoaded] HEIC converters keep the current
    file and the image/PDF converter keeps its selected files and its mode.
    Each shows an error status (class [text-danger], when the page has its
    status element) and a warning toast per refused file (when
    [document.body] exists). *)
Theorem rejected_selection_keeps_working_set :
  (forall f s, webp_rejected f = true ->
     let s' := fst (webp_handleFileSelect f s) in
     current_file s' = current_file s /\
     (has_status_el s = true -> status_class s' = "text-danger") /\
     (has_body s = true -> exists msg, toasts s' = (toasts s ++ [(msg, "warning")])%list)) /\
  (forall hasHeic2Any f s, heic1_rejected f = true ->
     let s' := fst (heic1_handleFileSelect hasHeic2Any f s) in
     current_file s' = current_file s /\
     (has_status_el s = true -> status_class s' = "text-danger") /\
     (has_body s = true -> exists msg, toasts s' = (toasts s ++ [(msg, "warning")])%list)) /\
  (forall files s, forallb imagepdf2_rejected files = true ->
     let s' := fst (imagepdf2_handleFileSelection files s) in
     selected_files s' = selected_files s /\ mode_select s' = mode_select s /\
     (has_status_el s = true ->
      status_text s' = "No supported files selected." /\ status_class s' = "text-danger") /\
     exists ts, toasts s' = (toasts s ++ ts)%list /\
       (has_body s = true -> List.length ts = List.length files) /\
       Forall (fun t => snd t = "warning") ts).
Proof.
  split; [| split].
  - intros f s Hr. unfold webp_rejected in Hr. unfold webp_handleFileSelect.
    destruct s as [? ? ? ? ? ? ? ? ? ? ? ? ? ? ? ? ? hs ? ? hy].
    destruct (negb _) eqn:Ht; [| rewrite orb_false_l in Hr; rewrite Hr];
      destruct hs, hy; cbn; repeat split; intros;
      first [reflexivity | discriminate | eexists; reflexivity].
  - intros h f s Hr. unfold heic1_rejected in Hr. unfold heic1_handleFileSelect.
    destruct s as [? ? ? ? ? ? ? ? ? ? ? ? ? ? ? ? ? hs ? ? hy].
    destruct (negb _) eqn:Ht; [| rewrite orb_false_l in Hr; rewrite Hr];
      destruct hs, hy; cbn; repeat split; intros;
      first [reflexivity | discriminate | eexists; reflexivity].
  - intros files s Hr. cbv zeta.
    destruct (imagepdf2_scan_rejected files Hr [] [] s) as (ts & Hrun & Hlen & Hw).
    assert (E : imagepdf2_handleFileSelection files s =
                (if has_status_el s
                 then set_status_class "text-danger" (set_status_text "No supported files selected."
                        (set_toasts (toasts s ++ ts)%list s))
                 else set_toasts (toasts s ++ ts)%list s, Ok tt)).
    { unfold imagepdf2_handleFileSelection, bind at 1. rewrite Hrun. reflexivity. }
    rewrite E. destruct (has_status_el s) eqn:Hs.
    + split; [reflexivity|]. split; [reflexivity|]. split; [intros _; split; reflexivity|].
      exists ts. split; [reflexivity | split; assumption].
    + split; [reflexivity|]. split; [reflexivity|]. split; [congruence|].
      exists ts. split; [reflexivity | split; assumption].
Qed.

(** Witness of C4: a text file offered to the WebP converter, a 25 MB PNG
    to the HEIC converter, and both to the image/PDF converter, each page
    holding an earlier valid selection. *)
Lemma rejected_selection_keeps_working_set_witness :
  current_file (fst (webp_handleFileSelect notes_txt (with_file photo_png))) = Some photo_png /\
  current_file (fst (heic1_handleFileSelect true big_png (with_file photo_png))) = Some photo_png /\
  selected_files (fst (imagepdf2_handleFileSelection [notes_txt; big_png] (with_files [photo_png])))
    = [photo_png].
Proof.
  destruct rejected_selection_keeps_working_set as (H1 & H2 & H3).
  split; [exact (proj1 (H1 notes_txt (with_file photo_png) eq_refl)) |].
  split; [exact (proj1 (H2 true big_png (with_file photo_png) eq_refl)) |].
  exact (proj1 (H3 [notes_txt; big_png] (with_files [photo_png]) eq_refl)).
Defined.

(** Counterexample to C4: the working set is not cleared; the earlier
    selection survives a refused one. *)
Lemma rejected_selection_counterexample :
  current_file (fst (webp_handleFileSelect notes_txt (with_file photo_png))) <> None /\
  selected_files (fst (imagepdf2_handleFileSelection [notes_txt; big_png] (with_files [photo_png])))
    <> [].
Proof. vm_compute. split; discriminate. Qed.
End SelectionClaims.

Module OversizeClaims.
Import JS Page Handlers PageSpec PageFacts.

(** C7: the module-level converters have no size check: [handleFile] of
    converter-heic.js makes a file over 20 MB the selected file, replacing
    the earlier one, and [handleFiles] of converter-image-pdf.js keeps it
    among the selected files; the [DOMContentLoaded] HEIC converter, by
    contrast, leaves its current file unchanged. *)
Theorem oversized_file_selected_by_module_converters :
  (forall f s, (MAX_SIZE < fsize f)%Z ->
     current_file (fst (heic2_handleFile (Some f) s)) = Some f) /\
  (forall files f s, In f files -> (MAX_SIZE < fsize f)%Z ->
     In f (selected_files (fst (imagepdf1_handleFiles files s)))) /\
  (forall hasHeic2Any f s, (MAX_SIZE < fsize f)%Z ->
     current_file (fst (heic1_handleFileSelect hasHeic2Any f s)) = current_file s).
Proof.
  split; [| split].
  - intros f s _. reflexivity.
  - intros files f s Hin Hbig. unfold imagepdf1_handleFiles, bind, modify.
    assert (Hsel : In f (filter (fun f => (0 <? fsize f)%Z) files)).
    { apply filter_In. split; [assumption|]. apply Z.ltb_lt. unfold MAX_SIZE in Hbig. lia. }
    destruct (filter _ files); cbn; [contradiction | destruct s; exact Hsel].
  - intros h f s Hbig. unfold heic1_handleFileSelect.
    apply Z.ltb_lt in Hbig. rewrite Hbig.
    destruct s as [? ? ? ? ? ? ? ? ? ? ? ? ? ? ? ? ? hs ? ? hy].
    destruct (negb _), hs, hy; reflexivity.
Qed.

(** Witness of C7: a 25 MB HEIC file offered to both HEIC converters, and
    a 25 MB PNG to the module-level image/PDF converter. *)
Lemma oversized_file_selected_by_module_converters_witness :
  current_file (fst (heic2_handleFile (Some big_heic) (with_file photo_png))) = Some big_heic /\
  In big_png (selected_files (fst (imagepdf1_handleFiles [big_png] (with_files [photo_png])))) /\
  current_file (fst (heic1_handleFileSelect true big_heic (with_file photo_png))) = Some photo_png.
Proof.
  destruct oversized_file_selected_by_module_converters as (H1 & H2 & H3).
  split; [apply H1; vm_compute; reflexivity |].
  split; [apply H2; [left; reflexivity | vm_compute; reflexivity] |].
  apply H3; vm_compute; reflexivity.
Defined.
End OversizeClaims.

Module UrlClaims.
Import JS Page Handlers PageSpec PageFacts.

(** C3: the SVG converter does not revoke the previous result: after two
    successful conversions, both published object URLs are still alive
    (the module-level HEIC and image/PDF converters publish the same way;
    the WebP, [DOMContentLoaded] HEIC and image/PDF converters revoke
    first). *)
Theorem svg_conversions_keep_old_urls text b1 b2 s :
  current_file s <> None -> text <> "" ->
  let s1 := fst (svg_renderAndExport text true (Some b1) s) in
  let s2 := fst (svg_renderAndExport text true (Some b2) s1) in
  exists u1 u2, link_href s1 = Some u1 /\ link_href s2 = Some u2 /\ u1 <> u2 /\
    In u1 (live_urls s2) /\ In u2 (live_urls s2).
Proof.
  intros Hf Ht. cbv zeta.
  destruct s as [? ? ? ? ? ? ? ? n live ? [f|] ? ? ? ? ? ? ? ? ?]; cbn in Hf; [|congruence].
  apply String.eqb_neq in Ht.
  unfold svg_renderAndExport at 2. unfold bind at 1, gets at 1. cbn - [svg_renderAndExport].
  rewrite Ht. cbn - [svg_renderAndExport].
  unfold svg_renderAndExport. unfold bind at 1, gets at 1. cbn - [List.remove].
  rewrite Ht. cbn - [List.remove].
  exists (S n), (S (S (S n))).
  repeat split; try reflexivity; try lia.
  right. apply in_in_remove; [lia|]. right; left; reflexivity.
Qed.

(** Witness of C3: two conversions of one SVG on a fresh page. *)
Lemma svg_conversions_keep_old_urls_witness :
  let s1 := fst (svg_renderAndExport "<svg/>" true (Some 1%nat) (with_file drawing_svg)) in
  let s2 := fst (svg_renderAndExport "<svg/>" true (Some 2%nat) s1) in
  exists u1 u2, link_href s1 = Some u1 /\ link_href s2 = Some u2 /\ u1 <> u2 /\
    In u1 (live_urls s2) /\ In u2 (live_urls s2).
Proof.
  exact (svg_conversions_keep_old_urls "<svg/>" 1%nat 2%nat (with_file drawing_svg)
           ltac:(discriminate) ltac:(discriminate)).
Defined.
End UrlClaims.

Module QualityClaims.
Import JS Page Handlers.
Local Open Scope Q_scope.

(** C9: with the compress switch off, the quality handed to the encoder is
    [max(slider/100, 0.95)] in the [DOMContentLoaded] HEIC converter, [1]
    in the module-level one (which passes it to heic2any for a JPEG
    target), and [max(slider/100, 0.9)] in the WebP converter, so never
    below the floor and never below the slider; with the switch on it is
    [slider/100]. *)
Theorem compress_off_raises_quality (slider : Z) :
  heic1_quality (Some slider) true = inject_Z slider / 100 /\
  heic1_quality (Some slider) false = Qmax (inject_Z slider / 100) (95 # 100) /\
  heic2_quality (Some slider) true = Finite (inject_Z slider / 100) /\
  heic2_quality (Some slider) false = Finite 1 /\
  heic2any_quality "image/jpeg" (heic2_quality (Some slider) false) = Some (Finite 1) /\
  webp_quality (Some slider) true = inject_Z slider / 100 /\
  webp_quality (Some slider) false = Qmax (inject_Z slider / 100) (9 # 10) /\
  95 # 100 <= heic1_quality (Some slider) false /\
  inject_Z slider / 100 <= heic1_quality (Some slider) false /\
  9 # 10 <= webp_quality (Some slider) false /\
  inject_Z slider / 100 <= webp_quality (Some slider) false.
Proof.
  repeat split; try reflexivity; cbn [heic1_quality webp_quality negb].
  - apply Q.le_max_r.
  - apply Q.le_max_l.
  - apply Q.le_max_r.
  - apply Q.le_max_l.
Qed.
End QualityClaims.

(** ** Further properties of the converters *)

Module NamesFacts.
Import Names Handlers2.

Lemma append_assoc_s (a b c : string) : (a ++ b) ++ c = a ++ (b ++ c).
Proof. induction a as [|x a IH]; simpl; [reflexivity | now rewrite IH]. Qed.

Lemma list_ascii_of_string_app (a b : string) :
  list_ascii_of_string (a ++ b) = (list_ascii_of_string a ++ list_ascii_of_string b)%list.
Proof. induction a as [|x a IH]; simpl; [reflexivity | now rewrite IH]. Qed.

Lemma replace_char_app (c : ascii) (rep a b : string) :
  replace_char c rep (a ++ b) = replace_char c rep a ++ replace_char c rep b.
Proof.
  induction a as [|x a IH]; simpl; [reflexivity|].
  destruct (x =? c)%char; rewrite IH; [now rewrite append_assoc_s | reflexivity].
Qed.

(** One character of the input and what [escapeHtml] makes of it. *)
Definition esc_char (c : ascii) : string :=
  if (c =? "&")%char then "&amp;"
  else if (c =? "<")%char then "&lt;"
  else if (c =? ">")%char then "&gt;"
  else String c "".

Lemma escapeHtml_cons (c : ascii) (r : string) :
  escapeHtml (String c r) = esc_char c ++ escapeHtml r.
Proof.
  unfold escapeHtml, esc_char; cbn [replace_char].
  destruct (c =? "&")%char eqn:E1.
  { rewrite !replace_char_app; reflexivity. }
  cbn [replace_char]; destruct (c =? "<")%char eqn:E2.
  { rewrite !replace_char_app; reflexivity. }
  cbn [replace_char]; destruct (c =? ">")%char eqn:E3; reflexivity.
Qed.

Lemma html_text_escapeHtml (s : string) : html_text (escapeHtml s) = drop_nul s.
Proof.
  induction s as [|c r IH]; [reflexivity|].
  rewrite escapeHtml_cons; unfold esc_char.
  destruct (c =? "&")%char eqn:E1.
  { apply Ascii.eqb_eq in E1; subst c; cbn; now rewrite IH. }
  destruct (c =? "<")%char eqn:E2.
  { apply Ascii.eqb_eq in E2; subst c; cbn; now rewrite IH. }
  destruct (c =? ">")%char eqn:E3.
  { apply Ascii.eqb_eq in E3; subst c; cbn; now rewrite IH. }
  cbn [append html_text drop_nul]; rewrite E1, IH; reflexivity.
Qed.

(** The preprocessing commutes with [escapeHtml]: the references it
    writes hold no CR and no LF. *)
Lemma html_preprocess_escapeHtml (b : bool) (s : string) :
  html_preprocess_from b (escapeHtml s) = escapeHtml (html_preprocess_from b s).
Proof.
  revert b; induction s as [|c r IH]; intros b; [reflexivity|].
  rewrite escapeHtml_cons; unfold esc_char.
  destruct (c =? "&")%char eqn:E1.
  { apply Ascii.eqb_eq in E1; subst c; cbn - [escapeHtml].
    rewrite escapeHtml_cons; unfold esc_char; cbn - [escapeHtml]. now rewrite IH. }
  destruct (c =? "<")%char eqn:E2.
  { apply Ascii.eqb_eq in E2; subst c; cbn - [escapeHtml].
    rewrite escapeHtml_cons; unfold esc_char; cbn - [escapeHtml]. now rewrite IH. }
  destruct (c =? ">")%char eqn:E3.
  { apply Ascii.eqb_eq in E3; subst c; cbn - [escapeHtml].
    rewrite escapeHtml_cons; unfold esc_char; cbn - [escapeHtml]. now rewrite IH. }
  cbn [append html_preprocess_from].
  destruct (c =? CR)%char eqn:Ecr.
  { apply Ascii.eqb_eq in Ecr; subst c. rewrite IH, escapeHtml_cons. reflexivity. }
  destruct ((c =? LF)%char && b) eqn:Elf.
  { apply IH. }
  rewrite IH, escapeHtml_cons. unfold esc_char. rewrite E1, E2, E3. reflexivity.
Qed.

Lemma html_preprocess_plain (s : string) :
  forallb (fun c => negb (c =? CR)%char) (list_ascii_of_string s) = true ->
  html_preprocess_from false s = s.
Proof.
  induction s as [|c r IH]; intros H; [reflexivity|].
  cbn in H. apply andb_prop in H as [Hc Hr]. apply negb_true_iff in Hc.
  cbn. rewrite Hc, andb_false_r, IH by exact Hr. reflexivity.
Qed.

Lemma drop_nul_plain (s : string) :
  forallb (fun c => negb (c =? NUL)%char) (list_ascii_of_string s) = true ->
  drop_nul s = s.
Proof.
  induction s as [|c r IH]; intros H; [reflexivity|].
  cbn in H. apply andb_prop in H as [Hc Hr]. apply negb_true_iff in Hc.
  cbn. rewrite Hc, IH by exact Hr. reflexivity.
Qed.

Lemma escapeHtml_no_angle (s : string) :
  ~ In "<"%char (list_ascii_of_string (escapeHtml s)) /\
  ~ In ">"%char (list_ascii_of_string (escapeHtml s)).
Proof.
  induction s as [|c r [IH1 IH2]]; [simpl; tauto|].
  rewrite escapeHtml_cons, list_ascii_of_string_app; unfold esc_char.
  split; rewrite in_app_iff; intros [H|H]; try contradiction.
  all: destruct (c =? "&")%char eqn:E1; [cbn in H; intuition discriminate|].
  all: destruct (c =? "<")%char eqn:E2; [cbn in H; intuition discriminate|].
  all: destruct (c =? ">")%char eqn:E3; [cbn in H; intuition discriminate|].
  all: cbn in H; destruct H as [H|H]; [subst c|contradiction]; discriminate.
Qed.


(** *** File names *)

Lemma ext_chars_dot (a b : string) : ext_chars (a ++ String "." b) = false.
Proof. induction a as [|x a IH]; simpl; [reflexivity|]. now rewrite IH, andb_false_r. Qed.

Lemma replace_ext_ext (base ext : string) :
  ext <> "" -> ext_chars ext = true -> replace_ext (base ++ "." ++ ext) = base.
Proof.
  intros Hne Hx; induction base as [|c b IH].
  - destruct ext as [|e ext]; [congruence|].
    cbn -[ext_chars]. rewrite Hx. reflexivity.
  - change ((String c b ++ "." ++ ext)) with (String c (b ++ String "." ext)).
    cbn [replace_ext].
    assert (ext_at (String c (b ++ String "." ext)) = false) as ->.
    { unfold ext_at. rewrite ext_chars_dot, !andb_false_r. reflexivity. }
    exact (f_equal (String c) IH).
Qed.

(** [replace_ext] leaves [s] alone or removes a final extension. *)
Lemma replace_ext_cases (s : string) :
  replace_ext s = s \/
  exists ext, ext <> "" /\ ext_chars ext = true /\ s = replace_ext s ++ "." ++ ext.
Proof.
  induction s as [|c r IH]; [now left|].
  cbn [replace_ext]. destruct (ext_at (String c r)) eqn:E.
  - right. exists r. unfold ext_at in E.
    apply andb_prop in E as [E Hr]; apply andb_prop in E as [Hc Hne].
    apply Ascii.eqb_eq in Hc; subst c.
    split; [intros ->; discriminate|]. split; [assumption|reflexivity].
  - destruct IH as [-> | (ext & H1 & H2 & H3)]; [now left|].
    right. exists ext. split; [assumption|]. split; [assumption|].
    cbn. f_equal. exact H3.
Qed.

Lemma lastIndexOf_dot_none (s : string) :
  ~ In "."%char (list_ascii_of_string s) -> lastIndexOf_dot s = None.
Proof.
  induction s as [|c r IH]; intros H; [reflexivity|].
  cbn in *. rewrite IH by tauto.
  destruct (c =? ".")%char eqn:E; [|reflexivity].
  apply Ascii.eqb_eq in E; subst; tauto.
Qed.

Lemma lastIndexOf_dot_ext (base ext : string) :
  ~ In "."%char (list_ascii_of_string ext) ->
  lastIndexOf_dot (base ++ "." ++ ext) = Some (String.length base).
Proof.
  intros H; induction base as [|c b IH]; cbn.
  - now rewrite lastIndexOf_dot_none.
  - cbn in IH. now rewrite IH.
Qed.

Lemma substring_prefix (a b : string) : substring 0 (String.length a) (a ++ b) = a.
Proof. induction a as [|c a IH]; cbn; [now destruct b|now rewrite IH]. Qed.

(** *** Byte counts *)

Lemma fb_loop_closed (b : Z) :
  formatBytes_loop 3 (inject_Z b) 0 =
  if (b <? 1024)%Z then (inject_Z b, 0%nat)
  else if (b <? 1024 * 1024)%Z then (inject_Z b / 1024, 1%nat)
  else if (b <? 1024 * 1024 * 1024)%Z then (inject_Z b / 1024 / 1024, 2%nat)
  else (inject_Z b / 1024 / 1024 / 1024, 3%nat).
Proof.
  cbn [formatBytes_loop].
  unfold Qle_bool at 1; cbn [Qnum Qden inject_Z].
  destruct (Z.ltb_spec b 1024); [rewrite (proj2 (Z.leb_gt _ _)) by lia; reflexivity|].
  rewrite (proj2 (Z.leb_le _ _)) by lia.
  unfold Qle_bool at 1; cbn [Qnum Qden inject_Z Qdiv Qmult Qinv].
  destruct (Z.ltb_spec b (1024*1024)); [rewrite (proj2 (Z.leb_gt _ _)) by lia; reflexivity|].
  rewrite (proj2 (Z.leb_le _ _)) by lia.
  unfold Qle_bool at 1; cbn [Qnum Qden inject_Z Qdiv Qmult Qinv].
  destruct (Z.ltb_spec b (1024*1024*1024)); [rewrite (proj2 (Z.leb_gt _ _)) by lia; reflexivity|].
  rewrite (proj2 (Z.leb_le _ _)) by lia.
  reflexivity.
Qed.

Lemma div_eq (a d q : Z) : (0 < d)%Z -> (d * q <= a < d * q + d)%Z -> (a / d)%Z = q.
Proof. intros Hd H. symmetry. apply (Z.div_unique_pos _ _ _ (a - d * q)); lia. Qed.

Lemma toFixed_int (b : Z) : (0 <= b)%Z -> toFixed (inject_Z b) 0 = Z_to_dec b.
Proof.
  intros H. unfold toFixed, JS.Qlt_bool, Qle_bool; cbn [Qnum Qden inject_Z].
  rewrite (proj2 (Z.leb_le _ _)) by lia. cbn [negb].
  unfold toFixed_nonneg; cbn [Nat.eqb]. f_equal.
  unfold Qfloor; cbn. apply div_eq; lia.
Qed.

Lemma formatBytes_1024KB_helper (b : Z) :
  (1048571 <= b < 1048576)%Z -> svg_formatBytes b = "1024.00 KB".
Proof.
  intros H. unfold svg_formatBytes. rewrite fb_loop_closed.
  rewrite (proj2 (Z.ltb_ge b 1024)) by lia.
  rewrite (proj2 (Z.ltb_lt b (1024*1024))) by lia.
  unfold toFixed, JS.Qlt_bool, Qle_bool; cbn [Qnum Qden inject_Z Qdiv Qmult Qinv].
  rewrite (proj2 (Z.leb_le _ _)) by lia. cbn [negb].
  unfold toFixed_nonneg.
  replace (Qfloor _) with 102400%Z by (unfold Qfloor; cbn; symmetry; apply div_eq; lia).
  reflexivity.
Qed.

Lemma formatBytes_1024MB_helper (b : Z) :
  (1073736582 <= b < 1073741824)%Z -> svg_formatBytes b = "1024.00 MB".
Proof.
  intros H. unfold svg_formatBytes. rewrite fb_loop_closed.
  rewrite (proj2 (Z.ltb_ge b 1024)) by lia.
  rewrite (proj2 (Z.ltb_ge b (1024*1024))) by lia.
  rewrite (proj2 (Z.ltb_lt b (1024*1024*1024))) by lia.
  unfold toFixed, JS.Qlt_bool, Qle_bool; cbn [Qnum Qden inject_Z Qdiv Qmult Qinv].
  rewrite (proj2 (Z.leb_le _ _)) by lia. cbn [negb].
  unfold toFixed_nonneg.
  replace (Qfloor _) with 102400%Z by (unfold Qfloor; cbn; symmetry; apply div_eq; lia).
  reflexivity.
Qed.

Lemma ext_chars_no_dot (ext : string) :
  ext_chars ext = true -> ~ In "."%char (list_ascii_of_string ext).
Proof.
  induction ext as [|c r IH]; [intros _ []|]. cbn. intros H.
  apply andb_prop in H as [Hc Hr]. intros [E|E]; [subst c; discriminate|exact (IH Hr E)].
Qed.

Lemma replace_ext_trailing_dot (base : string) : replace_ext (base ++ ".") = base ++ ".".
Proof.
  induction base as [|c b IH]; [reflexivity|].
  change (String c b ++ ".") with (String c (b ++ ".")). cbn [replace_ext].
  assert (ext_at (String c (b ++ ".")) = false) as ->.
  { unfold ext_at. rewrite (ext_chars_dot b ""), !andb_false_r. reflexivity. }
  exact (f_equal (String c) IH).
Qed.
End NamesFacts.

Module NamesExtras.
Import Names Handlers2 NamesFacts.

(** X1: the escaped text contains no [<] and no [>], and an HTML parser
    reading it in [renderFileSummary] gets back the original string with
    the parser's own changes only: each CR LF pair and each lone CR read
    as one LF, and NUL characters dropped; so it gets back exactly the
    original string when this has no CR and no NUL. *)
Theorem escapeHtml_safe_and_lossless (s : string) :
  html_parse_text (escapeHtml s) = drop_nul (html_preprocess s) /\
  (html_plain s = true -> html_parse_text (escapeHtml s) = s) /\
  ~ In "<"%char (list_ascii_of_string (escapeHtml s)) /\
  ~ In ">"%char (list_ascii_of_string (escapeHtml s)).
Proof.
  assert (E : html_parse_text (escapeHtml s) = drop_nul (html_preprocess s)).
  { unfold html_parse_text, html_preprocess.
    rewrite html_preprocess_escapeHtml. apply html_text_escapeHtml. }
  split; [exact E|]. split; [|apply escapeHtml_no_angle].
  intros H. rewrite E. unfold html_plain in H.
  assert (Hcr : forallb (fun c => negb (c =? CR)%char) (list_ascii_of_string s) = true).
  { apply forallb_forall. intros c Hc. eapply forallb_forall in H; [|exact Hc].
    apply andb_prop in H. apply H. }
  assert (Hnul : forallb (fun c => negb (c =? NUL)%char) (list_ascii_of_string s) = true).
  { apply forallb_forall. intros c Hc. eapply forallb_forall in H; [|exact Hc].
    apply andb_prop in H. apply H. }
  unfold html_preprocess. rewrite html_preprocess_plain by exact Hcr.
  apply drop_nul_plain, Hnul.
Qed.

(** Witness of X1: a name with markup characters comes back unchanged; a
    CR LF pair comes back as one LF. *)
Lemma escapeHtml_safe_and_lossless_witness :
  html_parse_text (escapeHtml "a<b>&amp;.png") = "a<b>&amp;.png" /\
  html_parse_text (escapeHtml (String CR (String LF "x<y"))) = String LF "x<y".
Proof.
  split.
  - exact (proj1 (proj2 (escapeHtml_safe_and_lossless "a<b>&amp;.png")) eq_refl).
  - exact (proj1 (escapeHtml_safe_and_lossless (String CR (String LF "x<y")))).
Defined.

(** X2: for a name [base.ext] whose extension is nonempty and holds no
    dot and no slash, [generateDownloadName] gives
    [base-converted.newExt], and [stripExtension] and [getBaseName] both
    give [base]. *)
Theorem download_names_drop_final_extension (base ext newExt : string) :
  ext <> "" -> ext_chars ext = true ->
  generateDownloadName (base ++ "." ++ ext) newExt = base ++ "-converted." ++ newExt /\
  stripExtension (base ++ "." ++ ext) = base /\
  getBaseName (base ++ "." ++ ext) = base.
Proof.
  intros Hne Hx. split; [|split].
  - unfold generateDownloadName. rewrite replace_ext_ext by assumption. reflexivity.
  - unfold stripExtension. rewrite replace_ext_ext by assumption.
    destruct base; reflexivity.
  - unfold getBaseName. rewrite lastIndexOf_dot_ext by (apply ext_chars_no_dot; exact Hx).
    apply substring_prefix.
Qed.

Lemma download_names_drop_final_extension_witness :
  generateDownloadName "photo.png" "jpg" = "photo-converted.jpg" /\
  stripExtension "photo.png" = "photo" /\ getBaseName "photo.png" = "photo".
Proof.
  exact (download_names_drop_final_extension "photo" "png" "jpg"
           ltac:(discriminate) ltac:(reflexivity)).
Defined.

(** X3: [generateDownloadName] either keeps the whole original name as
    the stem, or drops exactly one final [.ext] whose extension is
    nonempty and holds no dot and no slash. *)
Theorem download_name_stem_cases (original newExt : string) :
  generateDownloadName original newExt = original ++ "-converted." ++ newExt \/
  exists stem ext, ext <> "" /\ ext_chars ext = true /\ original = stem ++ "." ++ ext /\
    generateDownloadName original newExt = stem ++ "-converted." ++ newExt.
Proof.
  unfold generateDownloadName.
  destruct (replace_ext_cases original) as [E | (ext & H1 & H2 & H3)].
  - left. rewrite E. reflexivity.
  - right. exists (replace_ext original), ext. auto.
Qed.

(** X4: a name ending in a dot: [getBaseName] drops the final dot, while
    [stripExtension] and [generateDownloadName] keep it. *)
Theorem trailing_dot_names_disagree (base newExt : string) :
  getBaseName (base ++ ".") = base /\
  stripExtension (base ++ ".") = base ++ "." /\
  generateDownloadName (base ++ ".") newExt = base ++ ".-converted." ++ newExt.
Proof.
  split; [|split].
  - unfold getBaseName.
    change (base ++ ".") with (base ++ "." ++ "").
    rewrite lastIndexOf_dot_ext by (intros []). apply substring_prefix.
  - unfold stripExtension. rewrite replace_ext_trailing_dot. destruct base; reflexivity.
  - unfold generateDownloadName. rewrite replace_ext_trailing_dot, append_assoc_s. reflexivity.
Qed.

(** X5: below 1024 bytes, [formatBytes] of converter-svg.js prints the
    byte count in decimal with no fraction, followed by [" B"]. *)
Theorem svg_formatBytes_small (b : Z) :
  (0 <= b < 1024)%Z -> svg_formatBytes b = Z_to_dec b ++ " B".
Proof.
  intros H. unfold svg_formatBytes. rewrite fb_loop_closed.
  rewrite (proj2 (Z.ltb_lt b 1024)) by lia. cbn [Nat.eqb nth svg_units].
  rewrite toFixed_int by lia. reflexivity.
Qed.

Lemma svg_formatBytes_small_witness : svg_formatBytes 512 = "512 B".
Proof. exact (svg_formatBytes_small 512 ltac:(lia)). Defined.

(** X6: [formatBytes] of converter-svg.js rounds up to the next unit
    without switching to it: from 1048571 to 1048575 bytes it prints
    ["1024.00 KB"], and from 1073736582 to 1073741823 bytes
    ["1024.00 MB"]. *)
Theorem svg_formatBytes_1024_edges (kb mb : Z) :
  (1048571 <= kb < 1048576)%Z -> (1073736582 <= mb < 1073741824)%Z ->
  svg_formatBytes kb = "1024.00 KB" /\ svg_formatBytes mb = "1024.00 MB".
Proof.
  intros Hk Hm. split; [apply formatBytes_1024KB_helper|apply formatBytes_1024MB_helper]; assumption.
Qed.

Lemma svg_formatBytes_1024_edges_witness :
  svg_formatBytes 1048575 = "1024.00 KB" /\ svg_formatBytes 1073741823 = "1024.00 MB".
Proof. exact (svg_formatBytes_1024_edges 1048575 1073741823 ltac:(lia) ltac:(lia)). Defined.

End NamesExtras.

Module SwitchExtras.
Import JS Page Handlers PageSpec Switches. Import PageFacts.

(** The status part of a swap, on a page with its status element. *)
Ltac status_part :=
  let Hs := fresh "Hs" in
  intros Hs; unfold setTemporaryStatus, setStatus, bind, gets, modify, ret;
  repeat (rewrite Hs; cbn); repeat split.

(** X7: the swap button of the main-page image/PDF converter always
    leaves one of the two consistent pairs (PDF to images with target
    JPG, or images to PDF with target PDF), and it picks PDF to images
    exactly when the mode was images to PDF with target PDF. *)
Theorem imagepdf1_swap_pairs (mode target : string) :
  (imagepdf1_swap mode target = ("pdf-to-image", "jpg") \/
   imagepdf1_swap mode target = ("image-to-pdf", "pdf")) /\
  (fst (imagepdf1_swap mode target) = "pdf-to-image" <->
   mode = "image-to-pdf" /\ target = "pdf").
Proof.
  unfold imagepdf1_swap.
  destruct (String.eqb_spec mode "image-to-pdf"); destruct (String.eqb_spec target "pdf");
    [|destruct (String.eqb_spec mode "pdf-to-image")..]; subst; cbn;
    (split; [tauto|]); split; intros; intuition congruence.
Qed.

(** X8: [updateModeUI] of the image/PDF converter page leaves the mode
    unchanged, selects the PDF output exactly when the mode is not
    PDF to images, and never leaves the selected output option disabled. *)
Theorem imagepdf2_updateModeUI_consistent (fs : format_select) (s : st) :
  let '(s', r) := imagepdf2_updateModeUI fs s in
  exists fs', r = Ok fs' /\
  mode_select s' = mode_select s /\
  String.eqb (to_value fs') "pdf" = negb (isPdfToImagesMode (mode_select s')) /\
  (String.eqb (to_value fs') "pdf" && pdf_disabled fs' ||
    String.eqb (to_value fs') "jpg" && jpg_disabled fs' ||
    String.eqb (to_value fs') "png" && png_disabled fs') = false.
Proof.
  destruct s as [? ? ? ? ? ? ? ? ? ? ? ? ? mode ? ? ? hs ? ? ?].
  unfold imagepdf2_updateModeUI; cbn - [isPdfToImagesMode String.eqb].
  destruct (isPdfToImagesMode mode) eqn:E, hs; cbn - [isPdfToImagesMode String.eqb]; eexists; (split; [reflexivity|]);
    (split; [reflexivity|]); rewrite E.
  1,2: cbn [to_value pdf_disabled jpg_disabled png_disabled];
    destruct (to_value fs =? "pdf") eqn:Ep; [split; reflexivity|];
    rewrite Ep; split; [reflexivity|]; rewrite !andb_false_r; reflexivity.
  all: split; reflexivity.
Qed.

(** X9: the swap button of the image/PDF converter page flips the mode
    between the PDF-to-images family and the images-to-PDF family and
    makes the output selection consistent with the new mode.  On a page
    with its status element it shows ["Modes swapped."] as a muted status
    (class [text-secondary]) and schedules, for 1500 ms later, the return
    of the mode description that [updateModeUI] had just written. *)
Theorem imagepdf2_swap_flips (fs : format_select) (s : st) :
  let '(s', r) := imagepdf2_swap fs s in
  exists fs', r = Ok fs' /\
  isPdfToImagesMode (mode_select s') = negb (isPdfToImagesMode (mode_select s)) /\
  String.eqb (to_value fs') "pdf" = negb (isPdfToImagesMode (mode_select s')) /\
  (has_status_el s = true ->
   status_text s' = "Modes swapped." /\ status_class s' = "text-secondary" /\
   status_timers s' =
     (status_timers s ++
      [(if isPdfToImagesMode (mode_select s') then "Mode: PDF → images (JPG/PNG)."
        else "Mode: images → PDF document.", "muted")])%list).
Proof.
  destruct s as [? ? ? ? ? ? ? ? ? ? ? ? ? mode ? ? ? hs ? ? ?].
  unfold imagepdf2_swap, imagepdf2_updateModeUI; cbn - [isPdfToImagesMode].
  destruct (isPdfToImagesMode mode) eqn:E, hs; cbn; eexists; (split; [reflexivity|]);
    cbn; (split; [reflexivity|]).
  all: destruct (to_value fs =? "pdf") eqn:Ep; [|rewrite ?Ep]; repeat split; intros; discriminate.
Qed.

(** X10: the swap button of the WebP converter puts the old target in the
    source select, and the new target is never [auto]: it is the old
    source when that was not [auto]; otherwise, unless the current file
    has a WebP, JPEG or PNG type, a fallback different from the old
    target.  On a page with its status element the status is
    ["Formats swapped."], muted (class [text-secondary]), and the status
    shown before comes back 1500 ms later. *)
Theorem webp_swap_target (prevFrom prevTo : string) (s : st) :
  let '(s', r) := webp_swap prevFrom prevTo s in
  exists newTo, r = Ok (prevTo, newTo) /\ newTo <> "auto" /\
  (prevFrom <> "auto" -> newTo = prevFrom) /\
  (prevFrom = "auto" ->
   (forall f, current_file s = Some f -> ~ In (ftype f) ["image/webp"; "image/jpeg"; "image/png"]) ->
   newTo <> prevTo) /\
  (has_status_el s = true ->
   status_text s' = "Formats swapped." /\ status_class s' = "text-secondary" /\
   status_timers s' = (status_timers s ++ [(status_text s, variant_of_class (status_class s))])%list).
Proof.
  unfold webp_swap; cbn - [String.eqb setTemporaryStatus].
  unfold bind at 1. rewrite setTemporaryStatus_ok; cbn - [String.eqb setTemporaryStatus].
  destruct (String.eqb_spec prevFrom "auto") as [->|Hf].
  - (* the fallback differs from the new source and is never [auto] *)
    assert (Hfb : forall x : string,
      x = (if String.eqb prevTo "webp" then "jpg" else if String.eqb prevTo "jpg" then "webp" else "webp") ->
      x <> "auto" /\ x <> prevTo).
    { intros x ->. destruct (String.eqb_spec prevTo "webp") as [->|H1]; [split; discriminate|].
      destruct (String.eqb_spec prevTo "jpg") as [->|H2]; split; try discriminate; congruence. }
    destruct (current_file s) as [f|] eqn:Ecf.
    + unfold webp_mimeToFormat.
      destruct (String.eqb_spec (ftype f) "") as [He|He].
      { edestruct (Hfb _ eq_refl) as [A B]. eexists; split; [reflexivity|].
        split; [exact A|]. split; [congruence|]. split; [intros _ _; exact B|]. status_part. }
      destruct (String.eqb_spec (ftype f) "image/webp") as [Ht|Ht];
        [|destruct (String.eqb_spec (ftype f) "image/jpeg") as [Ht'|Ht'];
          [|destruct (String.eqb_spec (ftype f) "image/png") as [Ht''|Ht'']]];
        cbn -[String.eqb];
        [ eexists; split; [reflexivity|]; split; [discriminate|]; split; [congruence|];
          split; [intros _ Hn; exfalso; apply (Hn f eq_refl); rewrite ?Ht, ?Ht', ?Ht''; cbn; tauto|];
          status_part .. | ].
      destruct (String.eqb (ftype f) "image/gif");
        edestruct (Hfb _ eq_refl) as [A B]; eexists; split; try reflexivity;
        (split; [exact A|]); (split; [congruence|]); (split; [intros _ _; exact B|]); status_part.
    + edestruct (Hfb _ eq_refl) as [A B]. eexists; split; [reflexivity|].
      split; [exact A|]. split; [congruence|]. split; [intros _ _; exact B|]. status_part.
  - eexists; split; [reflexivity|]. split; [exact Hf|]. split; [reflexivity|].
    split; [intros; contradiction|]. status_part.
Qed.

(** X11: with the source select on [auto], a file that passes the
    type and size checks of the [DOMContentLoaded] HEIC converter is never
    refused as an unknown source format. *)
Theorem heic1_accepted_source_known (hasHeic2Any windowHeic2any : bool) (f : file) (toFormat : string) :
  heic1_rejected f = false ->
  heic1_convertHeicOrImage hasHeic2Any windowHeic2any f "auto" toFormat <>
  Rejected "Unsupported or unknown source format.".
Proof.
  unfold heic1_rejected, heic1_allowedTypes; intros H.
  apply orb_false_iff in H as [H _]. apply negb_false_iff in H.
  unfold heic1_convertHeicOrImage, heic1_mimeToFormat; cbn -[String.eqb] in *.
  destruct (String.eqb_spec (ftype f) "image/heic") as [->|];
    [|destruct (String.eqb_spec (ftype f) "image/heif") as [->|];
      [|destruct (String.eqb_spec (ftype f) "image/jpeg") as [->|];
        [|destruct (String.eqb_spec (ftype f) "image/png") as [->|]]]];
    cbn; try (destruct hasHeic2Any, windowHeic2any; cbn; discriminate).
  all: try discriminate.
Qed.

Lemma heic1_accepted_source_known_witness :
  heic1_convertHeicOrImage true true photo_png "auto" "jpg" <>
  Rejected "Unsupported or unknown source format.".
Proof. exact (heic1_accepted_source_known true true photo_png "jpg" ltac:(reflexivity)). Defined.

(** X12: in the [DOMContentLoaded] HEIC converter the encoder is always asked
    for [image/png] when the download is named [.png] and for
    [image/jpeg] otherwise, whichever path (heic2any or canvas) runs. *)
Theorem heic1_output_mime_matches_name (hasHeic2Any windowHeic2any : bool) (f : file)
    (fromFormat toValue : string) :
  match heic1_convertHeicOrImage hasHeic2Any windowHeic2any f fromFormat toValue with
  | Heic2anyCall m | CanvasCall m =>
    m = (if String.eqb (heic1_ext toValue) "png" then "image/png" else "image/jpeg")
  | Rejected _ => True
  end.
Proof.
  unfold heic1_convertHeicOrImage, heic1_ext, convertViaCanvas_mime.
  assert (Hx : (if String.eqb (if String.eqb toValue "png" then "png" else "jpg") "png"
                then "image/png" else "image/jpeg") =
               (if String.eqb toValue "png" then "image/png" else "image/jpeg"))
    by (destruct (String.eqb toValue "png"); reflexivity).
  rewrite Hx.
  destruct (if String.eqb fromFormat "auto" then heic1_mimeToFormat (ftype f) else Some fromFormat)
    as [e|]; [|exact I].
  destruct (String.eqb e ""); [exact I|].
  destruct (String.eqb e "heic"); [|reflexivity].
  destruct (negb hasHeic2Any || negb windowHeic2any); [exact I|reflexivity].
Qed.

End SwitchExtras.

Module SessionFacts.
Import JS Page Handlers PageSpec Switches Handlers2.

Definition one_live (s : st) : Prop :=
  forall u, In u (live_urls s) -> current_object_url s = Some u.

Definition preserves (P : st -> Prop) {A} (m : M A) : Prop :=
  forall s, P s -> P (fst (m s)).

Section Preserves.
Variable P : st -> Prop.

Lemma preserves_ret {A} (a : A) : preserves P (ret a).
Proof. intros s H; exact H. Qed.

Lemma preserves_throw {A} (e : string) : preserves P (@throw A e).
Proof. intros s H; exact H. Qed.

Lemma preserves_gets {A} (f : st -> A) : preserves P (gets f).
Proof. intros s H; exact H. Qed.

Lemma preserves_bind {A B} (m : M A) (k : A -> M B) :
  preserves P m -> (forall a, preserves P (k a)) -> preserves P (bind m k).
Proof.
  intros Hm Hk s Hs. unfold bind. specialize (Hm s Hs).
  destruct (m s) as [s1 [a|e]]; cbn in *; [apply Hk|]; exact Hm.
Qed.

Lemma preserves_try_catch {A} (body : M A) (h : string -> M A) :
  preserves P body -> (forall e, preserves P (h e)) -> preserves P (try_catch body h).
Proof.
  intros Hb Hh s Hs. unfold try_catch. specialize (Hb s Hs).
  destruct (body s) as [s1 [a|e]]; cbn in *; [exact Hb|apply Hh; exact Hb].
Qed.

Lemma preserves_try_finally {A} (body : M A) (fin : M unit) :
  preserves P body -> preserves P fin -> preserves P (try_finally body fin).
Proof.
  intros Hb Hf s Hs. unfold try_finally. specialize (Hb s Hs).
  destruct (body s) as [s1 r]; cbn in *. specialize (Hf s1 Hb).
  destruct (fin s1) as [s2 [[]|e]]; exact Hf.
Qed.

Lemma preserves_modify (f : st -> st) :
  (forall s, P s -> P (f s)) -> preserves P (modify f).
Proof. intros Hf s Hs; exact (Hf s Hs). Qed.

End Preserves.

(** Steps that leave the object URLs alone keep [one_live]. *)
Lemma one_live_frame (f : st -> st) :
  (forall s, live_urls (f s) = live_urls s /\ current_object_url (f s) = current_object_url s) ->
  preserves one_live (modify f).
Proof.
  intros Hf. apply preserves_modify. intros s Hs u Hu.
  destruct (Hf s) as [E1 E2]. rewrite E2. apply Hs. rewrite <- E1. exact Hu.
Qed.

Lemma remove_all (u : nat) (l : list nat) :
  (forall x, In x l -> x = u) -> List.remove Nat.eq_dec u l = [].
Proof.
  induction l as [|x l IH]; intros H; [reflexivity|]. cbn.
  destruct (Nat.eq_dec u x) as [_|Hne]; [apply IH; intros y Hy; apply H; now right|].
  exfalso. apply Hne. symmetry. apply H. now left.
Qed.

(** The publication of a new result: the previous URL is revoked, the new
    one becomes the current one. *)
Lemma preserves_publish (b : blob) (k : nat -> M unit) :
  (forall u, preserves one_live (k u)) ->
  preserves one_live
    (cur <- gets current_object_url ;;
     (match cur with Some u => revokeObjectURL u | None => ret tt end) ;;
     url <- createObjectURL b ;;
     modify (set_current_object_url (Some url)) ;;
     k url).
Proof.
  intros Hk s Hs.
  assert (Hl : forall u, current_object_url s = Some u ->
                 List.remove Nat.eq_dec u (live_urls s) = []).
  { intros u Hu. apply remove_all. intros x Hx. specialize (Hs x Hx). congruence. }
  unfold bind, gets, ret, revokeObjectURL, createObjectURL, modify.
  destruct (current_object_url s) as [u|] eqn:Ecur; cbn; apply Hk.
  - intros x Hx; cbn in *. rewrite (Hl u eq_refl) in Hx. destruct Hx as [->|[]]; reflexivity.
  - cbn. destruct (live_urls s) as [|y l] eqn:El.
    + intros x [->|[]]; reflexivity.
    + exfalso. specialize (Hs y). rewrite El, Ecur in Hs. discriminate (Hs (or_introl eq_refl)).
Qed.

(** Releasing the current result: its URL is revoked and forgotten. *)
Lemma preserves_release (k : M unit) :
  preserves one_live k ->
  preserves one_live
    (cur <- gets current_object_url ;;
     (match cur with
      | Some u => revokeObjectURL u ;; modify (set_current_object_url None)
      | None => ret tt
      end) ;;
     k).
Proof.
  intros Hk s Hs.
  unfold bind, gets, ret, revokeObjectURL, modify.
  destruct (current_object_url s) as [u|] eqn:Ecur; cbn; apply Hk.
  - cbn. rewrite remove_all; [intros x []|].
    intros x Hx. specialize (Hs x Hx). congruence.
  - exact Hs.
Qed.

Ltac pres_step :=
  lazymatch goal with
  | |- preserves _ (bind (gets current_object_url) _) =>
      first [ apply preserves_publish; intro | apply preserves_release
            | apply preserves_bind; [apply preserves_gets|intro] ]
  | |- preserves _ (bind _ _) => apply preserves_bind; [|intro]
  | |- preserves _ (try_catch _ _) => apply preserves_try_catch; [|intro]
  | |- preserves _ (try_finally _ _) => apply preserves_try_finally
  | |- preserves _ (modify _) =>
      apply one_live_frame; intro; cbv beta;
      repeat match goal with |- context [match ?x with _ => _ end] => destruct x end;
      split; reflexivity
  | |- preserves _ (ret _) => apply preserves_ret
  | |- preserves _ (throw _) => apply preserves_throw
  | |- preserves _ (gets _) => apply preserves_gets
  | |- preserves _ (match ?x with _ => _ end) => destruct x
  | |- _ => solve [eauto]
  end.

Ltac pres :=
  unfold fire_status_timer, setTemporaryStatus, setStatus, showToast, setButtonLoading,
    toggleProgress, showLink, hideLink, hideDownload, setStatusText, setWorking, toggleLoading, when;
  cbv zeta; repeat pres_step.

Lemma webp_handleFileSelect_one_live (f : file) : preserves one_live (webp_handleFileSelect f).
Proof.
  unfold webp_handleFileSelect, showToast, setStatus, setTemporaryStatus, hideDownload, when.
  pres.
Qed.

Lemma webp_submit_one_live can toFormat raw compress (convertImage : Q -> M (option blob)) :
  (forall q, preserves one_live (convertImage q)) ->
  preserves one_live (webp_submit can toFormat raw compress convertImage).
Proof.
  intros Hc.
  unfold webp_submit, showToast, setStatus, setButtonLoading, toggleProgress, showLink.
  pres.
Qed.

Lemma webp_reset_one_live : preserves one_live webp_reset.
Proof. unfold webp_reset, webp_resetFileState. pres. Qed.

Lemma heic1_handleFileSelect_one_live (has : bool) (f : file) :
  preserves one_live (heic1_handleFileSelect has f).
Proof. unfold heic1_handleFileSelect. pres. Qed.

Lemma heic1_submit_one_live fromValue toValue raw compress (conv : Q -> M (option blob)) :
  (forall q, preserves one_live (conv q)) ->
  preserves one_live (heic1_submit fromValue toValue raw compress conv).
Proof. intros Hc. unfold heic1_submit. pres. Qed.

Lemma heic1_reset_one_live : preserves one_live heic1_reset.
Proof. unfold heic1_reset, heic1_resetFileState. pres. Qed.

Lemma imagepdf2_scan_one_live (files images pdfs : list file) :
  preserves one_live (imagepdf2_scan files images pdfs).
Proof.
  revert images pdfs; induction files as [|f rest IH]; intros images pdfs; cbn [imagepdf2_scan];
    pres.
Qed.

Lemma imagepdf2_handleFileSelection_one_live (files : list file) :
  preserves one_live (imagepdf2_handleFileSelection files).
Proof.
  unfold imagepdf2_handleFileSelection, imagepdf2_selected.
  apply preserves_bind; [apply imagepdf2_scan_one_live|intros [images pdfs]].
  pres.
Qed.

Lemma applyDownloadBlob_one_live (b : blob) : preserves one_live (applyDownloadBlob b).
Proof. unfold applyDownloadBlob. pres. Qed.

Lemma imagepdf2_submit_one_live target q conv1 conv2 :
  (forall fs q, preserves one_live (conv1 fs q)) ->
  (forall f t q, preserves one_live (conv2 f t q)) ->
  preserves one_live (imagepdf2_submit target q conv1 conv2).
Proof.
  intros H1 H2. unfold imagepdf2_submit. pres; apply applyDownloadBlob_one_live.
Qed.

Lemma imagepdf2_reset_one_live (fs : format_select) : preserves one_live (imagepdf2_reset fs).
Proof. unfold imagepdf2_reset, imagepdf2_resetFiles, imagepdf2_updateModeUI. pres. Qed.

Lemma run_session_one_live {E} (handle : E -> M unit) :
  (forall e, preserves one_live (handle e)) ->
  forall events s, one_live s -> one_live (run_session handle events s).
Proof.
  intros H events; induction events as [|e rest IH]; intros s Hs; cbn; [exact Hs|].
  apply IH, H, Hs.
Qed.

Lemma one_live_release (s : st) :
  one_live s ->
  match current_object_url s with
  | Some u => List.remove Nat.eq_dec u (live_urls s) = []
  | None => live_urls s = []
  end.
Proof.
  intros Hs. destruct (current_object_url s) as [u|] eqn:Ecur.
  - apply remove_all. intros x Hx. specialize (Hs x Hx). congruence.
  - destruct (live_urls s) as [|y l] eqn:El; [reflexivity|].
    specialize (Hs y). rewrite El, Ecur in Hs. discriminate (Hs (or_introl eq_refl)).
Qed.

Ltac release_tac H :=
  lazymatch type of H with
  | one_live ?s =>
      pose proof (one_live_release s H) as Hrel;
      try clearbody s;
      destruct s as [? ? ? ? ? ? ? ? ? ? cur ? ? ? ? ? ? hs ? ? ?];
      destruct hs, cur; cbn in Hrel |- *; rewrite ?Hrel; split; reflexivity
  end.

Lemma fire_status_timer_one_live (i : nat) : preserves one_live (fire_status_timer i).
Proof. pres. Qed.

Lemma webp_swap_one_live (prevFrom prevTo : string) :
  preserves one_live (webp_swap prevFrom prevTo).
Proof. unfold webp_swap. pres. Qed.

Lemma one_live_st0 : one_live st0.
Proof. intros u []. Qed.

End SessionFacts.

Module SessionExtras.
Import JS Page Handlers PageSpec Switches Handlers2 SessionFacts.

(** X13: on the WebP page, whatever sequence of file selections,
    conversions and resets runs (an exception in a handler does not stop
    the page), at most one object URL is alive, and it is the one the page
    holds as [currentObjectUrl]; so the reset button revokes every URL the
    page created.  This holds as long as the codec adapter keeps it too. *)
Theorem webp_session_one_result_url (convertImage : Q -> M (option blob))
    (events : list webp_event) (s : st) :
  (forall q, preserves one_live (convertImage q)) -> one_live s ->
  let s' := run_session (webp_handle convertImage) events s in
  one_live s' /\
  live_urls (fst (webp_reset s')) = [] /\ current_object_url (fst (webp_reset s')) = None.
Proof.
  intros Hc Hs s'.
  assert (H' : one_live s').
  { apply run_session_one_live; [|exact Hs].
    intros [f|can t r c|pf pt| |i]; cbn [webp_handle].
    - apply webp_handleFileSelect_one_live.
    - apply webp_submit_one_live, Hc.
    - apply preserves_bind; [apply webp_swap_one_live | intros; apply preserves_ret].
    - apply webp_reset_one_live.
    - apply fire_status_timer_one_live. }
  split; [exact H'|].
  unfold webp_reset, webp_resetFileState, setTemporaryStatus, setStatus, hideDownload.
  release_tac H'.
Qed.

Lemma webp_session_one_result_url_witness :
  let s' := run_session (webp_handle (fun _ => ret (Some 0%nat)))
              [WebpSelect photo_png; WebpSwap "auto" "jpg"; WebpSubmit true "jpg" None false; WebpTimer 0; WebpReset] st0 in
  one_live s' /\
  live_urls (fst (webp_reset s')) = [] /\ current_object_url (fst (webp_reset s')) = None.
Proof.
  exact (webp_session_one_result_url (fun _ => ret (Some 0%nat))
           [WebpSelect photo_png; WebpSwap "auto" "jpg"; WebpSubmit true "jpg" None false; WebpTimer 0; WebpReset] st0
           (fun q => preserves_ret one_live (Some 0%nat)) one_live_st0).
Defined.


(** X14: the same on the HEIC page of the [DOMContentLoaded] converter:
    at most one live object URL, the one held as [currentObjectUrl], and
    none left after the reset button. *)
Theorem heic1_session_one_result_url (hasHeic2Any : bool) (conv : Q -> M (option blob))
    (events : list heic1_event) (s : st) :
  (forall q, preserves one_live (conv q)) -> one_live s ->
  let s' := run_session (heic1_handle hasHeic2Any conv) events s in
  one_live s' /\
  live_urls (fst (heic1_reset s')) = [] /\ current_object_url (fst (heic1_reset s')) = None.
Proof.
  intros Hc Hs s'.
  assert (H' : one_live s').
  { apply run_session_one_live; [|exact Hs].
    intros [f|fr t r c| |i]; cbn [heic1_handle].
    - apply heic1_handleFileSelect_one_live.
    - apply heic1_submit_one_live, Hc.
    - apply heic1_reset_one_live.
    - apply fire_status_timer_one_live. }
  split; [exact H'|].
  unfold heic1_reset, heic1_resetFileState, setTemporaryStatus, setStatus, hideLink.
  release_tac H'.
Qed.

Lemma heic1_session_one_result_url_witness :
  let s' := run_session (heic1_handle true (fun _ => ret (Some 0%nat)))
              [HeicSelect photo_png; HeicSubmit "auto" "jpg" None false; HeicTimer 0] st0 in
  one_live s' /\
  live_urls (fst (heic1_reset s')) = [] /\ current_object_url (fst (heic1_reset s')) = None.
Proof.
  exact (heic1_session_one_result_url true (fun _ => ret (Some 0%nat))
           [HeicSelect photo_png; HeicSubmit "auto" "jpg" None false; HeicTimer 0] st0
           (fun q => preserves_ret one_live (Some 0%nat)) one_live_st0).
Defined.


(** X15: the same on the image/PDF converter page, whose events are file
    selections, conversions, mode swaps and resets: at most one live
    object URL, the one held as [currentObjectUrl], and none left after
    the reset button. *)
Theorem imagepdf2_session_one_result_url conv1 conv2 (events : list imagepdf2_event)
    (s : st) (fs : format_select) :
  (forall files q, preserves one_live (conv1 files q)) ->
  (forall f t q, preserves one_live (conv2 f t q)) -> one_live s ->
  let s' := run_session (imagepdf2_handle conv1 conv2) events s in
  one_live s' /\
  live_urls (fst (imagepdf2_reset fs s')) = [] /\ current_object_url (fst (imagepdf2_reset fs s')) = None.
Proof.
  intros H1 H2 Hs s'.
  assert (H' : one_live s').
  { apply run_session_one_live; [|exact Hs].
    intros [files|t q|fs0|fs0|i]; cbn [imagepdf2_handle].
    - apply imagepdf2_handleFileSelection_one_live.
    - apply imagepdf2_submit_one_live; assumption.
    - apply preserves_bind; [|intros; apply preserves_ret].
      unfold imagepdf2_swap, imagepdf2_updateModeUI. pres.
    - apply preserves_bind; [|intros; apply preserves_ret]. apply imagepdf2_reset_one_live.
    - apply fire_status_timer_one_live. }
  split; [exact H'|].
  unfold imagepdf2_reset, imagepdf2_resetFiles, imagepdf2_updateModeUI, setTemporaryStatus,
    setStatus, hideDownload.
  release_tac H'.
Qed.

Definition images_to_pdf_select : format_select :=
  {| to_value := "pdf"; pdf_disabled := false; jpg_disabled := true; png_disabled := true |}.

Lemma imagepdf2_session_one_result_url_witness :
  let s' := run_session (imagepdf2_handle (fun _ _ => ret 0%nat) (fun _ _ _ => ret 0%nat))
              [PdfSelect [photo_png]; PdfSubmit "pdf" None; PdfSwap images_to_pdf_select; PdfTimer 0] st0 in
  one_live s' /\
  live_urls (fst (imagepdf2_reset images_to_pdf_select s')) = [] /\
  current_object_url (fst (imagepdf2_reset images_to_pdf_select s')) = None.
Proof.
  exact (imagepdf2_session_one_result_url (fun _ _ => ret 0%nat) (fun _ _ _ => ret 0%nat)
           [PdfSelect [photo_png]; PdfSubmit "pdf" None; PdfSwap images_to_pdf_select; PdfTimer 0] st0
           images_to_pdf_select
           (fun files q => preserves_ret one_live 0%nat)
           (fun f t q => preserves_ret one_live 0%nat) one_live_st0).
Defined.

End SessionExtras.

Module PdfFacts.
Import JS Page Handlers PageSpec PageFacts Switches Handlers2.

Lemma existsb_find {A} (p : A -> bool) (l : list A) :
  existsb p l = true <-> find p l <> None.
Proof.
  induction l as [|x l IH]; cbn; [split; [discriminate|congruence]|].
  destruct (p x); cbn; [split; [discriminate|reflexivity]|exact IH].
Qed.

(** The pages loop when each page renders to a blob and the URLs are
    fresh. *)
Lemma pdf_pages_loop_ok (render : nat -> M (option blob)) (err base fmt : string) :
  (forall k s0, exists b, render k s0 = (s0, Ok (Some b))) ->
  forall fuel pageNum s,
  (forall x, In x (live_urls s) -> (x < next_url s)%nat) ->
  let '(s', r) := pdf_pages_loop render err base fmt pageNum fuel s in
  r = Ok (map (fun k => base ++ "-page-" ++ Names.Z_to_dec (Z.of_nat k) ++ "." ++ fmt)
              (seq pageNum fuel)) /\
  live_urls s' = live_urls s /\ (next_url s <= next_url s')%nat /\
  status_text s' = status_text s /\ link_visible s' = link_visible s.
Proof.
  intros Hr fuel; induction fuel as [|fuel IH]; intros pageNum s Hfresh.
  - cbn. repeat split; auto.
  - cbn [pdf_pages_loop]. destruct (Hr pageNum s) as [b Eb].
    unfold bind, createObjectURL, revokeObjectURL, modify, ret. rewrite Eb.
    cbn - [Names.Z_to_dec pdf_pages_loop].
    set (s1 := set_live_urls _ _).
    assert (Hl : live_urls s1 = live_urls s).
    { subst s1; cbn. destruct (Nat.eq_dec (next_url s) (next_url s)) as [_|]; [|congruence].
      clear -Hfresh. induction (live_urls s) as [|y l IHl]; [reflexivity|]; cbn.
      destruct (Nat.eq_dec (next_url s) y) as [E|].
      - exfalso. specialize (Hfresh y (or_introl eq_refl)). lia.
      - f_equal. apply IHl. intros x Hx. apply Hfresh. now right. }
    specialize (IH (S pageNum) s1).
    destruct (pdf_pages_loop render err base fmt (S pageNum) fuel s1) as [s2 r2].
    destruct IH as (-> & H2 & H3 & H4 & H5).
    { intros x Hx. rewrite Hl in Hx. specialize (Hfresh x Hx). subst s1; cbn. lia. }
    cbn - [Names.Z_to_dec]. split; [reflexivity|].
    split; [exact (eq_trans H2 Hl)|].
    split; [|split; [exact H4|exact H5]].
    apply Nat.le_trans with (next_url s1); [subst s1; cbn; auto|exact H3].
Qed.

(** The loop of [handleFileSelection]: the kept images and PDFs, in
    order, and one warning toast per refused file when [document.body]
    exists. *)
Lemma imagepdf2_scan_split files :
  forall images pdfs s, exists ts,
    imagepdf2_scan files images pdfs s =
      (set_toasts (toasts s ++ ts)%list s,
       Ok (images ++ filter imagepdf2_keeps_image files, pdfs ++ filter imagepdf2_keeps_pdf files)%list) /\
    (has_body s = true -> List.length ts = List.length (filter imagepdf2_rejected files)).
Proof.
  induction files as [|f fs IH]; intros images pdfs s.
  - exists []. rewrite !app_nil_r. split; [destruct s; reflexivity | reflexivity].
  - cbn [imagepdf2_scan filter].
    unfold imagepdf2_keeps_image at 1, imagepdf2_keeps_pdf at 1, imagepdf2_rejected at 1.
    assert (Step : forall m, String.eqb m "" = false ->
      exists ts, (showToast m "warning" ;; imagepdf2_scan fs images pdfs) s =
        (set_toasts (toasts s ++ ts)%list s,
         Ok (images ++ filter imagepdf2_keeps_image fs, pdfs ++ filter imagepdf2_keeps_pdf fs)%list) /\
        (has_body s = true -> List.length ts = S (List.length (filter imagepdf2_rejected fs)))).
    { intros m Hm. unfold bind at 1. cbv beta. rewrite showToast_nonempty by exact Hm.
      cbv iota beta. destruct (has_body s) eqn:Hb.
      - destruct (IH images pdfs (set_toasts (toasts s ++ [(m, "warning")])%list s))
          as (ts & Hrun & Hlen).
        rewrite Hrun. exists ((m, "warning") :: ts). split.
        + rewrite set_toasts_twice, toasts_set_toasts, <- app_assoc. reflexivity.
        + intros _. cbn. rewrite Hlen; [reflexivity | rewrite has_body_set_toasts; exact Hb].
      - destruct (IH images pdfs s) as (ts & Hrun & Hlen).
        exists ts. split; [exact Hrun | congruence]. }
    destruct (MAX_SIZE <? fsize f)%Z; cbn [negb andb orb].
    + apply Step. reflexivity.
    + destruct (String.eqb (ftype f) "application/pdf"); cbn [negb andb orb].
      * destruct (IH images (pdfs ++ [f])%list s) as (ts & Hrun & Hlen).
        rewrite Hrun, <- app_assoc. exists ts. split; [reflexivity|exact Hlen].
      * destruct (negb (String.eqb (ftype f) "") && String.prefix "image/" (ftype f)); cbn [negb].
        -- destruct (IH (images ++ [f])%list pdfs s) as (ts & Hrun & Hlen).
           rewrite Hrun, <- app_assoc. exists ts. split; [reflexivity|exact Hlen].
        -- apply Step. reflexivity.
Qed.

End PdfFacts.

Module LeakExtras.
Import JS Page Handlers PageSpec Switches Handlers2.

(** X16: in the module-level HEIC converter every successful conversion
    creates a new object URL and links it, and none is ever revoked: the
    URL of the previous result stays alive.  The theorem fixes adapters
    that succeed without touching the page. *)
Theorem heic2_results_never_revoked (toFormatValue : string) (rawQuality : option Z)
    (compressChecked isHeic : bool)
    (heic2any : string -> option number -> M (option blob))
    (viaCanvas : string -> number -> M (option blob)) (b : blob) (f : file) (s : st) :
  current_file s = Some f ->
  (forall m q s0, heic2any m q s0 = (s0, Ok (Some b))) ->
  (forall m q s0, viaCanvas m q s0 = (s0, Ok (Some b))) ->
  let s' := fst (heic2_submit toFormatValue rawQuality compressChecked isHeic heic2any viaCanvas s) in
  live_urls s' = next_url s :: live_urls s /\ link_href s' = Some (next_url s) /\
  link_visible s' = true /\ idle s'.
Proof.
  intros Hf Hh Hv. unfold heic2_submit, heic2_runConversion.
  destruct s as [? ? ? ? ? ? ? ? n live ? cf ? ? ? ? ? ? ? ? ?]; cbn in Hf; subst cf.
  unfold try_finally, try_catch; cbn.
  destruct isHeic; unfold bind; rewrite ?Hh, ?Hv; cbn; repeat split.
Qed.

Definition blob_adapter2 {A B} (_ : A) (_ : B) : M (option blob) := ret (Some 0%nat).

Lemma heic2_results_never_revoked_witness :
  let s' := fst (heic2_submit "jpg" None false false blob_adapter2 blob_adapter2 (with_file photo_png)) in
  live_urls s' = next_url (with_file photo_png) :: live_urls (with_file photo_png) /\
  link_href s' = Some (next_url (with_file photo_png)) /\
  link_visible s' = true /\ idle s'.
Proof.
  exact (heic2_results_never_revoked "jpg" None false false blob_adapter2 blob_adapter2 0%nat
           photo_png (with_file photo_png) eq_refl (fun m q s0 => eq_refl) (fun m q s0 => eq_refl)).
Defined.

(** X17: when the browser fails to load the SVG as an image,
    [svgToImage] of converter-svg.js never revokes the temporary object
    URL it created: it stays alive after the error, which the page
    reports, leaving the link hidden and the controls idle. *)
Theorem svg_failed_load_leaks_temp_url (currentSvgText : string) (exported : option blob)
    (f : file) (s : st) :
  current_file s = Some f -> currentSvgText <> "" ->
  let s' := fst (svg_renderAndExport currentSvgText false exported s) in
  live_urls s' = next_url s :: live_urls s /\
  status_text s' = "Error: Failed to load SVG as image (maybe unsupported external assets)." /\
  link_visible s' = false /\ idle s'.
Proof.
  intros Hf Ht. unfold svg_renderAndExport, svg_svgToImage.
  apply String.eqb_neq in Ht.
  destruct s as [? ? ? ? ? ? ? ? n live ? cf ? ? ? ? ? ? ? ? ?]; cbn in Hf; subst cf.
  cbn - [try_finally try_catch]. rewrite Ht.
  cbn. repeat split.
Qed.

Lemma svg_failed_load_leaks_temp_url_witness :
  let s' := fst (svg_renderAndExport "<svg/>" false None (with_file drawing_svg)) in
  live_urls s' = next_url (with_file drawing_svg) :: live_urls (with_file drawing_svg) /\
  status_text s' = "Error: Failed to load SVG as image (maybe unsupported external assets)." /\
  link_visible s' = false /\ idle s'.
Proof.
  exact (svg_failed_load_leaks_temp_url "<svg/>" None drawing_svg (with_file drawing_svg)
           eq_refl ltac:(discriminate)).
Defined.

(** X18: when reading an SVG file fails, [handleFile] of converter-svg.js
    keeps the file selected but clears the SVG text, reports
    ["Failed to read the SVG file."] and leaves the controls idle; a
    following Convert then stops at ["Please select an SVG file first."]
    without creating an object URL and with the link hidden. *)
Theorem svg_read_failure_blocks_export (f : file) (message : string)
    (parse : string -> option Svg.svg_element) (v : svg_vars) (s : st)
    (loads : bool) (exported : option blob) :
  svg_isSvg f = true ->
  let '(s1, r) := svg_handleFile (Some f) (throw message) parse v s in
  exists v1, r = Ok v1 /\ currentSvgText v1 = "" /\ current_file s1 = Some f /\
  status_text s1 = "Failed to read the SVG file." /\ idle s1 /\
  let s2 := fst (svg_renderAndExport (currentSvgText v1) loads exported s1) in
  status_text s2 = "Please select an SVG file first." /\
  live_urls s2 = live_urls s /\ next_url s2 = next_url s /\ link_visible s2 = false.
Proof.
  intros H. unfold svg_handleFile. rewrite H.
  destruct s as [? ? ? ? ? ? ? ? n live ? cf ? ? ? ? ? ? ? ? ?].
  cbn - [svg_renderAndExport].
  exists {| currentSvgText := ""; svgIntrinsic := svgIntrinsic v |}. cbn.
  repeat split.
Qed.

Definition svg_vars0 : svg_vars := {| currentSvgText := ""; svgIntrinsic := (JS.Dbl 512, JS.Dbl 512) |}.

Lemma svg_read_failure_blocks_export_witness :
  let '(s1, r) := svg_handleFile (Some drawing_svg) (throw "NotReadableError") (fun _ => None)
                    svg_vars0 st0 in
  exists v1, r = Ok v1 /\ currentSvgText v1 = "" /\ current_file s1 = Some drawing_svg /\
  status_text s1 = "Failed to read the SVG file." /\ idle s1 /\
  let s2 := fst (svg_renderAndExport (currentSvgText v1) true None s1) in
  status_text s2 = "Please select an SVG file first." /\
  live_urls s2 = live_urls st0 /\ next_url s2 = next_url st0 /\ link_visible s2 = false.
Proof.
  exact (svg_read_failure_blocks_export drawing_svg "NotReadableError" (fun _ => None) svg_vars0 st0
           true None eq_refl).
Defined.

End LeakExtras.

Module PdfExtras.
Import JS Page Handlers PageSpec Switches Handlers2 PdfFacts.

(** X19: in the main-page image/PDF converter, [detectMode] chooses PDF
    to images exactly when [convertPdfToImages] finds a PDF in the same
    files, and [convertPdfToImages] throws
    ["No PDF file found in selection."] without touching the page when it
    finds none. *)
Theorem detectMode_matches_pdf_search (toFormatValue : string) (openPdf : file -> M nat)
    (render : nat -> M (option blob)) (nullBlobError : string) (files : list file) (s : st) :
  (detectMode files = "pdf-to-image" <-> find_pdf files <> None) /\
  (find_pdf files = None ->
   imagepdf1_convertPdfToImages toFormatValue openPdf render nullBlobError files s =
   (s, Thrown "No PDF file found in selection.")).
Proof.
  split.
  - unfold detectMode, find_pdf. rewrite <- existsb_find.
    destruct (existsb _ files); split; congruence.
  - intros H. unfold imagepdf1_convertPdfToImages. rewrite H. reflexivity.
Qed.

(** X20: when the PDF opens with [numPages] pages and every page renders,
    [convertPdfToImages] returns one download name per page,
    [<base>-page-<k>.<png|jpg>] for [k = 1 .. numPages] with [<base>] the
    PDF name without its extension; every page URL is revoked right after
    its download, and the page ends with
    ["All pages exported as images (downloaded one by one)."] and the
    link hidden. *)
Theorem convertPdfToImages_downloads (toFormatValue : string) (openPdf : file -> M nat)
    (render : nat -> M (option blob)) (nullBlobError : string) (files : list file)
    (pdfFile : file) (numPages : nat) (s : st) :
  find_pdf files = Some pdfFile ->
  (forall s0, openPdf pdfFile s0 = (s0, Ok numPages)) ->
  (forall k s0, exists b, render k s0 = (s0, Ok (Some b))) ->
  (forall x, In x (live_urls s) -> (x < next_url s)%nat) ->
  let fmt := if String.eqb toFormatValue "png" then "png" else "jpg" in
  let '(s', r) := imagepdf1_convertPdfToImages toFormatValue openPdf render nullBlobError files s in
  r = Ok (map (fun k => Names.getBaseName (fname pdfFile) ++ "-page-" ++
                        Names.Z_to_dec (Z.of_nat k) ++ "." ++ fmt)
              (seq 1 numPages)) /\
  live_urls s' = live_urls s /\
  status_text s' = "All pages exported as images (downloaded one by one)." /\
  link_visible s' = false.
Proof.
  intros Hf Ho Hr Hfresh fmt. unfold imagepdf1_convertPdfToImages. rewrite Hf.
  unfold bind at 1. rewrite Ho. cbn [bind setStatusText hideLink modify].
  pose proof (pdf_pages_loop_ok render nullBlobError (Names.getBaseName (fname pdfFile))
                fmt Hr numPages 1 (set_link_visible false (set_status_text
                   ("Rendering " ++ Names.Z_to_dec (Z.of_nat numPages) ++ " page(s) to " ++
                    (if String.eqb fmt "png" then "PNG" else "JPG") ++ "...") s)) Hfresh) as HL.
  subst fmt. unfold bind, setStatusText, modify, ret.
  destruct (pdf_pages_loop _ _ _ _ _ _ _) as [s2 r2].
  destruct HL as (-> & H2 & H3 & H4 & H5). cbn - [Names.Z_to_dec].
  split; [reflexivity|]. split; [exact H2|]. split; [reflexivity|exact H5].
Qed.

Definition doc_pdf : file := {| fname := "report.pdf"; ftype := "application/pdf"; fsize := 300000 |}.
Definition scan_pdf : file := {| fname := "scan.pdf"; ftype := "application/pdf"; fsize := 800000 |}.

Definition two_pages (_ : file) : M nat := ret 2%nat.
Definition page_blob (_ : nat) : M (option blob) := ret (Some 0%nat).

Lemma convertPdfToImages_downloads_witness :
  let '(s', r) := imagepdf1_convertPdfToImages "png" two_pages page_blob "null blob" [photo_png; doc_pdf] st0 in
  r = Ok ["report-page-1.png"; "report-page-2.png"] /\
  live_urls s' = live_urls st0 /\
  status_text s' = "All pages exported as images (downloaded one by one)." /\
  link_visible s' = false.
Proof.
  exact (convertPdfToImages_downloads "png" two_pages page_blob "null blob" [photo_png; doc_pdf]
           doc_pdf 2 st0 eq_refl (fun s0 => eq_refl) (fun k s0 => ex_intro _ 0%nat eq_refl)
           (fun x H => match H with end)).
Defined.

(** X21: on the image/PDF converter page, in an images-to-PDF mode, a
    selection with at least one accepted image selects exactly the
    accepted images, in order; PDFs in it are dropped without a message;
    each refused file (over 20 MB, or neither a PDF nor an image type)
    gets one toast (when [document.body] exists); the mode is kept, the
    link hidden and the status, on a page with its status element,
    ["Files selected. Ready to convert."]. *)
Theorem imagepdf2_selection_images_mode (files : list file) (s : st) :
  mode_select s <> "Detect_automatically" -> isPdfToImagesMode (mode_select s) = false ->
  filter imagepdf2_keeps_image files <> [] ->
  let '(s', r) := imagepdf2_handleFileSelection files s in
  r = Ok tt /\ selected_files s' = filter imagepdf2_keeps_image files /\
  mode_select s' = mode_select s /\
  (exists ts, toasts s' = (toasts s ++ ts)%list /\
              (has_body s = true -> List.length ts = List.length (filter imagepdf2_rejected files))) /\
  (has_status_el s = true -> status_text s' = "Files selected. Ready to convert.") /\
  link_visible s' = false.
Proof.
  intros Hd Hp Hi.
  destruct (imagepdf2_scan_split files [] [] s) as (ts & Hrun & Hlen).
  unfold imagepdf2_handleFileSelection, bind at 1. rewrite Hrun. cbn [app].
  destruct (filter imagepdf2_keeps_image files) as [|img imgs] eqn:Ei; [congruence|].
  apply String.eqb_neq in Hd.
  destruct s as [? ? ? ? ? ? ? ? ? ? ? ? ? ? ? ? ? hs ? ? ?]; cbn in Hd, Hp |- *. rewrite Hd, Hp.
  destruct hs; cbn;
    (split; [reflexivity|]); (split; [reflexivity|]); (split; [reflexivity|]);
    (split; [exists ts; split; [reflexivity|exact Hlen]|]);
    (split; [intros Hs; first [reflexivity | discriminate Hs] | reflexivity]).
Qed.

Lemma imagepdf2_selection_images_mode_witness :
  let '(s', r) := imagepdf2_handleFileSelection [photo_png; doc_pdf; notes_txt; big_png]
                    (set_mode_select "PNG-to-PDF" st0) in
  r = Ok tt /\ selected_files s' = filter imagepdf2_keeps_image [photo_png; doc_pdf; notes_txt; big_png] /\
  mode_select s' = mode_select (set_mode_select "PNG-to-PDF" st0) /\
  (exists ts, toasts s' = (toasts (set_mode_select "PNG-to-PDF" st0) ++ ts)%list /\
              (has_body (set_mode_select "PNG-to-PDF" st0) = true ->
               List.length ts = List.length (filter imagepdf2_rejected [photo_png; doc_pdf; notes_txt; big_png]))) /\
  (has_status_el (set_mode_select "PNG-to-PDF" st0) = true ->
   status_text s' = "Files selected. Ready to convert.") /\ link_visible s' = false.
Proof.
  exact (imagepdf2_selection_images_mode [photo_png; doc_pdf; notes_txt; big_png]
           (set_mode_select "PNG-to-PDF" st0) ltac:(discriminate) eq_refl
           ltac:(vm_compute; discriminate)).
Defined.

(** X22: on the image/PDF converter page in [Detect_automatically] mode,
    a selection whose accepted files are images only selects them all,
    in order, and switches the mode to [PNG-to-PDF] when the first one is
    a PNG and to [JPG/JPEG_to-PDF] otherwise; refused files get one toast
    each (when [document.body] exists), the link is hidden and the status,
    on a page with its status element, is
    ["Files selected. Ready to convert."]. *)
Theorem imagepdf2_selection_detect_images (files : list file) (img : file) (imgs : list file) (s : st) :
  mode_select s = "Detect_automatically" ->
  filter imagepdf2_keeps_pdf files = [] ->
  filter imagepdf2_keeps_image files = img :: imgs ->
  let '(s', r) := imagepdf2_handleFileSelection files s in
  r = Ok tt /\ selected_files s' = img :: imgs /\
  mode_select s' = (if String.eqb (ftype img) "image/png" then "PNG-to-PDF" else "JPG/JPEG_to-PDF") /\
  (exists ts, toasts s' = (toasts s ++ ts)%list /\
              (has_body s = true -> List.length ts = List.length (filter imagepdf2_rejected files))) /\
  (has_status_el s = true -> status_text s' = "Files selected. Ready to convert.") /\
  link_visible s' = false.
Proof.
  intros Hd Hp Hi.
  destruct (imagepdf2_scan_split files [] [] s) as (ts & Hrun & Hlen).
  unfold imagepdf2_handleFileSelection, bind at 1. rewrite Hrun. cbn [app].
  rewrite Hp, Hi.
  destruct s as [? ? ? ? ? ? ? ? ? ? ? ? ? ? ? ? ? hs ? ? ?]; cbn in Hd |- *. rewrite Hd. cbn.
  destruct hs; cbn;
    (split; [reflexivity|]); (split; [reflexivity|]); (split; [reflexivity|]);
    (split; [exists ts; split; [reflexivity|exact Hlen]|]);
    (split; [intros Hs; first [reflexivity | discriminate Hs] | reflexivity]).
Qed.

Lemma imagepdf2_selection_detect_images_witness :
  let '(s', r) := imagepdf2_handleFileSelection [notes_txt; photo_png] st0 in
  r = Ok tt /\ selected_files s' = [photo_png] /\
  mode_select s' = (if String.eqb (ftype photo_png) "image/png" then "PNG-to-PDF" else "JPG/JPEG_to-PDF") /\
  (exists ts, toasts s' = (toasts st0 ++ ts)%list /\
              (has_body st0 = true -> List.length ts = List.length (filter imagepdf2_rejected [notes_txt; photo_png]))) /\
  (has_status_el st0 = true -> status_text s' = "Files selected. Ready to convert.") /\
  link_visible s' = false.
Proof.
  exact (imagepdf2_selection_detect_images [notes_txt; photo_png] photo_png [] st0
           eq_refl eq_refl eq_refl).
Defined.

(** X23: on the image/PDF converter page in PDF-to-images mode, a
    selection with at least one accepted PDF selects only the first one;
    images in it are dropped without a message; when [document.body]
    exists, the refused files get one warning toast each, followed by one
    info toast when there were several PDFs; the mode is kept, the link
    hidden and the status, on a page with its status element,
    ["Files selected. Ready to convert."]. *)
Theorem imagepdf2_selection_pdf_mode (files : list file) (p : file) (more : list file) (s : st) :
  isPdfToImagesMode (mode_select s) = true ->
  filter imagepdf2_keeps_pdf files = p :: more ->
  let '(s', r) := imagepdf2_handleFileSelection files s in
  r = Ok tt /\ selected_files s' = [p] /\ mode_select s' = mode_select s /\
  (exists ts extra, toasts s' = (toasts s ++ ts ++ extra)%list /\
     (has_body s = true ->
      List.length ts = List.length (filter imagepdf2_rejected files) /\
      extra = match more with
              | [] => []
              | _ => [("Multiple PDFs selected. Only the first one will be used.", "info")]
              end)) /\
  (has_status_el s = true -> status_text s' = "Files selected. Ready to convert.") /\
  link_visible s' = false.
Proof.
  intros Hm Hp.
  destruct (imagepdf2_scan_split files [] [] s) as (ts & Hrun & Hlen).
  unfold imagepdf2_handleFileSelection, bind at 1. rewrite Hrun. cbn [app].
  rewrite Hp.
  assert (Hd : String.eqb (mode_select s) "Detect_automatically" = false).
  { unfold isPdfToImagesMode in Hm. apply String.eqb_eq in Hm. rewrite Hm. reflexivity. }
  destruct s as [? ? ? ? ? ? ? ? ? ? ? ? ? ? ? ? ? hs ? ? hy]; cbn in Hd, Hm |- *.
  destruct (filter imagepdf2_keeps_image files) as [|img imgs];
    cbn; rewrite Hd, Hm; destruct more as [|m ms], hs, hy; cbn;
    (split; [reflexivity|]; split; [reflexivity|]; split; [reflexivity|];
     split; [|split; [intros Hs; first [reflexivity | discriminate Hs] | reflexivity]]);
    first
      [ exists ts, []; split; [rewrite ?app_nil_r; reflexivity|];
        intros Hb; split; [exact (Hlen Hb) | first [reflexivity | discriminate Hb]]
      | exists ts, [("Multiple PDFs selected. Only the first one will be used.", "info")];
        split; [rewrite <- ?app_assoc; reflexivity|];
        intros Hb; split; [exact (Hlen Hb) | reflexivity] ].
Qed.

Lemma imagepdf2_selection_pdf_mode_witness :
  let '(s', r) := imagepdf2_handleFileSelection [photo_png; doc_pdf; scan_pdf]
                    (set_mode_select "PDF-to-JPG/PNG" st0) in
  r = Ok tt /\ selected_files s' = [doc_pdf] /\
  mode_select s' = mode_select (set_mode_select "PDF-to-JPG/PNG" st0) /\
  (exists ts extra, toasts s' = (toasts (set_mode_select "PDF-to-JPG/PNG" st0) ++ ts ++ extra)%list /\
     (has_body (set_mode_select "PDF-to-JPG/PNG" st0) = true ->
      List.length ts = List.length (filter imagepdf2_rejected [photo_png; doc_pdf; scan_pdf]) /\
      extra = [("Multiple PDFs selected. Only the first one will be used.", "info")])) /\
  (has_status_el (set_mode_select "PDF-to-JPG/PNG" st0) = true ->
   status_text s' = "Files selected. Ready to convert.") /\ link_visible s' = false.
Proof.
  exact (imagepdf2_selection_pdf_mode [photo_png; doc_pdf; scan_pdf] doc_pdf [scan_pdf]
           (set_mode_select "PDF-to-JPG/PNG" st0) eq_refl eq_refl).
Defined.

End PdfExtras.

Module ScriptFacts.
Import Scripts.

Lemma find_src_none src scripts :
  ~ In src (map script_src scripts) ->
  find (fun sc => String.eqb (script_src sc) src) scripts = None.
Proof.
  induction scripts as [|sc rest IH]; intros H; [reflexivity|].
  cbn in H |- *. destruct (String.eqb_spec (script_src sc) src); [tauto|].
  apply IH. tauto.
Qed.

Lemma find_src_app_none src scripts extra :
  ~ In src (map script_src scripts) ->
  find (fun sc => String.eqb (script_src sc) src) (scripts ++ extra)%list =
  find (fun sc => String.eqb (script_src sc) src) extra.
Proof.
  induction scripts as [|sc rest IH]; intros H; [reflexivity|].
  cbn in H |- *. destruct (String.eqb_spec (script_src sc) src); [tauto|].
  apply IH. tauto.
Qed.

Lemma script_loaded_event_other src scripts :
  ~ In src (map script_src scripts) -> script_loaded_event src scripts = scripts.
Proof.
  induction scripts as [|sc rest IH]; intros H; [reflexivity|].
  cbn in H |- *. destruct (String.eqb_spec (script_src sc) src); [tauto|].
  f_equal. apply IH. tauto.
Qed.

Lemma script_loaded_event_srcs src scripts :
  map script_src (script_loaded_event src scripts) = map script_src scripts.
Proof.
  unfold script_loaded_event. rewrite map_map. apply map_ext. intros sc.
  destruct (String.eqb_spec (script_src sc) src) as [E|]; [|reflexivity].
  destruct (script_loaded sc) as [v|]; [|reflexivity].
  destruct (String.eqb v "false"); [exact (eq_sym E)|reflexivity].
Qed.

Lemma loadScriptOnce_srcs src scripts :
  NoDup (map script_src scripts) -> NoDup (map script_src (fst (loadScriptOnce src scripts))).
Proof.
  intros H. unfold loadScriptOnce.
  destruct (find (fun sc => String.eqb (script_src sc) src) scripts) eqn:E; [exact H|].
  cbn. rewrite map_app. cbn. apply NoDup_app; [exact H|constructor; [intros []|constructor]|].
  intros x Hx [<-|[]].
  apply in_map_iff in Hx as (sc & Hsc & Hin).
  pose proof (find_none _ _ E sc Hin) as F. cbn in F. apply String.eqb_neq in F. congruence.
Qed.

End ScriptFacts.

Module ScriptExtras.
Import Scripts ScriptFacts.

(** X24: [loadScriptOnce] never adds a second script with the same
    [src]: from a document whose scripts have distinct sources, any
    sequence of calls and [load] events keeps them distinct. *)
Theorem run_scripts_no_duplicate (events : list script_event) (scripts : list script) :
  NoDup (map script_src scripts) -> NoDup (map script_src (run_scripts events scripts)).
Proof.
  revert scripts; induction events as [|[src|src] rest IH]; intros scripts H; cbn.
  - exact H.
  - apply IH, loadScriptOnce_srcs, H.
  - apply IH. rewrite script_loaded_event_srcs. exact H.
Qed.

Lemma run_scripts_no_duplicate_witness :
  NoDup (map script_src (run_scripts [LoadScript "assets/js/vendor/heic2any.min.js";
                                      LoadScript "assets/js/vendor/heic2any.min.js";
                                      ScriptLoaded "assets/js/vendor/heic2any.min.js"] [])).
Proof.
  exact (run_scripts_no_duplicate [LoadScript "assets/js/vendor/heic2any.min.js";
                                   LoadScript "assets/js/vendor/heic2any.min.js";
                                   ScriptLoaded "assets/js/vendor/heic2any.min.js"] []
           (NoDup_nil _)).
Defined.

(** X25: for a source not yet in the document, [loadScriptOnce] appends
    one script marked [loaded = "false"] and waits for its [load] event;
    a second call before that event adds nothing and also waits; after
    the event the script is marked ["true"] and a further call resolves
    at once, adding nothing. *)
Theorem loadScriptOnce_new_src (src : string) (scripts : list script) :
  ~ In src (map script_src scripts) ->
  let added := (scripts ++ [{| script_src := src; script_loaded := Some "false" |}])%list in
  loadScriptOnce src scripts = (added, WaitsForLoad) /\
  loadScriptOnce src added = (added, WaitsForLoad) /\
  script_loaded_event src added =
    (scripts ++ [{| script_src := src; script_loaded := Some "true" |}])%list /\
  loadScriptOnce src (script_loaded_event src added) =
    (script_loaded_event src added, ResolvedNow).
Proof.
  intros H added.
  assert (Ev : script_loaded_event src added =
               (scripts ++ [{| script_src := src; script_loaded := Some "true" |}])%list).
  { subst added. unfold script_loaded_event. rewrite map_app.
    fold (script_loaded_event src scripts). rewrite script_loaded_event_other by exact H.
    cbn. rewrite String.eqb_refl. reflexivity. }
  split; [|split; [|split]].
  - unfold loadScriptOnce. rewrite find_src_none by exact H. reflexivity.
  - unfold loadScriptOnce. subst added. rewrite find_src_app_none by exact H.
    cbn. rewrite String.eqb_refl. reflexivity.
  - exact Ev.
  - rewrite Ev. unfold loadScriptOnce. rewrite find_src_app_none by exact H.
    cbn. rewrite String.eqb_refl. reflexivity.
Qed.

Lemma loadScriptOnce_new_src_witness :
  let added := ([] ++ [{| script_src := "assets/js/vendor/heic2any.min.js"; script_loaded := Some "false" |}])%list in
  loadScriptOnce "assets/js/vendor/heic2any.min.js" [] = (added, WaitsForLoad) /\
  loadScriptOnce "assets/js/vendor/heic2any.min.js" added = (added, WaitsForLoad) /\
  script_loaded_event "assets/js/vendor/heic2any.min.js" added =
    ([] ++ [{| script_src := "assets/js/vendor/heic2any.min.js"; script_loaded := Some "true" |}])%list /\
  loadScriptOnce "assets/js/vendor/heic2any.min.js" (script_loaded_event "assets/js/vendor/heic2any.min.js" added) =
    (script_loaded_event "assets/js/vendor/heic2any.min.js" added, ResolvedNow).
Proof.
  exact (loadScriptOnce_new_src "assets/js/vendor/heic2any.min.js" [] (fun H => match H with end)).
Defined.

End ScriptExtras.
